(** * ScraperMobileSentrix: the browser-side price, stock and history logic

    A shallow embedding of the functions of [static/js/main.js],
    [static/js/results.js] and the history page script that decide how a
    scraped price is parsed, how a stock text is normalised, how a change
    record is turned into a delta, and how history sessions are indexed,
    filtered and sorted; and of the helpers around them: the escaping of
    markup, the CSV text, the duplicate filter and the pager of the
    table, the watchlist, the keyword chips, the comparison file, and the
    labels, the wording, the SKU and the class name of a change.

    Conventions.
    - A JavaScript number is an IEEE-754 binary64 value: [float] with the
      kernel's primitive operations.
    - A JavaScript string is the [string] of its UTF-8 bytes.
    - White space and letter case follow the tables of Unicode.  The
      built-ins that read them, [String.prototype.trim] (whose white space
      is also what [Number] skips around a numeral) and
      [String.prototype.toLowerCase], are Section variables [trim] and
      [toLowerCase] of the functions that call them; what a theorem needs
      of them it states as a hypothesis.  [JS.trim], [JS.toLowerCase] and
      [JS.toUpperCase] are these operations as they are on ASCII text; a
      theorem that names them speaks of the functions at this instance.
      In the keyword patterns of the stock value [\s] is the ASCII white
      space and the encodings of the other white space characters
      ([JS.orSpace]); the [i] flag folds the letters A to Z, which is all
      it does to a pattern of ASCII characters.
    - A value read from a JSON payload is a [jsval].
    - Built-ins of the host whose result is not fixed by the language
      ([Intl.NumberFormat], [localeCompare], [new URL], the digits of
      [Number.prototype.toString]) are Section variables. *)

From Stdlib Require Import ZArith NArith Bool List String Ascii Lia.
From Stdlib Require Import Floats DecimalString.
From Stdlib Require Import Sorting.Permutation Sorting.Sorted.
Import ListNotations.

Open Scope string_scope.
Open Scope bool_scope.

(* ================================================================= *)
(** ** Characters and strings of the host language *)

Module JS.

Definition code (c : ascii) : N := N_of_ascii c.

Definition inRange (lo hi : N) (c : ascii) : bool :=
  (N.leb lo (code c)) && (N.leb (code c) hi).

Definition isDigit : ascii -> bool := inRange 48 57.
Definition isLower : ascii -> bool := inRange 97 122.
Definition isUpper : ascii -> bool := inRange 65 90.

(** The ASCII characters of [\s], which are the ASCII characters that
    [String.prototype.trim] strips. *)
Definition isSpace (c : ascii) : bool :=
  inRange 9 13 c || N.eqb (code c) 32.

Definition lowerChar (c : ascii) : ascii :=
  if isUpper c then ascii_of_N (code c + 32) else c.

Fixpoint smap (f : ascii -> ascii) (s : string) : string :=
  match s with
  | EmptyString => EmptyString
  | String c t => String (f c) (smap f t)
  end.

(** [String.prototype.toLowerCase] on ASCII text. *)
Definition toLowerCase : string -> string := smap lowerChar.

Fixpoint sfilter (p : ascii -> bool) (s : string) : string :=
  match s with
  | EmptyString => EmptyString
  | String c t => if p c then String c (sfilter p t) else sfilter p t
  end.

Fixpoint dropWhile (p : ascii -> bool) (s : string) : string :=
  match s with
  | EmptyString => EmptyString
  | String c t => if p c then dropWhile p t else s
  end.

(** Removes the longest suffix all of whose characters satisfy [p]. *)
Fixpoint dropWhileEnd (p : ascii -> bool) (s : string) : string :=
  match s with
  | EmptyString => EmptyString
  | String c t =>
      match dropWhileEnd p t with
      | EmptyString => if p c then EmptyString else String c EmptyString
      | rest => String c rest
      end
  end.

Definition trimStart : string -> string := dropWhile isSpace.
Definition trimEnd : string -> string := dropWhileEnd isSpace.
(** [String.prototype.trim] on ASCII text. *)
Definition trim (s : string) : string := trimEnd (trimStart s).

Fixpoint startsWith (s p : string) {struct p} : bool :=
  match p, s with
  | EmptyString, _ => true
  | String _ _, EmptyString => false
  | String a p', String b s' => Ascii.eqb a b && startsWith s' p'
  end.

Fixpoint includes (s needle : string) : bool :=
  startsWith s needle ||
  match s with
  | EmptyString => false
  | String _ t => includes t needle
  end.

Fixpoint sdrop (n : nat) (s : string) : string :=
  match n, s with
  | O, _ => s
  | S _, EmptyString => EmptyString
  | S n', String _ t => sdrop n' t
  end.

Fixpoint stake (n : nat) (s : string) : string :=
  match n, s with
  | O, _ => EmptyString
  | S _, EmptyString => EmptyString
  | S n', String c t => String c (stake n' t)
  end.

(** [Array.prototype.join]. *)
Fixpoint join (sep : string) (l : list string) : string :=
  match l with
  | [] => ""
  | [x] => x
  | x :: t => x ++ sep ++ join sep t
  end.

(** [s.replace(/[^...]+/g, r)]: every maximal run of characters outside
    [keep] becomes one copy of [r]. *)
Fixpoint replaceRuns (keep : ascii -> bool) (r : string) (inRun : bool)
    (s : string) : string :=
  match s with
  | EmptyString => EmptyString
  | String c t =>
      if keep c then String c (replaceRuns keep r false t)
      else if inRun then replaceRuns keep r true t
      else r ++ replaceRuns keep r true t
  end.

(* ----------------------------------------------------------------- *)
(** *** Regular expressions

    A backtracking matcher in continuation style, the order of the
    language's own: the left alternative first, quantifiers greedy, an
    iteration of a star has to consume input. *)

Inductive regex : Type :=
| Lit (s : string)
| Class (p : ascii -> bool)
| Cat (r1 r2 : regex)
| Alt (r1 r2 : regex)
| Opt (r : regex)
| Star (r : regex)
| AtEnd.

Definition Plus (r : regex) : regex := Cat r (Star r).

Fixpoint Alts (r : regex) (rs : list regex) : regex :=
  match rs with
  | [] => r
  | r' :: rs' => Alt r (Alts r' rs')
  end.

Fixpoint Cats (r : regex) (rs : list regex) : regex :=
  match rs with
  | [] => r
  | r' :: rs' => Cat r (Cats r' rs')
  end.

(** The text of the bytes [l]. *)
Definition bytes (l : list N) : string :=
  fold_right (fun n s => String (ascii_of_N n) s) EmptyString l.

(** The encodings of the white space characters and line terminators
    beyond ASCII: U+00A0, U+1680, U+2000 to U+200A, U+2028, U+2029,
    U+202F, U+205F, U+3000 and U+FEFF. *)
Definition wideSpaces : list string :=
  [ bytes [194; 160]; bytes [225; 154; 128];
    bytes [226; 128; 128]; bytes [226; 128; 129]; bytes [226; 128; 130];
    bytes [226; 128; 131]; bytes [226; 128; 132]; bytes [226; 128; 133];
    bytes [226; 128; 134]; bytes [226; 128; 135]; bytes [226; 128; 136];
    bytes [226; 128; 137]; bytes [226; 128; 138];
    bytes [226; 128; 168]; bytes [226; 128; 169]; bytes [226; 128; 175];
    bytes [226; 129; 159]; bytes [227; 128; 128]; bytes [239; 187; 191] ]%N.

(** A class [p] of ASCII characters together with [\s]: one character
    of [p], one ASCII white space or one of the characters above. *)
Definition orSpace (p : ascii -> bool) : regex :=
  Alts (Class (fun c => p c || isSpace c)) (map Lit wideSpaces).

(** A literal of a pattern with the [i] flag against the input. *)
Fixpoint litPrefix (ci : bool) (p s : string) : option string :=
  match p, s with
  | EmptyString, _ => Some s
  | String _ _, EmptyString => None
  | String a p', String b s' =>
      if (if ci then Ascii.eqb (lowerChar a) (lowerChar b) else Ascii.eqb a b)
      then litPrefix ci p' s' else None
  end.

Section Matcher.
Context {R : Type}.
Variable ci : bool.

Fixpoint matchK (r : regex) (s : string) (k : string -> option R)
    {struct r} : option R :=
  match r with
  | Lit p =>
      match litPrefix ci p s with
      | Some rest => k rest
      | None => None
      end
  | Class p =>
      match s with
      | String c rest => if p c then k rest else None
      | EmptyString => None
      end
  | Cat r1 r2 => matchK r1 s (fun rest => matchK r2 rest k)
  | Alt r1 r2 =>
      match matchK r1 s k with
      | Some x => Some x
      | None => matchK r2 s k
      end
  | Opt r1 =>
      match matchK r1 s k with
      | Some x => Some x
      | None => k s
      end
  | Star r1 =>
      (fix loop (fuel : nat) (s : string) {struct fuel} : option R :=
         match fuel with
         | O => k s
         | S fuel' =>
             match matchK r1 s (fun rest =>
                      if Nat.ltb (String.length rest) (String.length s)
                      then loop fuel' rest else None) with
             | Some x => Some x
             | None => k s
             end
         end) (String.length s) s
  | AtEnd =>
      match s with
      | EmptyString => k s
      | String _ _ => None
      end
  end.
End Matcher.

(** The iterations of a star, as [matchK] runs them. *)
Definition starLoop {R : Type} (ci : bool) (r1 : regex)
    (k : string -> option R) : nat -> string -> option R :=
  fix loop (fuel : nat) (s : string) {struct fuel} : option R :=
    match fuel with
    | O => k s
    | S fuel' =>
        match matchK ci r1 s (fun rest =>
                 if Nat.ltb (String.length rest) (String.length s)
                 then loop fuel' rest else None) with
        | Some x => Some x
        | None => k s
        end
    end.

(** The remainder of [s] after the match of [r] that starts at its head. *)
Definition matchHere (ci : bool) (r : regex) (s : string) : option string :=
  matchK ci r s (fun rest => Some rest).

(** [RegExp.prototype.exec] without the [g] flag: the leftmost start at
    which the pattern matches; the result is the matched text. *)
Fixpoint exec (ci : bool) (r : regex) (s : string) : option string :=
  match matchHere ci r s with
  | Some rest => Some (stake (String.length s - String.length rest) s)
  | None =>
      match s with
      | EmptyString => None
      | String _ t => exec ci r t
      end
  end.

Definition test (ci : bool) (r : regex) (s : string) : bool :=
  match exec ci r s with Some _ => true | None => false end.

(* ----------------------------------------------------------------- *)
(** *** Numbers *)

Definition NaN : float := nan.

(** [Number.isFinite] on a number. *)
Definition isFinite (x : float) : bool :=
  negb (is_nan x) && negb (is_infinity x).

Fixpoint span (p : ascii -> bool) (s : string) : string * string :=
  match s with
  | EmptyString => (EmptyString, EmptyString)
  | String c t =>
      if p c then let '(a, b) := span p t in (String c a, b)
      else (EmptyString, s)
  end.

Definition digitVal (c : ascii) : Z := Z.of_N (code c) - 48.

Fixpoint digitsValue (acc : Z) (s : string) : Z :=
  match s with
  | EmptyString => acc
  | String c t => digitsValue (10 * acc + digitVal c) t
  end.

(** The binary64 value nearest to [m * 10 ^ e] (ties to even), negated
    when [neg]: the value of a decimal literal. *)
Definition ofDecimal (neg : bool) (m e : Z) : float :=
  let sf :=
    match m with
    | Zpos p =>
        if (0 <=? e)%Z then binary_normalize prec emax (m * 10 ^ e) 0 false
        else SFdiv prec emax (S754_finite false p 0)
                   (S754_finite false (Z.to_pos (10 ^ (- e))) 0)
    | _ => S754_zero false
    end in
  let x := SF2Prim sf in
  if neg then (- x)%float else x.

Definition signOf (s : string) : bool * string :=
  match s with
  | String "-"%char t => (true, t)
  | String "+"%char t => (false, t)
  | _ => (false, s)
  end.

(** An [ExponentPart] at the head of [s], when it is well formed. *)
Definition scanExponent (s : string) : Z * string :=
  match s with
  | String c t =>
      if Ascii.eqb c "e" || Ascii.eqb c "E" then
        let '(neg, t') := signOf t in
        let '(ds, rest) := span isDigit t' in
        match ds with
        | EmptyString => (0%Z, s)
        | _ => ((if neg then - digitsValue 0 ds else digitsValue 0 ds)%Z, rest)
        end
      else (0%Z, s)
  | EmptyString => (0%Z, s)
  end.

(** The longest [StrUnsignedDecimalLiteral] (other than [Infinity]) at
    the head of [s]: mantissa, decimal exponent and what follows. *)
Definition scanDecimal (s : string) : option (Z * Z * string) :=
  let '(ip, r1) := span isDigit s in
  match r1 with
  | String "."%char r1' =>
      let '(fp, r2) := span isDigit r1' in
      match ip, fp with
      | EmptyString, EmptyString => None
      | _, _ =>
          let '(e, r3) := scanExponent r2 in
          Some (digitsValue 0 (ip ++ fp),
                (e - Z.of_nat (String.length fp))%Z, r3)
      end
  | _ =>
      match ip with
      | EmptyString => None
      | _ => let '(e, r3) := scanExponent r1 in Some (digitsValue 0 ip, e, r3)
      end
  end.

Definition radixDigit (radix : Z) (c : ascii) : option Z :=
  let v :=
    if isDigit c then digitVal c
    else if inRange 97 102 c then (Z.of_N (code c) - 87)%Z
    else if inRange 65 70 c then (Z.of_N (code c) - 55)%Z
    else 99%Z in
  if (v <? radix)%Z then Some v else None.

Fixpoint radixValue (radix acc : Z) (s : string) : option Z :=
  match s with
  | EmptyString => Some acc
  | String c t =>
      match radixDigit radix c with
      | Some v => radixValue radix (radix * acc + v)%Z t
      | None => None
      end
  end.

(** [0x], [0o] and [0b] literals: [None] when [s] has no such prefix. *)
Definition scanRadix (s : string) : option float :=
  match s with
  | String "0"%char (String c t) =>
      let radix :=
        if Ascii.eqb (lowerChar c) "x" then 16%Z
        else if Ascii.eqb (lowerChar c) "o" then 8%Z
        else if Ascii.eqb (lowerChar c) "b" then 2%Z
        else 0%Z in
      if (radix =? 0)%Z then None
      else match t with
           | EmptyString => Some NaN
           | _ => match radixValue radix 0 t with
                  | Some v => Some (SF2Prim (binary_normalize prec emax v 0 false))
                  | None => Some NaN
                  end
           end
  | _ => None
  end.

(** [StringToNumber]: the conversion [Number(s)] and unary [+] apply;
    [trim] takes the white space around the numeral. *)
Definition stringToNumber (trim : string -> string) (s : string)
    : float :=
  let t := trim s in
  match t with
  | EmptyString => 0%float
  | _ =>
      match scanRadix t with
      | Some x => x
      | None =>
          let '(neg, u) := signOf t in
          if String.eqb u "Infinity"
          then (if neg then neg_infinity else infinity)
          else match scanDecimal u with
               | Some (m, e, EmptyString) => ofDecimal neg m e
               | _ => NaN
               end
      end
  end.


(** [parseFloat]: the longest numeric prefix. *)
Definition parseFloat (s : string) : float :=
  let '(neg, u) := signOf (trimStart s) in
  if startsWith u "Infinity"
  then (if neg then neg_infinity else infinity)
  else match scanDecimal u with
       | Some (m, e, _) => ofDecimal neg m e
       | None => NaN
       end.

(** [+x.toFixed(2)]: the number read back from the two-decimal text of
    [x].  The text holds the integer [n] with [n / 100] nearest to [|x|]
    (the larger on a tie); from 1e21 on, and for a value that is not
    finite, the text is that of [x] itself. *)
Definition roundToCents (x : float) : float :=
  if is_nan x then x
  else if (1e21 <=? abs x)%float then x
  else match Prim2SF x with
       | S754_finite s m e =>
           let n :=
             if (0 <=? e)%Z then (100 * Zpos m * 2 ^ e)%Z
             else ((200 * Zpos m + 2 ^ (- e)) / (2 * 2 ^ (- e)))%Z in
           ofDecimal s n (-2)
       | _ => 0%float
       end.

(* ----------------------------------------------------------------- *)
(** *** Values of a JSON payload *)

Inductive jsval : Type :=
| JUndefined
| JNull
| JBool (b : bool)
| JNum (x : float)
| JStr (s : string).

(** [ToBoolean]. *)
Definition truthy (v : jsval) : bool :=
  match v with
  | JUndefined | JNull => false
  | JBool b => b
  | JNum x => negb (is_nan x || is_zero x)
  | JStr s => negb (String.eqb s "")
  end.

(** [v == null]. *)
Definition nullish (v : jsval) : bool :=
  match v with
  | JUndefined | JNull => true
  | _ => false
  end.

(** [a || b] and [a ?? b]. *)
Definition orElse (a b : jsval) : jsval := if truthy a then a else b.
Definition coalesce (a b : jsval) : jsval := if nullish a then b else a.

(** [Number(v)]. *)
Definition toNumber (trim : string -> string) (v : jsval) : float :=
  match v with
  | JUndefined => NaN
  | JNull => 0%float
  | JBool b => if b then 1%float else 0%float
  | JNum x => x
  | JStr s => stringToNumber trim s
  end.


(** [Number.isFinite(v)]: false on whatever is not a number. *)
Definition isFiniteValue (v : jsval) : bool :=
  match v with
  | JNum x => isFinite x
  | _ => false
  end.

(** [String(v)] and [v.toString()], given the digits of a number. *)
Definition toStringWith (numberToString : float -> string) (v : jsval)
    : string :=
  match v with
  | JUndefined => "undefined"
  | JNull => "null"
  | JBool b => if b then "true" else "false"
  | JNum x => numberToString x
  | JStr s => s
  end.

(** [a === b] on primitive values. *)
Definition strictEq (a b : jsval) : bool :=
  match a, b with
  | JUndefined, JUndefined => true
  | JNull, JNull => true
  | JBool x, JBool y => Bool.eqb x y
  | JNum x, JNum y => (x =? y)%float
  | JStr x, JStr y => String.eqb x y
  | _, _ => false
  end.

(** [Array.prototype.sort] with a comparator: the stable sort.  For a
    comparator that is not consistent the language leaves the order to
    the engine; this is the order of insertion from the right. *)
Fixpoint insertSorted {A : Type} (cmp : A -> A -> Z) (x : A) (l : list A)
    : list A :=
  match l with
  | [] => [x]
  | y :: t => if (cmp x y <=? 0)%Z then x :: l else y :: insertSorted cmp x t
  end.

Definition arraySort {A : Type} (cmp : A -> A -> Z) (l : list A) : list A :=
  fold_right (insertSorted cmp) [] l.

(** The number of an array length. *)
Definition ofNat (n : nat) : float :=
  SF2Prim (binary_normalize prec emax (Z.of_nat n) 0 false).

(** [SameValueZero], the equality of [Set] and [Array.prototype.includes]. *)
Definition sameValueZero (a b : jsval) : bool :=
  match a, b with
  | JNum x, JNum y => (x =? y)%float || (is_nan x && is_nan y)
  | _, _ => strictEq a b
  end.

(** [set.add(v)] on the elements of a [Set] in insertion order. *)
Definition setAdd (s : list jsval) (v : jsval) : list jsval :=
  if existsb (sameValueZero v) s then s else (s ++ [v])%list.

(** [a] may stand before [b] under the comparator. *)
Definition ordered {A : Type} (cmp : A -> A -> Z) (a b : A) : Prop :=
  (cmp a b <= 0)%Z.

(** The head of [s] is not a character of [p]. *)
Definition headKept (p : ascii -> bool) (s : string) : bool :=
  match s with
  | EmptyString => true
  | String c _ => negb (p c)
  end.

(** Every character of [s] is one of [p]. *)
Fixpoint allOf (p : ascii -> bool) (s : string) : bool :=
  match s with
  | EmptyString => true
  | String c t => p c && allOf p t
  end.

(** [c.repeat(n)] *)
Fixpoint repeatChar (c : ascii) (n : nat) : string :=
  match n with
  | O => ""
  | S n' => String c (repeatChar c n')
  end.

(** The double quote, as a one-character string. *)
Definition dquote : string := String (ascii_of_N 34) EmptyString.

Definition upperChar (c : ascii) : ascii :=
  if isLower c then ascii_of_N (code c - 32) else c.

(** [String.prototype.toUpperCase] on ASCII text. *)
Definition toUpperCase : string -> string := smap upperChar.

(** [s.replace(/c/g, r)] for one character [c]. *)
Fixpoint replaceChar (c : ascii) (r : string) (s : string) : string :=
  match s with
  | EmptyString => EmptyString
  | String a t =>
      if Ascii.eqb a c then r ++ replaceChar c r t
      else String a (replaceChar c r t)
  end.

(** [s.split(/[...]+/)] for a class [sep]: the pieces between the
    maximal runs of separators, an empty piece before a run that opens
    the text and after one that closes it. *)
Fixpoint splitRuns (sep : ascii -> bool) (inRun : bool) (s : string)
    : list string :=
  match s with
  | EmptyString => [EmptyString]
  | String c t =>
      if sep c then
        if inRun then splitRuns sep true t
        else EmptyString :: splitRuns sep true t
      else match splitRuns sep false t with
           | w :: rest => String c w :: rest
           | [] => [String c EmptyString]
           end
  end.

(** [Array.prototype.slice(start, end)] on integers: a negative index
    counts from the end. *)
Definition sliceIndex (len i : Z) : Z :=
  if (i <? 0)%Z then Z.max (len + i) 0 else Z.min i len.

Definition slice {A : Type} (start stop : Z) (l : list A) : list A :=
  let len := Z.of_nat (List.length l) in
  let k := sliceIndex len start in
  let final := sliceIndex len stop in
  firstn (Z.to_nat (final - k)) (skipn (Z.to_nat k) l).

(** The last character of [s] is not a character of [p]. *)
Fixpoint lastKept (p : ascii -> bool) (s : string) : bool :=
  match s with
  | EmptyString => true
  | String c EmptyString => negb (p c)
  | String _ t => lastKept p t
  end.

(** No character of [s] is one of [p]. *)
Definition noneOf (p : ascii -> bool) (s : string) : bool :=
  allOf (fun c => negb (p c)) s.

(** [set.delete(v)] *)
Definition setDelete (s : list jsval) (v : jsval) : list jsval :=
  filter (fun x => negb (sameValueZero v x)) s.

(** [keywords.indexOf(text)] and [keywords.splice(index, 1)] when the
    index is found: the first occurrence goes. *)
Fixpoint removeFirst (text : string) (keywords : list string) : list string :=
  match keywords with
  | [] => []
  | k :: rest =>
      if String.eqb k text then rest else k :: removeFirst text rest
  end.

(** Every white-space character of [s] is a space, with no white space
    after it. *)
Fixpoint singleSpaced (s : string) : bool :=
  match s with
  | EmptyString => true
  | String c t =>
      (negb (isSpace c) || (Ascii.eqb c " " && headKept isSpace t))
      && singleSpaced t
  end.

End JS.
(* ================================================================= *)
(** ** static/js/main.js: prices and stock of a scraped item *)

Module Main.
Import JS.

Section WithHost.
(** The digits [Number.prototype.toString] prints. *)
Variable numberToString : float -> string.
(** [String.prototype.trim] and [String.prototype.toLowerCase]. *)
Variable trim : string -> string.
Variable toLowerCase : string -> string.

Definition toString : jsval -> string := toStringWith numberToString.

Definition digit : regex := Class isDigit.

(** [/([0-9]{1,3}(?:,[0-9]{3})*(?:\.[0-9]{2})|[0-9]+(?:\.[0-9]{2})?)/] *)
Definition moneyPattern : regex :=
  Alt
    (Cats (Cat digit (Opt (Cat digit (Opt digit))))
          [Star (Cats (Lit ",") [digit; digit; digit]);
           Cats (Lit ".") [digit; digit]])
    (Cat (Plus digit) (Opt (Cats (Lit ".") [digit; digit]))).

Definition isComma (c : ascii) : bool := Ascii.eqb c ",".

(** [null] is [None]. *)
Definition parseMoney (maybe : jsval) : option float :=
  if negb (truthy maybe) then None
  else match exec false moneyPattern (toString maybe) with
       | None => None
       | Some m1 => Some (parseFloat (sfilter (fun c => negb (isComma c)) m1))
       end.

(** The keys of [STOCK_LABELS], each with its label and tone. *)
Definition STOCK_LABELS : list (string * (string * string)) :=
  [ ("in_stock", ("In Stock", "positive"));
    ("limited", ("Limited", "warning"));
    ("back_order", ("Back Order", "warning"));
    ("preorder", ("Preorder", "info"));
    ("pre_order", ("Preorder", "info"));
    ("out_of_stock", ("Out of Stock", "danger"));
    ("sold_out", ("Sold Out", "danger"));
    ("discontinued", ("Discontinued", "muted"));
    ("unavailable", ("Unavailable", "muted"));
    ("unknown", ("Unknown", "muted")) ].

(** [STOCK_LABELS[key]] is truthy: an own key or, the table being a
    plain object, the one inherited property in lower-case letters. *)
Definition hasLabel (key : string) : bool :=
  existsb (fun kv => String.eqb (fst kv) key) STOCK_LABELS
  || String.eqb key "constructor".

Definition lits (l : list string) : list regex := map Lit l.

Definition isHyphen (c : ascii) : bool := Ascii.eqb c "-".

(** [[-\s]] *)
Definition dashOrSpace : regex := orSpace isHyphen.

(** [/(not available|no stock|sold out|unavailable|out of stock|out-of-stock|outofstock)/i] *)
Definition keywordOutOfStock : regex :=
  Alts (Lit "not available")
       (lits ["no stock"; "sold out"; "unavailable"; "out of stock";
              "out-of-stock"; "outofstock"]).

(** [/(back[-\s]?order|awaiting stock|ships in|special order|backordered|backorder)/i] *)
Definition keywordBackOrder : regex :=
  Alts (Cats (Lit "back") [Opt dashOrSpace; Lit "order"])
       (lits ["awaiting stock"; "ships in"; "special order";
              "backordered"; "backorder"]).

(** [/(pre[-\s]?order|coming soon|preorder)/i] *)
Definition keywordPreorder : regex :=
  Alts (Cats (Lit "pre") [Opt dashOrSpace; Lit "order"])
       (lits ["coming soon"; "preorder"]).

(** [/(limited|low stock|few left|almost gone|only \d+|limitedavailability)/i] *)
Definition keywordLimited : regex :=
  Alts (Lit "limited")
       [Lit "low stock"; Lit "few left"; Lit "almost gone";
        Cat (Lit "only ") (Plus digit); Lit "limitedavailability"].

(** [/(discontinued|no longer available|retired)/i] *)
Definition keywordDiscontinued : regex :=
  Alts (Lit "discontinued")
       (lits ["no longer available"; "retired"]).

(** [/(in stock|available now|ready to ship|ships today|instock|yes$|available$)/i] *)
Definition keywordInStock : regex :=
  Alts (Lit "in stock")
       [Lit "available now"; Lit "ready to ship"; Lit "ships today";
        Lit "instock"; Cat (Lit "yes") AtEnd;
        Cat (Lit "available") AtEnd].

Definition STOCK_KEYWORDS : list (regex * string) :=
  [ (keywordOutOfStock, "out_of_stock");
    (keywordBackOrder, "back_order");
    (keywordPreorder, "preorder");
    (keywordLimited, "limited");
    (keywordDiscontinued, "discontinued");
    (keywordInStock, "in_stock") ].

(** The [for ... of] loop with its early return. *)
Fixpoint firstKeyword (kws : list (regex * string)) (lowered : string)
    : option string :=
  match kws with
  | [] => None
  | (re, value) :: rest =>
      if test true re lowered then Some value
      else firstKeyword rest lowered
  end.

(** [lowered.replace(/[^a-z]+/g, '_')] *)
Definition slug (lowered : string) : string :=
  replaceRuns isLower "_" false lowered.

Definition normaliseStockValue (raw : jsval) : string :=
  if nullish raw then "unknown"
  else
    let str := trim (toString raw) in
    if String.eqb str "" then "unknown"
    else
      let lowered := toLowerCase str in
      let canonical := slug lowered in
      if hasLabel canonical then canonical
      else match firstKeyword STOCK_KEYWORDS lowered with
           | Some value => value
           | None => if String.eqb canonical "" then "unknown" else canonical
           end.

(** The normaliser as the specification words it: the category of
    the first keyword pattern that matches, the slug of the text when
    none does. *)
Definition keywordOrSlug (raw : jsval) : string :=
  let lowered := toLowerCase (trim (toString raw)) in
  match firstKeyword STOCK_KEYWORDS lowered with
  | Some value => value
  | None => slug lowered
  end.

(** The price fields of a scraped item that [render] reads. *)
Record item : Type := mkItem {
  original_formatted : jsval;
  price_text : jsval;
  discounted_formatted : jsval
}.

(** The price columns of a row of the results table. *)
Record rowPrices : Type := mkRowPrices {
  priceForDelta : option float;
  percentOffActual : option float;
  absoluteOffActual : option float
}.

(** [Number.isFinite] on the result of [parseMoney]. *)
Definition finiteMoney (x : option float) : bool :=
  match x with
  | Some v => isFinite v
  | None => false
  end.

(** [x > 0], where [null] converts to zero. *)
Definition positiveMoney (x : option float) : bool :=
  match x with
  | Some v => (0 <? v)%float
  | None => false
  end.

Definition moneyOrZero (x : option float) : float :=
  match x with
  | Some v => v
  | None => 0%float
  end.

Definition originalOf (it : item) : jsval :=
  orElse (orElse (original_formatted it) (price_text it)) (JStr "").

Definition finalRawOf (it : item) : jsval :=
  orElse (discounted_formatted it) (JStr "").

(** The price part of the callback of [rawItems.map] in [render]. *)
Definition rowPricesOf (it : item) : rowPrices :=
  let original := originalOf it in
  let finalRaw := finalRawOf it in
  let originalNum := parseMoney original in
  let finalNum := parseMoney (orElse finalRaw original) in
  let o := moneyOrZero originalNum in
  let f := moneyOrZero finalNum in
  {| priceForDelta := if finiteMoney originalNum then originalNum else finalNum;
     percentOffActual :=
       if finiteMoney originalNum && finiteMoney finalNum
          && positiveMoney originalNum
       then Some (roundToCents (((o - f) / o) * 100)%float)
       else None;
     absoluteOffActual :=
       if finiteMoney originalNum && finiteMoney finalNum
       then Some (roundToCents (o - f)%float)
       else None |}.

Definition dquoteChar : ascii := ascii_of_N 34.

(** [escapeHtml]: the five replacements, one after the other; the
    default of the parameter stands for [undefined]. *)
Definition escapeHtml (str : jsval) : string :=
  let s := match str with JUndefined => "" | _ => toString str end in
  replaceChar "'" "&#39;"
    (replaceChar dquoteChar "&quot;"
       (replaceChar ">" "&gt;"
          (replaceChar "<" "&lt;"
             (replaceChar "&" "&amp;" s)))).

(** [/[_\s-]+/] *)
Definition wordBreak (c : ascii) : bool :=
  Ascii.eqb c "_" || isSpace c || Ascii.eqb c "-".

(** [part.charAt(0).toUpperCase() + part.slice(1)] *)
Definition capitalise (part : string) : string :=
  match part with
  | EmptyString => EmptyString
  | String c t => String (upperChar c) t
  end.

(** [Boolean] on a string. *)
Definition nonEmpty (s : string) : bool := negb (String.eqb s "").

Definition toTitleCase (text : string) : string :=
  join " " (map capitalise (filter nonEmpty (splitRuns wordBreak false text))).

(** The result of [getStockMeta]. *)
Record stockMeta : Type := mkStockMeta {
  meta_value : string;
  meta_label : string;
  meta_tone : string
}.

(** The label and the tone of [STOCK_LABELS[value]]; the property the
    table inherits has neither. *)
Definition labelEntry (value : string) : option (string * string) :=
  match find (fun kv => String.eqb (fst kv) value) STOCK_LABELS with
  | Some kv => Some (snd kv)
  | None => None
  end.

(** A property that is [undefined] reads as the empty text, which [||]
    treats alike. *)
Definition getStockMeta (raw : jsval) : stockMeta :=
  let value := normaliseStockValue raw in
  let meta := labelEntry value in
  let metaLabel := match meta with Some (l, _) => l | None => "" end in
  let metaTone := match meta with Some (_, t) => t | None => "" end in
  {| meta_value := value;
     meta_label :=
       if nonEmpty metaLabel then metaLabel
       else toTitleCase (if nonEmpty value then value else "Unknown");
     meta_tone := if nonEmpty metaTone then metaTone else "muted" |}.

(** [String(v ?? '')] *)
Definition cellText (v : jsval) : string :=
  toString (coalesce v (JStr "")).

(** The text of a cell between quotes, every quote of it doubled. *)
Definition quoteText (s : string) : string :=
  dquote ++ replaceChar dquoteChar (dquote ++ dquote) s ++ dquote.

Definition newline : string := String (ascii_of_N 10) EmptyString.

Definition toCSV (table : list (list jsval)) : string :=
  join newline
    (map (fun cols => join "," (map (fun v => quoteText (cellText v)) cols))
       table).

(** [seen.has(key)], [watch.has(key)] *)
Definition has (seen : list jsval) (key : string) : bool :=
  existsb (sameValueZero (JStr key)) seen.

(** [watch.has(watchKey) || watch.has(safeWatchKey)], the star of a row
    in [render]. *)
Definition isWatched (watch : list jsval) (watchKey : string) : bool :=
  has watch watchKey || has watch (escapeHtml (JStr watchKey)).

(** The click handler of a star; [u] is [td.dataset.url], and
    [escapeHtml(u || '')] is [escapeHtml(u)] on a string. *)
Definition toggleWatch (watch : list jsval) (u : string) : list jsval :=
  let safeKey := escapeHtml (JStr u) in
  if has watch u || has watch safeKey
  then setDelete (setDelete watch (JStr u)) (JStr safeKey)
  else setAdd (setDelete watch (JStr safeKey)) (JStr u).

End WithHost.

(** A key press or a click on the keyword chips: Enter in the input, with
    the text of the input, or the cross of a chip, with the text of the
    chip. *)
Inductive chipEvent : Type :=
| EnterKeyword (inputValue : string)
| RemoveChip (text : string).

(** [addKeyword], on the array of keywords. *)
Definition addKeyword (inputValue : string) (keywords : list string)
    : list string :=
  let value := trim inputValue in
  if nonEmpty value && negb (existsb (String.eqb value) keywords)
  then (keywords ++ [value])%list
  else keywords.

Definition chipStep (keywords : list string) (ev : chipEvent)
    : list string :=
  match ev with
  | EnterKeyword inputValue => addKeyword inputValue keywords
  | RemoveChip text => removeFirst text keywords
  end.

(** The value of the hidden input, [keywords.join(', ')], after a run of
    events that starts with no keyword. *)
Definition keywordsAfter (events : list chipEvent) : list string :=
  fold_left chipStep events [].

(* ----------------------------------------------------------------- *)
(** *** The comparison file: [compareMap], its loader and the lookup *)

(** A row of the comparison file. *)
Record compareRow : Type := mkCompareRow {
  cmp_title : jsval;
  cmp_price : jsval;
  cmp_site : jsval;
  cmp_source : jsval;
  cmp_url : jsval
}.

(** The entries of a [Map] from keys to prices, the latest first: [get]
    reads the latest entry of a key, which is what [set] leaves. *)
Definition priceMap : Type := list (string * float).

Definition mapGet (key : string) (m : priceMap) : option float :=
  match find (fun kv => String.eqb (fst kv) key) m with
  | Some kv => Some (snd kv)
  | None => None
  end.

Definition mapSet (key : string) (v : float) (m : priceMap) : priceMap :=
  (key, v) :: m.

(** [a ?? b] on the result of a lookup, [undefined] as [None]. *)
Definition orLookup (a b : option float) : option float :=
  match a with
  | Some x => Some x
  | None => b
  end.

(** The prices of a map are prices of [P]. *)
Definition pricesFrom (P : float -> Prop) (m : priceMap) : Prop :=
  forall key q, mapGet key m = Some q -> P q.

Section Compare.
Variable numberToString : float -> string.
(** [String.prototype.trim] and [String.prototype.toLowerCase]. *)
Variable trim : string -> string.
Variable toLowerCase : string -> string.
(** [norm] and [modelKey], which the loader and the lookup both apply to
    the trimmed title. *)
Variable norm : string -> string.
Variable modelKey : string -> string.

(** [(title || '').trim()]; [None] when [trim] is no method of the
    value and the call throws. *)
Definition titleText (title : jsval) : option string :=
  match orElse title (JStr "") with
  | JStr s => Some (trim s)
  | _ => None
  end.

(** [String(v || '').trim().toLowerCase()] *)
Definition keyText (v : jsval) : string :=
  toLowerCase (trim (toString numberToString (orElse v (JStr "")))).

(** [parseMoney] with [null] as a value. *)
Definition parsedMoney (v : jsval) : jsval :=
  match parseMoney numberToString v with
  | Some x => JNum x
  | None => JNull
  end.

(** The price of a row as the loader settles it; [None] when the row is
    left out. *)
Definition priceValueOf (row : compareRow) : option float :=
  let priceValue := cmp_price row in
  let priceValue :=
    match priceValue with
    | JStr _ => parsedMoney priceValue
    | _ => priceValue
    end in
  let priceValue :=
    if negb (isFiniteValue priceValue)
    then parsedMoney
           (JStr (toString numberToString (coalesce priceValue (JStr ""))))
    else priceValue in
  match priceValue with
  | JNum x => if isFinite x then Some x else None
  | _ => None
  end.

(** [if (cond) addKey(key)], with the test of [addKey]. *)
Definition addKeyIf (cond : bool) (key : string) (priceValue : float)
    (m : priceMap) : priceMap :=
  if cond && nonEmpty key then mapSet key priceValue m else m.

(** The callback of [rows.forEach] in the loader; [None] when it throws. *)
Definition loadRow (m : priceMap) (row : compareRow) : option priceMap :=
  match titleText (cmp_title row) with
  | None => None
  | Some title =>
      if negb (nonEmpty title) then Some m
      else
        match priceValueOf row with
        | None => Some m
        | Some priceValue =>
            let titleKey := toLowerCase title in
            let normKey := norm title in
            let modelKeyVal := modelKey title in
            let siteValue :=
              keyText (orElse (cmp_site row) (cmp_source row)) in
            let urlValue := keyText (cmp_url row) in
            let m := addKeyIf (nonEmpty urlValue) ("url:" ++ urlValue)
                       priceValue m in
            let m := addKeyIf (nonEmpty siteValue && nonEmpty titleKey)
                       ("site:" ++ siteValue ++ ":" ++ titleKey)
                       priceValue m in
            let m := addKeyIf (nonEmpty titleKey) ("title:" ++ titleKey)
                       priceValue m in
            let m := addKeyIf (nonEmpty siteValue && nonEmpty modelKeyVal)
                       ("site-model:" ++ siteValue ++ ":" ++ modelKeyVal)
                       priceValue m in
            let m := addKeyIf (nonEmpty normKey) ("norm:" ++ normKey)
                       priceValue m in
            let m := addKeyIf (nonEmpty modelKeyVal)
                       ("model:" ++ modelKeyVal) priceValue m in
            Some m
        end
  end.

Fixpoint loadRows (rows : list compareRow) (m : priceMap)
    : option priceMap :=
  match rows with
  | [] => Some m
  | row :: rest =>
      match loadRow m row with
      | Some m' => loadRows rest m'
      | None => None
      end
  end.

(** [compareMap] after the upload: the rows of the file put into a new
    map, and a new map again when a row throws. *)
Definition loadComparison (rows : list compareRow) : priceMap :=
  match loadRows rows [] with
  | Some m => m
  | None => []
  end.

(** [key ? compareMap.get(key) : undefined] *)
Definition grab (m : priceMap) (key : string) : option float :=
  if nonEmpty key then mapGet key m else None.

(** [a && b] on two strings. *)
Definition andText (a b : string) : string :=
  if nonEmpty a then b else a.

(** [lookupComparePrice]; the outer [None] when it throws, the inner one
    for [undefined]. *)
Definition lookupComparePrice (m : priceMap) (title site url : jsval)
    : option (option float) :=
  match titleText title with
  | None => None
  | Some safeTitle =>
      let titleKey := toLowerCase safeTitle in
      let normKey := norm safeTitle in
      let modelKeyVal := modelKey safeTitle in
      let siteKey := keyText site in
      let urlKey := keyText url in
      Some
        (orLookup
           (orLookup
              (orLookup
                 (orLookup
                    (orLookup
                       (grab m (andText urlKey ("url:" ++ urlKey)))
                       (grab m (andText siteKey
                                  (andText titleKey
                                     ("site:" ++ siteKey ++ ":"
                                      ++ titleKey)))))
                    (grab m (andText titleKey ("title:" ++ titleKey))))
                 (grab m (andText siteKey
                            (andText modelKeyVal
                               ("site-model:" ++ siteKey ++ ":"
                                ++ modelKeyVal)))))
              (grab m (andText normKey ("norm:" ++ normKey))))
           (grab m (andText modelKeyVal ("model:" ++ modelKeyVal))))
  end.

End Compare.

Definition isQuote (c : ascii) : bool := Ascii.eqb c dquoteChar.

(** The text after a line: nothing, or the break before the next line. *)
Definition afterLine (r : string) : Prop :=
  r = "" \/ exists t, r = newline ++ t.

(** What one character becomes under [escapeHtml]. *)
Definition entityOf (c : ascii) : string :=
  if Ascii.eqb c "&" then "&amp;"
  else if Ascii.eqb c "<" then "&lt;"
  else if Ascii.eqb c ">" then "&gt;"
  else if Ascii.eqb c dquoteChar then "&quot;"
  else if Ascii.eqb c "'" then "&#39;"
  else String c EmptyString.

(** The text with every character replaced at once. *)
Fixpoint escapeEach (s : string) : string :=
  match s with
  | EmptyString => EmptyString
  | String c t => entityOf c ++ escapeEach t
  end.

(** The characters that open or close markup or an attribute value. *)
Definition isMarkup (c : ascii) : bool :=
  Ascii.eqb c "<" || Ascii.eqb c ">" || Ascii.eqb c dquoteChar
  || Ascii.eqb c "'".

(** The characters [escapeHtml] replaces. *)
Definition isEscaped (c : ascii) : bool := Ascii.eqb c "&" || isMarkup c.

(** A word: lower-case letters, at least one. *)
Definition isWord (w : string) : bool := nonEmpty w && allOf isLower w.

(** The fields of a row of [rows] that the duplicate filter of [render]
    reads: [title] and [model]. *)
Record row : Type := mkRow {
  row_title : string;
  row_model : string
}.

(** [r.model || r.title.toLowerCase()] *)
Definition dupKey (r : row) : string :=
  if nonEmpty (row_model r) then row_model r
  else toLowerCase (row_title r).

(** The callback of [rows.filter] under [hideDupes], with the [Set] it
    fills. *)
Fixpoint hideDuplicates (seen : list jsval) (rows : list row) : list row :=
  match rows with
  | [] => []
  | r :: rest =>
      let key := dupKey r in
      if has seen key then hideDuplicates seen rest
      else r :: hideDuplicates (setAdd seen (JStr key)) rest
  end.

(** [Math.max(1, Math.ceil(rows.length / pageSize))]; [pageSize] is 25 or
    the value of an option of the select, a positive integer. Below 2^53
    the ceiling of the rounded quotient is that of the exact one. *)
Definition totalPages (len : nat) (pageSize : positive) : Z :=
  Z.max 1 (- ((- Z.of_nat len) / Zpos pageSize)).

(** [currentPage] after the test of [render]. *)
Definition clampPage (len : nat) (pageSize : positive) (currentPage : Z)
    : Z :=
  if Nat.eqb len 0 then 1%Z
  else if (totalPages len pageSize <? currentPage)%Z
  then totalPages len pageSize
  else currentPage.

(** [rows.slice(start, start + pageSize)] *)
Definition pageRows {A : Type} (rows : list A) (pageSize : positive)
    (currentPage : Z) : list A :=
  let start := ((currentPage - 1) * Zpos pageSize)%Z in
  slice start (start + Zpos pageSize) rows.

(** The rows [render] puts into the table. *)
Definition shownRows {A : Type} (rows : list A) (pageSize : positive)
    (currentPage : Z) : list A :=
  pageRows rows pageSize (clampPage (List.length rows) pageSize currentPage).

(** The pages from the first to the [n]-th. *)
Definition pagesUpTo {A : Type} (rows : list A) (pageSize : positive)
    (n : nat) : list (list A) :=
  map (fun i => pageRows rows pageSize (Z.of_nat (S i))) (seq 0 n).

(** The groups of a grouped amount, a comma before each. *)
Fixpoint groupsText (groups : list string) : string :=
  match groups with
  | [] => ""
  | g :: rest => "," ++ g ++ groupsText rest
  end.

(** The groups without the commas. *)
Fixpoint joinAll (groups : list string) : string :=
  match groups with
  | [] => ""
  | g :: rest => g ++ joinAll rest
  end.

(** [s] is [n] digits. *)
Definition digitsOfLength (n : nat) (s : string) : Prop :=
  allOf isDigit s = true /\ String.length s = n.

Definition notDigit (c : ascii) : bool := negb (isDigit c).

End Main.
(* ================================================================= *)
(** ** static/js/results.js: change records of the results dashboard *)

Module Results.
Import JS.

(** A change record of the recent-changes payload. *)
Record change : Type := mkChange {
  change_type : jsval;
  difference : jsval;
  old_value : jsval;
  new_value : jsval;
  old_value_raw : jsval;
  new_value_raw : jsval;
  is_baseline : jsval;
  title : jsval
}.

Inductive side : Type := Old | New.

(** [change[`${side}_value_raw`]] and [change[`${side}_value`]]. *)
Definition rawFieldOf (c : change) (sd : side) : jsval :=
  match sd with Old => old_value_raw c | New => new_value_raw c end.

Definition structuredFieldOf (c : change) (sd : side) : jsval :=
  match sd with Old => old_value c | New => new_value c end.

(** The result of [resolveChangeValue]; [numeric] is [null] as [None]. *)
Record resolved : Type := mkResolved {
  text : string;
  isMissing : bool;
  numeric : option float
}.

(** The result of [formatDelta]. *)
Record deltaInfo : Type := mkDeltaInfo {
  delta_text : string;
  delta_direction : string;
  delta_title : string
}.

(** The [span] element [buildDifferenceBadge] creates: the properties it
    sets; one it leaves alone is empty or absent. *)
Record badge : Type := mkBadge {
  className : string;
  textContent : string;
  badge_title : string;
  dataset_baseline : option string;
  dataset_direction : option string
}.

Section WithHost.
(** The digits [Number.prototype.toString] prints. *)
Variable numberToString : float -> string.
(** [Intl.NumberFormat('en-US', {style: 'currency', currency: 'USD',
    minimumFractionDigits: 2, maximumFractionDigits: 2}).format]. *)
Variable currencyFormat : float -> string.
(** [a.localeCompare(b, undefined, {sensitivity: 'base'})], as the sign
    of the number it returns. *)
Variable localeCompare : string -> string -> Z.
(** [String.prototype.trim] and [String.prototype.toLowerCase]. *)
Variable trim : string -> string.
Variable toLowerCase : string -> string.

Definition toString : jsval -> string := toStringWith numberToString.

(** [Number(value)], on a string and on any value. *)
Abbreviation stringToNumber := (JS.stringToNumber trim).
Abbreviation toNumber := (JS.toNumber trim).

(** [(change.change_type || '').toString().toLowerCase()] *)
Definition typeOf (c : change) : string :=
  toLowerCase (toString (orElse (change_type c) (JStr ""))).

Definition placeholders : list string :=
  ["-"; "—"; "n/a"; "na"; "none"; "null"; "tbd"; "pending"].

Definition hasMeaningfulValueText (value : string) : bool :=
  let trimmed := trim value in
  if String.eqb trimmed "" then false
  else if existsb (String.eqb (toLowerCase trimmed)) placeholders then false
  else true.

Definition formatCurrency (value : float) : string :=
  if negb (isFinite value) then "—" else currencyFormat value.

(** [/[^0-9.-]/g]: the characters the replacement keeps. *)
Definition numericChar (c : ascii) : bool :=
  isDigit c || Ascii.eqb c "." || Ascii.eqb c "-".

(** The loop over [normalizedStrings], with its [continue] and [break]. *)
Fixpoint firstNumeric (candidates : list string) : option float :=
  match candidates with
  | [] => None
  | candidate :: rest =>
      let sanitized := sfilter numericChar candidate in
      if String.eqb sanitized "" then firstNumeric rest
      else
        let parsed := stringToNumber sanitized in
        if isFinite parsed then Some parsed else firstNumeric rest
  end.

Definition resolveChangeValue (ch : option change) (sd : side) : resolved :=
  match ch with
  | None => {| text := ""; isMissing := true; numeric := None |}
  | Some c =>
      let type := typeOf c in
      let rawField := rawFieldOf c sd in
      let structuredField := structuredFieldOf c sd in
      let stringCandidates :=
        ((if nullish rawField then [] else [rawField]) ++
         (if negb (nullish structuredField)
             && negb (strictEq structuredField rawField)
          then [structuredField] else []))%list in
      let normalizedStrings :=
        filter hasMeaningfulValueText
          (map (fun value =>
                  if nullish value then "" else trim (toString value))
               stringCandidates) in
      let fromStructured :=
        if nullish structuredField then None
        else if Nat.ltb 0 (String.length (trim (toString structuredField)))
        then let parsed := toNumber structuredField in
             if isFinite parsed then Some parsed else None
        else None in
      let numeric :=
        match fromStructured with
        | Some x => Some x
        | None =>
            if String.eqb type "price" then firstNumeric normalizedStrings
            else None
        end in
      let text :=
        if String.eqb type "price" then
          match numeric with
          | Some x => formatCurrency x
          | None => hd "" normalizedStrings
          end
        else hd "" normalizedStrings in
      {| text := text;
         isMissing := String.eqb text "";
         numeric := numeric |}
  end.

(** [Number.isFinite(resolved.numeric)] *)
Definition finiteNumeric (r : resolved) : bool :=
  match numeric r with
  | Some x => isFinite x
  | None => false
  end.

Definition numericOrZero (r : resolved) : float :=
  match numeric r with
  | Some x => x
  | None => 0%float
  end.

(** 1e-9, the nearest binary64 value. *)
Definition epsilon : float := 0x1.12e0be826d695p-30%float.

(** The value of [numeric] when [formatDelta] reaches its threshold
    test. *)
Definition deltaNumber (c : change) : float :=
  let numeric := toNumber (difference c) in
  if negb (isFinite numeric) then
    let newResolved := resolveChangeValue (Some c) New in
    let oldResolved := resolveChangeValue (Some c) Old in
    if finiteNumeric newResolved && finiteNumeric oldResolved
    then (numericOrZero newResolved - numericOrZero oldResolved)%float
    else NaN
  else numeric.

Definition formatDelta (ch : option change) : option deltaInfo :=
  match ch with
  | None => None
  | Some c =>
      let type := typeOf c in
      if negb (String.eqb type "price") then None
      else
        let numeric := deltaNumber c in
        if negb (isFinite numeric) || (abs numeric <? epsilon)%float
        then None
        else
          let direction := if (0 <? numeric)%float then "up" else "down" in
          let amount := formatCurrency (abs numeric) in
          let text := (if (0 <? numeric)%float then "+" else "-") ++ amount in
          let title :=
            "Price "
            ++ (if (0 <? numeric)%float then "increased" else "decreased")
            ++ " by " ++ amount in
          Some {| delta_text := text;
                  delta_direction := direction;
                  delta_title := title |}
  end.

(** [change && change.change_type
      ? change.change_type.toString().toLowerCase() : ''] *)
Definition baselineType (c : change) : string :=
  if truthy (change_type c) then toLowerCase (toString (change_type c))
  else "".

Definition getBaselineLabel (c : change) : string :=
  let type := baselineType c in
  if String.eqb type "price" then "New Price"
  else if String.eqb type "stock" then "New Stock"
  else if String.eqb type "description" then "New Description"
  else if String.eqb type "new" then "New Product"
  else "New Data".

Definition getBaselineDescription (c : change) : string :=
  let type := baselineType c in
  if String.eqb type "price"
  then "First price snapshot captured for this product."
  else if String.eqb type "stock"
  then "Initial stock status captured for this product."
  else if String.eqb type "description"
  then "Initial description captured for this product."
  else if String.eqb type "new"
  then "Product discovered during the most recent run."
  else "Initial data captured for this product.".

Definition containsAny (value : string) (tokens : list string) : bool :=
  existsb (includes value) tokens.

(** [value || '—'] on a string. *)
Definition orDash (value : string) : string :=
  if String.eqb value "" then "—" else value.

Definition deltaClass (asText : bool) (direction : string) : string :=
  if asText then ""
  else "change-card__delta change-card__delta--" ++ direction.

(** The price branch of [buildDifferenceBadge]; [difference] is [null]
    as [None]. *)
Definition priceBadge (c : change) (asText : bool) : option badge :=
  let oldResolved := resolveChangeValue (Some c) Old in
  let newResolved := resolveChangeValue (Some c) New in
  let stored := toNumber (difference c) in
  let difference :=
    if negb (isFinite stored) then
      match numeric newResolved, numeric oldResolved with
      | Some n, Some o => Some (n - o)%float
      | _, _ => None
      end
    else Some stored in
  match difference with
  | None => None
  | Some d =>
      if negb (isFinite d) || (d =? 0)%float then None
      else
        let direction := if (0 <? d)%float then "up" else "down" in
        let absoluteDiff := formatCurrency (abs d) in
        let prefix := if (0 <? d)%float then "+" else "-" in
        Some {| className := deltaClass asText direction;
                textContent := prefix ++ absoluteDiff;
                badge_title :=
                  "Price "
                  ++ (if (0 <? d)%float then "increased" else "decreased")
                  ++ " by " ++ absoluteDiff;
                dataset_baseline := None;
                dataset_direction := Some direction |}
  end.

(** The stock branch of [buildDifferenceBadge]. *)
Definition stockBadge (c : change) (asText : bool) : option badge :=
  let rawOld :=
    toString (coalesce (coalesce (old_value_raw c) (old_value c)) (JStr "")) in
  let rawNew :=
    toString (coalesce (coalesce (new_value_raw c) (new_value c)) (JStr "")) in
  if String.eqb rawOld "" && String.eqb rawNew "" then None
  else
    let oldLower := toLowerCase rawOld in
    let newLower := toLowerCase rawNew in
    let '(label, direction) :=
      if containsAny newLower ["in stock"; "instock"; "available"; "ready"]
      then ("Restocked", "up")
      else if containsAny newLower
                ["out of stock"; "sold out"; "unavailable"; "oos"]
      then ("Out of Stock", "down")
      else if containsAny newLower ["backorder"; "pre-order"; "preorder"]
      then ("Backorder", "flat")
      else if String.eqb newLower "" && negb (String.eqb oldLower "")
      then ("Stock Removed", "down")
      else if negb (String.eqb newLower "") && String.eqb oldLower ""
      then ("Stock Added", "up")
      else ("Stock Updated", "flat") in
    Some {| className := deltaClass asText direction;
            textContent := label;
            badge_title :=
              "Stock changed from " ++ dquote ++ orDash rawOld ++ dquote
              ++ " to " ++ dquote ++ orDash rawNew ++ dquote;
            dataset_baseline := None;
            dataset_direction := Some direction |}.

(** [options.asText] is the second argument. *)
Definition buildDifferenceBadge (ch : option change) (asText : bool)
    : option badge :=
  match ch with
  | None => None
  | Some c =>
      if negb (truthy (change_type c)) then None
      else if truthy (is_baseline c) then
        Some {| className := deltaClass asText "new";
                textContent := getBaselineLabel c;
                badge_title := getBaselineDescription c;
                dataset_baseline := Some "true";
                dataset_direction := None |}
      else
        let type := toLowerCase (toString (change_type c)) in
        if String.eqb type "price" then priceBadge c asText
        else if String.eqb type "stock" then stockBadge c asText
        else if String.eqb type "description" then
          Some {| className := deltaClass asText "flat";
                  textContent := "Description Updated";
                  badge_title := "Product description content changed";
                  dataset_baseline := None;
                  dataset_direction := None |}
        else None
  end.

Definition describeDifference (ch : option change) : option string :=
  match ch with
  | None => None
  | Some c =>
      if truthy (is_baseline c) then Some "First snapshot"
      else match buildDifferenceBadge ch true with
           | None => None
           | Some b =>
               if String.eqb (textContent b) "" then None
               else Some (textContent b)
           end
  end.

Definition isSlash (c : ascii) : bool := Ascii.eqb c "/".

(** [url.trim().replace(/\/+$/, '').toLowerCase()] *)
Definition normalizeCategoryUrl (url : jsval) : string :=
  match url with
  | JStr s =>
      if String.eqb s "" then ""
      else toLowerCase (dropWhileEnd isSlash (trim s))
  | _ => ""
  end.

(** [(a.title || '').toString()] *)
Definition titleOf (c : change) : string :=
  toString (orElse (title c) (JStr "")).

(** [(a.title || '').toString().toLowerCase()] *)
Definition titleKey (c : change) : string := toLowerCase (titleOf c).

(** The comparator [sortChanges] hands to [sort]. *)
Definition titleCompare (a b : change) : Z :=
  let titleA := titleKey a in
  let titleB := titleKey b in
  if negb (String.eqb titleA "") && negb (String.eqb titleB "")
  then localeCompare titleA titleB
  else if negb (String.eqb titleA "") then (-1)%Z
  else if negb (String.eqb titleB "") then 1%Z
  else 0%Z.

(** [items] is [None] for an argument that is not an array;
    [sortMode] is [this.filters.sortMode]. *)
Definition sortChanges (sortMode : string) (items : option (list change))
    : list change :=
  match items with
  | None => []
  | Some [] => []
  | Some l =>
      if String.eqb sortMode "title" then arraySort titleCompare l
      else l
  end.

(** [/[^a-z0-9]+/g]: the characters the replacement keeps. *)
Definition alnum (c : ascii) : bool := isLower c || isDigit c.

Definition normalizeStockState (value : jsval) : string :=
  if nullish value then ""
  else
    let cleaned := toLowerCase (trim (toString value)) in
    if String.eqb cleaned "" then ""
    else
      let compact := replaceRuns alnum " " false cleaned in
      if containsAny compact
           ["in stock"; "instock"; "available"; "ready"; "available now"]
      then "in_stock"
      else if containsAny compact
                ["out of stock"; "sold out"; "oos"; "unavailable"; "no stock"]
      then "out_of_stock"
      else if containsAny compact
                ["backorder"; "back order"; "preorder"; "pre order";
                 "back-ordered"]
      then "backorder"
      else compact.

(** [change.old_value_raw ?? change.old_value ?? ''], and the same of the
    new value. *)
Definition sourceOf (c : change) (sd : side) : jsval :=
  coalesce (coalesce (rawFieldOf c sd) (structuredFieldOf c sd)) (JStr "").

(** The label of a stock change. *)
Definition stockLabel (c : change) : string :=
  let oldState := normalizeStockState (sourceOf c Old) in
  let newState := normalizeStockState (sourceOf c New) in
  if String.eqb newState "in_stock" && negb (String.eqb oldState "in_stock")
  then "Back in stock"
  else if String.eqb newState "out_of_stock"
          && negb (String.eqb oldState "out_of_stock")
  then "Out of stock"
  else if String.eqb newState "backorder"
          && negb (String.eqb oldState "backorder")
  then "Backorder status updated"
  else "Stock status changed".

(** The label of a price change. *)
Definition priceLabel (c : change) : string :=
  match formatDelta (Some c) with
  | Some deltaInfo =>
      if String.eqb (delta_direction deltaInfo) "up" then "Price increased"
      else if String.eqb (delta_direction deltaInfo) "down"
      then "Price decreased"
      else "Price changed"
  | None => "Price changed"
  end.

(** [getChangeLabel]; [change.change_label], a field the record above
    leaves out, is the first argument. *)
Definition getChangeLabel (change_label : jsval) (ch : option change)
    : jsval :=
  match ch with
  | None => JStr "Update"
  | Some c =>
      if truthy change_label then change_label
      else
        let type := typeOf c in
        if existsb (String.eqb type) ["new"; "product_new"; "new_product"]
        then JStr "New product added"
        else if String.eqb type "price" then JStr (priceLabel c)
        else if String.eqb type "stock" then JStr (stockLabel c)
        else if String.eqb type "description" then JStr "Description updated"
        else JStr "Value updated"
  end.

(** [raw ? raw.toString().trim().length : 0]; the callers read whether it
    is zero. *)
Definition rawLength (raw : jsval) : nat :=
  if truthy raw then String.length (trim (toString raw)) else 0%nat.

(** The [difference] of [describeChange] when it reaches the test of its
    price branch. *)
Definition describedDifference (c : change) : float :=
  let oldNumeric := numeric (resolveChangeValue (Some c) Old) in
  let newNumeric := numeric (resolveChangeValue (Some c) New) in
  let difference := toNumber (difference c) in
  if negb (isFinite difference) then
    match newNumeric, oldNumeric with
    | Some n, Some o => (n - o)%float
    | _, _ => difference
    end
  else difference.

Definition describeChange (ch : option change) : string :=
  match ch with
  | None => "Product updated"
  | Some c =>
      let type := typeOf c in
      if truthy (is_baseline c) then
        if String.eqb type "price" then "First price captured"
        else if String.eqb type "stock"
        then "Initial stock snapshot recorded"
        else if String.eqb type "description"
        then "Initial description captured"
        else "Initial data captured"
      else
        let oldResolved := resolveChangeValue ch Old in
        let newResolved := resolveChangeValue ch New in
        let oldText := if isMissing oldResolved then "" else text oldResolved in
        let newText := if isMissing newResolved then "" else text newResolved in
        let hasOld := negb (String.eqb oldText "") in
        let hasNew := negb (String.eqb newText "") in
        let oldRawLength := rawLength (sourceOf c Old) in
        let newRawLength := rawLength (sourceOf c New) in
        if String.eqb type "price" then
          let difference := describedDifference c in
          if isFinite difference && negb (difference =? 0)%float then
            "Price " ++ (if (0 <? difference)%float then "increased"
                         else "decreased")
          else if negb hasOld && hasNew then "Price added"
          else if hasOld && negb hasNew then "Price removed"
          else if hasOld && hasNew then "Price updated"
          else "Price change recorded"
        else if String.eqb type "stock" then
          if hasOld && hasNew then "Stock status changed"
          else if negb hasOld && hasNew then "Stock status captured"
          else if hasOld && negb hasNew then "Stock status cleared"
          else "Stock update logged"
        else if String.eqb type "description" then
          if negb (Nat.eqb oldRawLength 0) && negb (Nat.eqb newRawLength 0)
          then "Description edited"
          else if Nat.eqb oldRawLength 0 && negb (Nat.eqb newRawLength 0)
          then "Description added"
          else if negb (Nat.eqb oldRawLength 0) && Nat.eqb newRawLength 0
          then "Description removed"
          else "Description updated"
        else if negb hasOld && hasNew then "Value added"
        else if hasOld && negb hasNew then "Value cleared"
        else if hasOld && hasNew then "Value changed"
        else "Record updated"
  end.

Definition isUnderscore (c : ascii) : bool := Ascii.eqb c "_".

Definition formatSku (sku : jsval) : string :=
  let cleaned := trim (toString (orElse sku (JStr ""))) in
  if String.eqb cleaned "" then "NO SKU"
  else
    toUpperCase
      (replaceRuns (fun c => negb (isUnderscore c)) "-" false
         (replaceRuns (fun c => negb (isSpace c)) " " false cleaned)).

Definition isDash (c : ascii) : bool := Ascii.eqb c "-".

(** [/^-+|-+$/g] takes the dashes that open the text and the ones that
    close it. *)
Definition getChangeTypeClass (type : jsval) : string :=
  let safeValue := toLowerCase (toString (orElse type (JStr "update"))) in
  let sanitized :=
    dropWhileEnd isDash
      (dropWhile isDash (replaceRuns alnum "-" false safeValue)) in
  if String.eqb sanitized "" then "update" else sanitized.

(** [\w] *)
Definition isWordChar (c : ascii) : bool :=
  isLower c || isUpper c || isDigit c || isUnderscore c.

(** [text.replace(/\b\w/g, (char) => char.toUpperCase())]: the first
    character of every run of word characters, in upper case. *)
Fixpoint capitalizeFrom (afterWord : bool) (text : string) : string :=
  match text with
  | EmptyString => EmptyString
  | String c t =>
      String (if isWordChar c && negb afterWord then upperChar c else c)
             (capitalizeFrom (isWordChar c) t)
  end.

Definition capitalizeWords (text : string) : string :=
  capitalizeFrom false text.

(** What [formatChangeType] returns: a text, or the value the table
    [lookup], a plain object, inherits under the key. *)
Inductive typeText : Type :=
  | TypeText (s : string)
  | TypeInherited (key : string).

Definition lookup : list (string * string) :=
  [ ("price", "Price"); ("stock", "Stock"); ("description", "Description");
    ("new", "New"); ("new_product", "New"); ("product_new", "New") ].

(** The keys a plain object inherits. *)
Definition inheritedKeys : list string :=
  [ "constructor"; "__proto__"; "__defineGetter__"; "__defineSetter__";
    "__lookupGetter__"; "__lookupSetter__"; "hasOwnProperty";
    "isPrototypeOf"; "propertyIsEnumerable"; "toLocaleString"; "toString";
    "valueOf" ].

Definition formatChangeType (type : jsval) : typeText :=
  if negb (truthy type) then TypeText "Update"
  else
    let normalized := toLowerCase (trim (toString type)) in
    match find (fun kv => String.eqb (fst kv) normalized) lookup with
    | Some kv => TypeText (snd kv)
    | None =>
        if existsb (String.eqb normalized) inheritedKeys
        then TypeInherited normalized
        else
          let friendly :=
            replaceRuns (fun c => negb (isUnderscore c || isDash c)) " "
              false normalized in
          TypeText (capitalizeWords friendly)
    end.

Definition formatResolvedValue (r : resolved) : string :=
  if isMissing r then "—" else text r.

(** [value] when it is not empty. *)
Definition whenSet (value : string) : option string :=
  if String.eqb value "" then None else Some value.

(** What shows of a delta: the text, the direction in the class name
    [...--direction], the [title]. *)
Record deltaMark : Type := mkDeltaMark {
  mark_text : string;
  mark_direction : option string;
  mark_title : option string
}.

Definition markOf (deltaInfo : deltaInfo) : deltaMark :=
  {| mark_text := delta_text deltaInfo;
     mark_direction := whenSet (delta_direction deltaInfo);
     mark_title := whenSet (delta_title deltaInfo) |}.

(** The cell of [buildDeltaCell]. *)
Definition buildDeltaCell (ch : option change) : deltaMark :=
  match formatDelta ch with
  | Some deltaInfo => markOf deltaInfo
  | None =>
      {| mark_text := "—"; mark_direction := None; mark_title := None |}
  end.

(** The cell of [buildValueCell]: its text, its [title], whether it has
    the class [is-missing]. *)
Record valueCell : Type := mkValueCell {
  value_text : string;
  value_title : option string;
  value_missing : bool
}.

Definition buildValueCell (c : change) (sd : side) : valueCell :=
  let resolved := resolveChangeValue (Some c) sd in
  {| value_text := formatResolvedValue resolved;
     value_title :=
       if negb (isMissing resolved) then whenSet (text resolved) else None;
     value_missing := isMissing resolved |}.

(** The cell of [buildStockCell]; [fallbackStock] is
    [change.stock_status || (change.metadata && (...))], fields the
    record above leaves out. *)
Definition buildStockCell (fallbackStock : jsval) (c : change) : valueCell :=
  if String.eqb (typeOf c) "stock" then
    let resolved := resolveChangeValue (Some c) New in
    {| value_text := formatResolvedValue resolved;
       value_title := whenSet (text resolved);
       value_missing := isMissing resolved |}
  else if truthy fallbackStock then
    let display := trim (toString fallbackStock) in
    {| value_text := orDash display;
       value_title := None;
       value_missing := String.eqb display "" |}
  else {| value_text := "—"; value_title := None; value_missing := true |}.

(** The cell of [buildChangeSummaryCell]: the label, and the class and
    the text of the type badge when the record has a type. *)
Record summaryCell : Type := mkSummaryCell {
  summary_label : jsval;
  summary_type : option (string * typeText)
}.

Definition buildChangeSummaryCell (change_label : jsval) (c : change)
    : summaryCell :=
  {| summary_label := getChangeLabel change_label (Some c);
     summary_type :=
       if truthy (change_type c)
       then Some (getChangeTypeClass (change_type c),
                  formatChangeType (change_type c))
       else None |}.

(** The cells of a row of [buildChangesTable] that are made of the
    fields of the record above; the product cell and the time are made
    of [product_title], [title], [product_url], [url], [sku],
    [category], the brand fields, [changed_at] and [timestamp]. *)
Record tableRow : Type := mkTableRow {
  row_summary : summaryCell;
  row_old : valueCell;
  row_new : valueCell;
  row_delta : deltaMark;
  row_stock : valueCell
}.

Definition buildChangesRow (change_label fallbackStock : jsval) (c : change)
    : tableRow :=
  {| row_summary := buildChangeSummaryCell change_label c;
     row_old := buildValueCell c Old;
     row_new := buildValueCell c New;
     row_delta := buildDeltaCell (Some c);
     row_stock := buildStockCell fallbackStock c |}.

(** The card of [buildChangeCard], less the product block, the time and
    the footer, which are made of the fields listed above: the type in
    the class names, the text of the type badge, the delta badge of the
    header, the label, the old and the new value, the delta among the
    values. *)
Record card : Type := mkCard {
  card_type : string;
  card_badge : typeText;
  card_delta : option deltaMark;
  card_label : jsval;
  card_old : string;
  card_new : string;
  card_delta_item : option string
}.

Definition buildChangeCard (change_label : jsval) (c : change) : card :=
  let typeClass := getChangeTypeClass (change_type c) in
  let deltaInfo := formatDelta (Some c) in
  let oldResolved := resolveChangeValue (Some c) Old in
  let newResolved := resolveChangeValue (Some c) New in
  {| card_type := typeClass;
     card_badge := formatChangeType (change_type c);
     card_delta := option_map markOf deltaInfo;
     card_label := getChangeLabel change_label (Some c);
     card_old := "Old: " ++ formatResolvedValue oldResolved;
     card_new := "New: " ++ formatResolvedValue newResolved;
     card_delta_item := option_map delta_text deltaInfo |}.

End WithHost.

(** [Array.isArray(changes) && changes.length > 0
      && changes.every((change) => change.is_baseline)], which shows the
    banner of a first run. *)
Definition isBaselineOnly (changes : option (list change)) : bool :=
  match changes with
  | Some (c :: rest) =>
      forallb (fun change => truthy (is_baseline change)) (c :: rest)
  | _ => false
  end.

(** The record [c] with [is_baseline] set to [flag]. *)
Definition withBaseline (flag : jsval) (c : change) : change :=
  {| change_type := change_type c;
     difference := difference c;
     old_value := old_value c;
     new_value := new_value c;
     old_value_raw := old_value_raw c;
     new_value_raw := new_value_raw c;
     is_baseline := flag;
     title := title c |}.

(** The first price seen of a product, as a record of the payload: no
    old value, and the stored difference [d]. *)
Definition firstPrice (d : jsval) : change :=
  {| change_type := JStr "price";
     difference := d;
     old_value := JNull;
     new_value := JStr "19.50";
     old_value_raw := JNull;
     new_value_raw := JStr "$19.50";
     is_baseline := JBool true;
     title := JStr "Charging Port" |}.

(** A price change of the payload, 100.00 to 85.50, with the stored
    difference [d]. *)
Definition priceDrop (d : jsval) : change :=
  {| change_type := JStr "price";
     difference := d;
     old_value := JStr "100.00";
     new_value := JStr "85.50";
     old_value_raw := JStr "$100.00";
     new_value_raw := JStr "$85.50";
     is_baseline := JBool false;
     title := JStr "OLED Assembly" |}.

(** A change with the title [t]. *)
Definition titled (t : jsval) : change :=
  {| change_type := JStr "stock";
     difference := JNull;
     old_value := JStr "In Stock";
     new_value := JStr "Sold Out";
     old_value_raw := JNull;
     new_value_raw := JNull;
     is_baseline := JBool false;
     title := t |}.

End Results.
(* ================================================================= *)
(** ** The history page: sessions, their search index and the filters *)

Module History.
Import JS.

(** An element of [entry.items] that is an object. *)
Record rawItem : Type := mkRawItem {
  item_title : jsval;
  item_site : jsval
}.

Record rawRules : Type := mkRawRules {
  percent_off : jsval;
  absolute_off : jsval
}.

(** A session as the history endpoint returns it.  [urls] and [items]
    are [None] when the field is not an array, an element of [items] is
    [None] when it is not an object, [rules] is [None] when the field is
    absent. *)
Record rawEntry : Type := mkRawEntry {
  id : jsval;
  urls : option (list jsval);
  items : option (list (option rawItem));
  timestamp : jsval;
  rules : option rawRules;
  items_count : jsval
}.

(** The result of [normalizeHistoryEntry]: the fields of the session
    ([source]) and the ones laid over them. *)
Record entry : Type := mkEntry {
  source : rawEntry;
  entry_urls : list jsval;
  entry_items : list (option rawItem);
  entry_items_count : float;
  entry_rules : float * float;
  host_list : list jsval;
  timestamp_obj : option Z;
  timestamp_ms : Z;
  search_index : string
}.

(** [filterState]; a date is the time value of its [Date] object. *)
Record filterState : Type := mkFilterState {
  search : string;
  startDate : option Z;
  endDate : option Z;
  minItems : float;
  site : string
}.

Definition defaultFilterState : filterState :=
  {| search := ""; startDate := None; endDate := None;
     minItems := 0%float; site := "" |}.

Section WithHost.
(** The digits [Number.prototype.toString] prints. *)
Variable numberToString : float -> string.
(** [new URL(text).hostname]; [None] when the constructor throws. *)
Variable hostnameOf : string -> option string.
(** [new Date(v).getTime()]; [None] when it is [NaN]. *)
Variable dateTime : jsval -> option Z.
(** [String.prototype.trim] and [String.prototype.toLowerCase]. *)
Variable trim : string -> string.
Variable toLowerCase : string -> string.

Definition toString : jsval -> string := toStringWith numberToString.

(** [Number(value)] *)
Abbreviation toNumber := (JS.toNumber trim).

(** [host.replace(/^www\./, '')] *)
Definition stripWww (hostname : string) : string :=
  if startsWith hostname "www." then sdrop 4 hostname else hostname.

(** The body of [urls.forEach], with its [try] and [catch]. *)
Definition addHost (hostSet : list jsval) (url : jsval) : list jsval :=
  match hostnameOf (toString url) with
  | Some hostname =>
      let host := stripWww hostname in
      if negb (String.eqb host "") then setAdd hostSet (JStr host)
      else hostSet
  | None => if truthy url then setAdd hostSet url else hostSet
  end.

(** [Number(v) || 0] *)
Definition numberOrZero (v : jsval) : float :=
  let x := toNumber v in
  if truthy (JNum x) then x else 0%float.

(** An element of an array as [join] prints it. *)
Definition joinText (v : jsval) : string :=
  if nullish v then "" else toString v.

(** The body of [items.slice(0, 25).forEach]: what it pushes. *)
Definition pushItem (searchParts : list jsval) (it : option rawItem)
    : list jsval :=
  match it with
  | None => searchParts
  | Some item =>
      let withTitle :=
        if truthy (item_title item)
        then (searchParts ++ [item_title item])%list else searchParts in
      if truthy (item_site item)
      then (withTitle ++ [item_site item])%list else withTitle
  end.

(** The time of the session: the zone of Pakistan is put after a text
    that names none. *)
Definition parseTimestamp (ts : jsval) : option Z :=
  if truthy ts then
    match ts with
    | JStr t =>
        if negb (includes t "+") && negb (includes t "Z")
        then dateTime (JStr (t ++ "+05:00"))
        else dateTime ts
    | _ => dateTime ts
    end
  else None.

(** The constants of [normalizeHistoryEntry], one after the other. *)
Definition urlsOf (safeEntry : rawEntry) : list jsval :=
  match urls safeEntry with
  | Some l => filter truthy l
  | None => []
  end.

Definition itemsOf (safeEntry : rawEntry) : list (option rawItem) :=
  match items safeEntry with
  | Some l => l
  | None => []
  end.

Definition hostListOf (safeEntry : rawEntry) : list jsval :=
  fold_left addHost (urlsOf safeEntry) [].

Definition rulesOf (safeEntry : rawEntry) : float * float :=
  match rules safeEntry with
  | Some r => (numberOrZero (percent_off r), numberOrZero (absolute_off r))
  | None => (numberOrZero JUndefined, numberOrZero JUndefined)
  end.

Definition itemsCountOf (safeEntry : rawEntry) : float :=
  if isFinite (toNumber (items_count safeEntry))
  then toNumber (items_count safeEntry)
  else ofNat (List.length (itemsOf safeEntry)).

(** [searchParts.map(part => String(part).toLowerCase()).join(' | ')] *)
Definition indexText (searchParts : list jsval) : string :=
  join " | " (map (fun part => toLowerCase (toString part)) searchParts).

Definition normalizeHistoryEntry (safeEntry : rawEntry) : entry :=
  let urls := urlsOf safeEntry in
  let items := itemsOf safeEntry in
  let timestampObj := parseTimestamp (timestamp safeEntry) in
  let hostList := hostListOf safeEntry in
  let rules := rulesOf safeEntry in
  let itemsCount := itemsCountOf safeEntry in
  let searchParts :=
    [ orElse (id safeEntry) (JStr "");
      JNum itemsCount;
      JStr (join " " (map joinText urls));
      JStr (join " " (map joinText hostList));
      JNum (fst rules);
      JNum (snd rules) ] in
  let searchParts := fold_left pushItem (firstn 25 items) searchParts in
  let searchIndex := indexText searchParts in
  {| source := safeEntry;
     entry_urls := urls;
     entry_items := items;
     entry_items_count := itemsCount;
     entry_rules := rules;
     host_list := hostList;
     timestamp_obj := timestampObj;
     timestamp_ms := match timestampObj with Some t => t | None => 0%Z end;
     search_index := searchIndex |}.

(** What the specification says the index is built from: the id, the
    items count, the target addresses, the host names and the two
    discount rules of the session. *)
Definition headerParts (safeEntry : rawEntry) : list jsval :=
  [ orElse (id safeEntry) (JStr "");
    JNum (itemsCountOf safeEntry);
    JStr (join " " (map joinText (urlsOf safeEntry)));
    JStr (join " " (map joinText (hostListOf safeEntry)));
    JNum (fst (rulesOf safeEntry));
    JNum (snd (rulesOf safeEntry)) ].

(** And the title and the site of an item, where it has them. *)
Definition itemTexts (it : option rawItem) : list jsval :=
  match it with
  | None => []
  | Some item =>
      ((if truthy (item_title item) then [item_title item] else []) ++
       (if truthy (item_site item) then [item_site item] else []))%list
  end.

(** The callback of [historyData.filter] in [applyFilters], one early
    return after the other. *)
Definition keepEntry (st : filterState) (e : entry) : bool :=
  let effectiveSearch := trim (search st) in
  if negb (String.eqb effectiveSearch "")
     && negb (includes (search_index e) effectiveSearch)
  then false
  else if match startDate st with
          | Some startTime =>
              match timestamp_obj e with
              | None => true
              | Some entryTime => (entryTime <? startTime)%Z
              end
          | None => false
          end
  then false
  else if match endDate st with
          | Some endTime =>
              match timestamp_obj e with
              | None => true
              | Some entryTime => (endTime <? entryTime)%Z
              end
          | None => false
          end
  then false
  else if truthy (JNum (minItems st))
          && ((if truthy (JNum (entry_items_count e))
               then entry_items_count e else 0%float) <? minItems st)%float
  then false
  else if negb (String.eqb (site st) "")
          && negb (existsb (sameValueZero (JStr (site st))) (host_list e))
  then false
  else true.

(** [filteredHistory] after [applyFilters]. *)
Definition applyFilters (st : filterState) (historyData : list entry)
    : list entry :=
  filter (keepEntry st) historyData.

End WithHost.

Section Filters.
Variable trim : string -> string.

(** The filters as the specification words them, each on its own: a
    filter that is not set holds of every entry. *)
Definition searchHolds (st : filterState) (e : entry) : bool :=
  String.eqb (trim (search st)) ""
  || includes (search_index e) (trim (search st)).

Definition startHolds (st : filterState) (e : entry) : bool :=
  match startDate st with
  | None => true
  | Some startTime =>
      match timestamp_obj e with
      | Some entryTime => (startTime <=? entryTime)%Z
      | None => false
      end
  end.

Definition endHolds (st : filterState) (e : entry) : bool :=
  match endDate st with
  | None => true
  | Some endTime =>
      match timestamp_obj e with
      | Some entryTime => (entryTime <=? endTime)%Z
      | None => false
      end
  end.

(** The items count of an entry, zero when it has none. *)
Definition countOf (e : entry) : float :=
  if truthy (JNum (entry_items_count e)) then entry_items_count e
  else 0%float.

Definition minItemsHolds (st : filterState) (e : entry) : bool :=
  negb (truthy (JNum (minItems st)))
  || (minItems st <=? countOf e)%float.

Definition siteHolds (st : filterState) (e : entry) : bool :=
  String.eqb (site st) ""
  || existsb (sameValueZero (JStr (site st))) (host_list e).

Definition allFiltersHold (st : filterState) (e : entry) : bool :=
  searchHolds st e && startHolds st e && endHolds st e
  && minItemsHolds st e && siteHolds st e.

Definition noFilterSet (st : filterState) : Prop :=
  trim (search st) = "" /\ startDate st = None /\ endDate st = None
  /\ truthy (JNum (minItems st)) = false /\ site st = "".

End Filters.

(** The comparator of [renderHistory],
    [(b.timestamp_ms || 0) - (a.timestamp_ms || 0)], as the sign of the
    number: the two are time values or zero, and the sign of their
    rounded difference is that of the exact one. *)
Definition newestFirst (a b : entry) : Z :=
  (timestamp_ms b - timestamp_ms a)%Z.

(** The sessions [renderHistory] makes cards of, in the order of the
    cards; [given] is the argument, [None] when it is not an array. *)
Definition renderHistory (given : option (list entry))
    (historyData : list entry) : list entry :=
  let entries := match given with Some l => l | None => historyData end in
  arraySort newestFirst entries.

(** The sessions of [l] with the time [ms]. *)
Definition atTime (ms : Z) (l : list entry) : list entry :=
  filter (fun e => Z.eqb (timestamp_ms e) ms) l.

(** A session of the payload: twenty-five batteries and one more item. *)
Definition longSession (last : rawItem) : rawEntry :=
  {| id := JStr "run-2024-07";
     urls := Some [JStr "https://www.mobilesentrix.com/replacement-parts"];
     items :=
       Some (repeat (Some {| item_title := JStr "Battery";
                             item_site := JStr "mobilesentrix" |}) 25
             ++ [Some last])%list;
     timestamp := JNum 1720000000000;
     rules := Some {| percent_off := JNum 5; absolute_off := JNull |};
     items_count := JNull |}.

End History.
(* ================================================================= *)
(** ** A host

    The built-ins the sections above leave open, for the places where
    the functions are run on a concrete payload: the digits of a number
    as the language fixes them, and an en-US rendering, an ASCII
    collation, a reader of [scheme://host/...] addresses and a clock of
    epoch milliseconds for what the language leaves to the engine. *)

Module Host.
Import JS.

Definition digitsOf (z : Z) : string :=
  NilZero.string_of_uint (N.to_uint (Z.to_N z)).

Fixpoint zeros (n : nat) : string :=
  match n with
  | O => ""
  | S n' => String "0" (zeros n')
  end.

(** A positive rational as numerator and denominator. *)
Definition ratLt (a b : Z * Z) : bool := (fst a * snd b <? fst b * snd a)%Z.

Definition pow10 (n : Z) : Z * Z :=
  if (0 <=? n)%Z then ((10 ^ n)%Z, 1%Z) else (1%Z, (10 ^ (- n))%Z).

(** The least [n] from [lo] on with [v < 10 ^ n]. *)
Fixpoint decimalExponent (fuel : nat) (v : Z * Z) (lo : Z) : Z :=
  match fuel with
  | O => lo
  | S fuel' =>
      if ratLt v (pow10 lo) then lo else decimalExponent fuel' v (lo + 1)%Z
  end.

(** The integer part and the doubled remainder, against the divisor, of
    [v / 10 ^ p]. *)
Definition scaled (v : Z * Z) (p : Z) : Z * Z * Z :=
  let '(num, den) :=
    if (0 <=? p)%Z then (fst v, (snd v * 10 ^ p)%Z)
    else ((fst v * 10 ^ (- p))%Z, snd v) in
  ((num / den)%Z, (2 * (num mod den))%Z, den).

(** The [k]-digit integer [s] with [s * 10 ^ (n - k)] reading back as
    [x], the one nearest to [x] when two do. *)
Definition candidate (x : float) (v : Z * Z) (n k : Z) : option Z :=
  let p := (n - k)%Z in
  let '(lo, rem2, den) := scaled v p in
  let hi := (lo + 1)%Z in
  let okLo := (ofDecimal false lo p =? x)%float in
  let okHi := (ofDecimal false hi p =? x)%float in
  if okLo && okHi then
    Some (if (rem2 <? den)%Z then lo
          else if (den <? rem2)%Z then hi
          else if Z.even lo then lo else hi)
  else if okLo then Some lo
  else if okHi then Some hi
  else None.

Fixpoint shortest (x : float) (v : Z * Z) (n : Z) (ks : list Z)
    : Z * Z :=
  match ks with
  | [] => (0%Z, n)
  | k :: ks' =>
      match candidate x v n k with
      | Some s => if (s =? 10 ^ k)%Z then (1%Z, (n + 1)%Z) else (s, n)
      | None => shortest x v n ks'
      end
  end.

(** The text of the digits [ds] of a number whose decimal point stands
    after [n] of them. *)
Definition layout (ds : string) (n : Z) : string :=
  let k := Z.of_nat (String.length ds) in
  if (k <=? n)%Z && (n <=? 21)%Z then ds ++ zeros (Z.to_nat (n - k))
  else if (0 <? n)%Z && (n <=? 21)%Z
  then stake (Z.to_nat n) ds ++ "." ++ sdrop (Z.to_nat n) ds
  else if (-6 <? n)%Z && (n <=? 0)%Z
  then "0." ++ zeros (Z.to_nat (- n)) ++ ds
  else
    let e := (n - 1)%Z in
    let expo := (if (e <? 0)%Z then "-" else "+") ++ digitsOf (Z.abs e) in
    if (k =? 1)%Z then ds ++ "e" ++ expo
    else stake 1 ds ++ "." ++ sdrop 1 ds ++ "e" ++ expo.

(** [Number.prototype.toString]. *)
Definition numberToString (x : float) : string :=
  match Prim2SF x with
  | S754_nan => "NaN"
  | S754_zero _ => "0"
  | S754_infinity s => if s then "-Infinity" else "Infinity"
  | S754_finite s m e =>
      let v :=
        if (0 <=? e)%Z then ((Zpos m * 2 ^ e)%Z, 1%Z)
        else (Zpos m, (2 ^ (- e))%Z) in
      let bits := (Zpos (digits2_pos m) + e)%Z in
      let n := decimalExponent 6 v (((bits - 1) * 30103) / 100000 - 1)%Z in
      let '(digits, n') :=
        shortest (abs x) v n
          [1; 2; 3; 4; 5; 6; 7; 8; 9; 10; 11; 12; 13; 14; 15; 16; 17]%Z in
      (if s then "-" else "") ++ layout (digitsOf digits) n'
  end.

(** Groups of three digits, from the right. *)
Fixpoint grouped (fuel : nat) (z : Z) : string :=
  match fuel with
  | O => digitsOf z
  | S fuel' =>
      if (z <? 1000)%Z then digitsOf z
      else
        let low := digitsOf (z mod 1000) in
        grouped fuel' (z / 1000) ++ ","
        ++ zeros (3 - String.length low) ++ low
  end.

(** US dollars in the fashion of en-US: the sign, [$], the whole part
    in groups of three, two decimals. *)
Definition currencyFormat (x : float) : string :=
  match Prim2SF x with
  | S754_finite s m e =>
      let n :=
        if (0 <=? e)%Z then (100 * Zpos m * 2 ^ e)%Z
        else ((200 * Zpos m + 2 ^ (- e)) / (2 * 2 ^ (- e)))%Z in
      let cents := digitsOf (n mod 100) in
      (if s then "-$" else "$") ++ grouped 120 (n / 100) ++ "."
      ++ zeros (2 - String.length cents) ++ cents
  | S754_zero s => if s then "-$0.00" else "$0.00"
  | _ => "NaN"
  end.

(** A collation: the code units of the two texts in lower case, the first
    difference deciding. *)
Fixpoint localeCompare (a b : string) : Z :=
  match a, b with
  | EmptyString, EmptyString => 0%Z
  | EmptyString, String _ _ => (-1)%Z
  | String _ _, EmptyString => 1%Z
  | String x a', String y b' =>
      let cx := code (lowerChar x) in
      let cy := code (lowerChar y) in
      if N.ltb cx cy then (-1)%Z
      else if N.ltb cy cx then 1%Z
      else localeCompare a' b'
  end.

Definition isHostEnd (c : ascii) : bool :=
  Ascii.eqb c "/" || Ascii.eqb c "?" || Ascii.eqb c "#" || Ascii.eqb c ":".

(** The host of an [http] or [https] address, in lower case; anything
    else is no address. *)
Definition hostnameOf (address : string) : option string :=
  let t := trim address in
  let rest :=
    if startsWith (toLowerCase t) "https://" then Some (sdrop 8 t)
    else if startsWith (toLowerCase t) "http://" then Some (sdrop 7 t)
    else None in
  match rest with
  | Some r =>
      let host := toLowerCase (fst (span (fun c => negb (isHostEnd c)) r)) in
      if String.eqb host "" then None else Some host
  | None => None
  end.

(** The time value of a number of milliseconds: its whole part, within
    the range of a [Date]. *)
Definition dateTime (v : jsval) : option Z :=
  match v with
  | JNum x =>
      match Prim2SF x with
      | S754_zero _ => Some 0%Z
      | S754_finite s m e =>
          let whole :=
            if (0 <=? e)%Z then (Zpos m * 2 ^ e)%Z
            else (Zpos m / 2 ^ (- e))%Z in
          if (whole <=? 8640000000000000)%Z
          then Some (if s then - whole else whole)%Z
          else None
      | _ => None
      end
  | _ => None
  end.

End Host.
(* ================================================================= *)
(** ** Facts about strings and numbers *)

Module JSFacts.
Import JS.

Lemma smap_empty (f : ascii -> ascii) (s : string) :
  smap f s = "" <-> s = "".
Proof.
  destruct s; simpl; split; intro H; try reflexivity; discriminate H.
Qed.

Lemma toLowerCase_nonempty (s : string) : toLowerCase s = "" -> s = "".
Proof. apply smap_empty. Qed.

Lemma replaceRuns_fresh_nonempty (keep : ascii -> bool) (s : string) :
  s <> "" -> replaceRuns keep "_" false s <> "".
Proof.
  destruct s as [|c t]; intro H.
  - now contradiction H.
  - simpl. destruct (keep c); discriminate.
Qed.

(** A number above zero is not zero. *)
Lemma positive_not_zero (x : float) :
  (0 <? x)%float = true -> is_zero x = false.
Proof.
  unfold is_zero.
  rewrite FloatAxioms.ltb_spec, FloatAxioms.eqb_spec.
  change (Prim2SF 0) with (S754_zero false).
  change (Prim2SF zero) with (S754_zero false).
  destruct (Prim2SF x) as [s| s | |s m e]; simpl; try discriminate;
    destruct s; simpl; intro H; try discriminate; reflexivity.
Qed.

Lemma lowerChar_idem (c : ascii) : lowerChar (lowerChar c) = lowerChar c.
Proof. destruct c as [[] [] [] [] [] [] [] []]; reflexivity. Qed.

Lemma isSpace_lowerChar (c : ascii) : isSpace (lowerChar c) = isSpace c.
Proof. destruct c as [[] [] [] [] [] [] [] []]; reflexivity. Qed.

Lemma toLowerCase_idem (s : string) :
  toLowerCase (toLowerCase s) = toLowerCase s.
Proof.
  unfold toLowerCase. induction s as [|c t IH]; simpl.
  - reflexivity.
  - now rewrite lowerChar_idem, IH.
Qed.

Lemma append_empty (s : string) : s ++ "" = s.
Proof. induction s as [|c t IH]; simpl; [reflexivity|now rewrite IH]. Qed.

Lemma smap_app (f : ascii -> ascii) (a b : string) :
  smap f (a ++ b) = smap f a ++ smap f b.
Proof. induction a as [|c t IH]; simpl; [reflexivity|now rewrite IH]. Qed.

Lemma allOf_app (p : ascii -> bool) (a b : string) :
  allOf p (a ++ b) = allOf p a && allOf p b.
Proof.
  induction a as [|c t IH]; simpl; [reflexivity|].
  now rewrite IH, andb_assoc.
Qed.

Lemma length_app (a b : string) :
  String.length (a ++ b) = (String.length a + String.length b)%nat.
Proof. induction a as [|c t IH]; simpl; [reflexivity|now rewrite IH]. Qed.

Lemma stake_app (a b : string) :
  stake (String.length (a ++ b) - String.length b) (a ++ b) = a.
Proof.
  rewrite length_app, Nat.add_sub.
  induction a as [|c t IH]; simpl; [now destruct b|now rewrite IH].
Qed.

Lemma sfilter_app (p : ascii -> bool) (a b : string) :
  sfilter p (a ++ b) = sfilter p a ++ sfilter p b.
Proof.
  induction a as [|c t IH]; simpl; [reflexivity|].
  destruct (p c); simpl; now rewrite IH.
Qed.

Lemma exec_here (ci : bool) (r : regex) (s rest : string) :
  matchHere ci r s = Some rest ->
  exec ci r s = Some (stake (String.length s - String.length rest) s).
Proof. intro H. destruct s; simpl; now rewrite H. Qed.

Lemma append_assoc (a b c : string) : (a ++ b) ++ c = a ++ b ++ c.
Proof. induction a as [|x t IH]; simpl; [reflexivity|now rewrite IH]. Qed.

(* ----------------------------------------------------------------- *)
(** *** The matcher, case by case *)

Lemma matchK_Star {R : Type} (ci : bool) (r : regex) (s : string)
    (k : string -> option R) :
  matchK ci (Star r) s k = starLoop ci r k (String.length s) s.
Proof. reflexivity. Qed.

Lemma matchK_Alt {R : Type} (ci : bool) (r1 r2 : regex) (s : string)
    (k : string -> option R) :
  matchK ci (Alt r1 r2) s k
  = match matchK ci r1 s k with
    | Some x => Some x
    | None => matchK ci r2 s k
    end.
Proof. reflexivity. Qed.

Lemma matchK_Opt {R : Type} (ci : bool) (r1 : regex) (s : string)
    (k : string -> option R) :
  matchK ci (Opt r1) s k
  = match matchK ci r1 s k with
    | Some x => Some x
    | None => k s
    end.
Proof. reflexivity. Qed.

Lemma matchK_Cat {R : Type} (ci : bool) (r1 r2 : regex) (s : string)
    (k : string -> option R) :
  matchK ci (Cat r1 r2) s k
  = matchK ci r1 s (fun rest => matchK ci r2 rest k).
Proof. reflexivity. Qed.

Lemma matchK_Cats3 {R : Type} (ci : bool) (r1 r2 r3 : regex) (s : string)
    (k : string -> option R) :
  matchK ci (Cats r1 [r2; r3]) s k
  = matchK ci r1 s
      (fun rest => matchK ci r2 rest (fun rest' => matchK ci r3 rest' k)).
Proof. reflexivity. Qed.

(* ----------------------------------------------------------------- *)
(** *** Trimming *)

Section Dropping.
Variable p : ascii -> bool.

Lemma headKept_dropWhile (s : string) : headKept p (dropWhile p s) = true.
Proof.
  induction s as [|c t IH]; simpl; [reflexivity|].
  destruct (p c) eqn:E; [exact IH|]. simpl. now rewrite E.
Qed.

Lemma dropWhile_headKept (s : string) :
  headKept p s = true -> dropWhile p s = s.
Proof.
  destruct s as [|c t]; simpl; [reflexivity|].
  now destruct (p c).
Qed.

Lemma dropWhile_app_headKept (a b : string) :
  headKept p b = true -> dropWhile p (a ++ b) = dropWhile p a ++ b.
Proof.
  intro Hb. induction a as [|c t IH]; simpl.
  - now apply dropWhile_headKept.
  - destruct (p c); [exact IH|reflexivity].
Qed.

Lemma dropWhile_suffix (s : string) : exists a, s = a ++ dropWhile p s.
Proof.
  induction s as [|c t [a Ha]]; simpl.
  - now exists "".
  - destruct (p c).
    + exists (String c a). simpl. now rewrite <- Ha.
    + now exists "".
Qed.

Lemma dropWhileEnd_idem (s : string) :
  dropWhileEnd p (dropWhileEnd p s) = dropWhileEnd p s.
Proof.
  induction s as [|c t IH]; simpl; [reflexivity|].
  destruct (dropWhileEnd p t) as [|d r] eqn:E.
  - destruct (p c) eqn:Ec; simpl; [reflexivity|now rewrite Ec].
  - simpl in *. now rewrite IH.
Qed.

Lemma dropWhileEnd_app_fixed (a b : string) :
  dropWhileEnd p b = b -> b <> "" -> dropWhileEnd p (a ++ b) = a ++ b.
Proof.
  intros Hb Hne. induction a as [|c t IH]; simpl; [exact Hb|].
  rewrite IH. destruct (t ++ b) as [|d r] eqn:E; [|reflexivity].
  destruct t; simpl in E; [now contradiction Hne|discriminate E].
Qed.

Lemma dropWhileEnd_suffix_fixed (a b : string) :
  dropWhileEnd p (a ++ b) = a ++ b -> dropWhileEnd p b = b.
Proof.
  induction a as [|c t IH]; simpl; [trivial|].
  destruct (dropWhileEnd p (t ++ b)) as [|d r] eqn:E.
  - destruct (p c); intro H.
    + discriminate H.
    + injection H as H. destruct t; simpl in H; [now subst b|discriminate H].
  - intro H. injection H as H. now apply IH.
Qed.

Lemma dropWhileEnd_allOf (s : string) :
  allOf p s = true -> dropWhileEnd p s = "".
Proof.
  induction s as [|c t IH]; simpl; [reflexivity|].
  intro H. apply andb_prop in H as [Hc Ht]. now rewrite (IH Ht), Hc.
Qed.

Lemma dropWhileEnd_app_allOf (a b : string) :
  allOf p b = true -> dropWhileEnd p (a ++ b) = dropWhileEnd p a.
Proof.
  intro Hb. induction a as [|c t IH]; simpl.
  - now apply dropWhileEnd_allOf.
  - now rewrite IH.
Qed.

Lemma headKept_dropWhileEnd (q : ascii -> bool) (s : string) :
  headKept p s = true -> headKept p (dropWhileEnd q s) = true.
Proof.
  destruct s as [|c t]; simpl; [trivial|].
  intro H. destruct (dropWhileEnd q t); [destruct (q c)|]; simpl; trivial.
Qed.

End Dropping.

Section Mapping.
Variable f : ascii -> ascii.
Variable p : ascii -> bool.
Hypothesis p_f : forall c, p (f c) = p c.

Lemma smap_dropWhile (s : string) :
  smap f (dropWhile p s) = dropWhile p (smap f s).
Proof.
  induction s as [|c t IH]; simpl; [reflexivity|].
  rewrite p_f. destruct (p c); [exact IH|reflexivity].
Qed.

Lemma smap_dropWhileEnd (s : string) :
  smap f (dropWhileEnd p s) = dropWhileEnd p (smap f s).
Proof.
  induction s as [|c t IH]; simpl; [reflexivity|].
  rewrite <- IH, p_f.
  destruct (dropWhileEnd p t); simpl; [destruct (p c)|]; reflexivity.
Qed.

Lemma headKept_smap (s : string) : headKept p (smap f s) = headKept p s.
Proof. destruct s; simpl; [reflexivity|now rewrite p_f]. Qed.

End Mapping.

Lemma toLowerCase_trim (s : string) :
  toLowerCase (trim s) = trim (toLowerCase s).
Proof.
  unfold trim, trimEnd, trimStart, toLowerCase.
  rewrite (smap_dropWhileEnd _ _ isSpace_lowerChar).
  now rewrite (smap_dropWhile _ _ isSpace_lowerChar).
Qed.

Lemma trim_fixed (s : string) :
  headKept isSpace s = true -> trimEnd s = s -> trim s = s.
Proof.
  intros Hh He. unfold trim, trimStart.
  now rewrite (dropWhile_headKept _ _ Hh).
Qed.

Lemma headKept_trim (s : string) : headKept isSpace (trim s) = true.
Proof.
  unfold trim, trimEnd, trimStart.
  apply headKept_dropWhileEnd, headKept_dropWhile.
Qed.

(* ----------------------------------------------------------------- *)
(** *** The stable sort *)

Section Sorting.
Context {A : Type}.
Variable cmp : A -> A -> Z.

Hypothesis cmp_total : forall a b, (0 < cmp a b)%Z -> (cmp b a <= 0)%Z.
Hypothesis cmp_trans :
  forall a b c, (cmp a b <= 0)%Z -> (cmp b c <= 0)%Z -> (cmp a c <= 0)%Z.

Lemma insertSorted_Permutation (x : A) (l : list A) :
  Permutation (x :: l) (insertSorted cmp x l).
Proof.
  induction l as [|y t IH]; simpl; [reflexivity|].
  destruct (cmp x y <=? 0)%Z; [reflexivity|].
  rewrite perm_swap. now apply perm_skip.
Qed.

Lemma arraySort_Permutation (l : list A) : Permutation l (arraySort cmp l).
Proof.
  induction l as [|x t IH]; simpl; [reflexivity|].
  rewrite <- insertSorted_Permutation. now apply perm_skip.
Qed.

Lemma insertSorted_StronglySorted (x : A) (l : list A) :
  StronglySorted (ordered cmp) l -> StronglySorted (ordered cmp) (insertSorted cmp x l).
Proof.
  induction l as [|y t IH]; simpl; intro Hs.
  - constructor; constructor.
  - apply StronglySorted_inv in Hs as [Ht Hy].
    destruct (Z.leb_spec (cmp x y) 0) as [Hxy|Hxy].
    + constructor; [now constructor|].
      constructor; [exact Hxy|].
      eapply Forall_impl; [|exact Hy].
      intros z Hz. now apply (cmp_trans x y z).
    + constructor; [now apply IH|].
      eapply Permutation_Forall; [apply insertSorted_Permutation|].
      constructor; [now apply cmp_total|exact Hy].
Qed.

Lemma arraySort_StronglySorted (l : list A) :
  StronglySorted (ordered cmp) (arraySort cmp l).
Proof.
  induction l as [|x t IH]; simpl; [constructor|].
  now apply insertSorted_StronglySorted.
Qed.

Lemma StronglySorted_later (R : A -> A -> Prop) (before after rest : list A)
    (a b : A) :
  StronglySorted R (before ++ a :: after ++ b :: rest) -> R a b.
Proof.
  induction before as [|x t IH]; simpl; intro Hs.
  - apply StronglySorted_inv in Hs as [_ Ha].
    rewrite Forall_forall in Ha. apply Ha.
    apply in_or_app. right. now left.
  - apply StronglySorted_inv in Hs as [Ht _]. now apply IH.
Qed.

End Sorting.

(* ----------------------------------------------------------------- *)
(** *** The end of a text, runs and pieces *)

Lemma dropWhileEnd_lastKept (p : ascii -> bool) (s : string) :
  lastKept p s = true -> dropWhileEnd p s = s.
Proof.
  induction s as [|c t IH]; [reflexivity|].
  destruct t as [|c' t'].
  - simpl. intro H. apply negb_true_iff in H. now rewrite H.
  - intro H. change (lastKept p (String c (String c' t')))
      with (lastKept p (String c' t')) in H.
    change (dropWhileEnd p (String c (String c' t')))
      with (match dropWhileEnd p (String c' t') with
            | EmptyString => if p c then EmptyString else String c EmptyString
            | rest => String c rest
            end).
    now rewrite (IH H).
Qed.

Lemma lastKept_app (p : ascii -> bool) (a b : string) :
  b <> "" -> lastKept p (a ++ b) = lastKept p b.
Proof.
  intro Hb. induction a as [|c t IH]; [reflexivity|].
  cbn [append lastKept]. rewrite IH.
  destruct (t ++ b) eqn:E; [|reflexivity].
  destruct t; [simpl in E; contradiction|discriminate E].
Qed.

Lemma lastKept_smap (p : ascii -> bool) (f : ascii -> ascii) (s : string) :
  (forall c, p (f c) = p c) -> lastKept p (smap f s) = lastKept p s.
Proof.
  intro Hf. induction s as [|c t IH]; [reflexivity|].
  cbn [smap lastKept]. rewrite IH, Hf. now destruct t.
Qed.

Lemma replaceRuns_kept (keep : ascii -> bool) (r : string) (b : bool)
    (w x : string) :
  w <> "" -> allOf keep w = true ->
  replaceRuns keep r b (w ++ x) = w ++ replaceRuns keep r false x.
Proof.
  revert b. induction w as [|c t IH]; intros b Hw Ha; [contradiction|].
  cbn [allOf] in Ha. apply andb_prop in Ha as [Hc Ht].
  cbn [append replaceRuns]. rewrite Hc. f_equal.
  destruct t as [|c' t']; [reflexivity|].
  now apply IH.
Qed.

Lemma replaceRuns_fixed (keep : ascii -> bool) (r : string) (b : bool)
    (s : string) :
  allOf keep s = true -> replaceRuns keep r b s = s.
Proof.
  revert b. induction s as [|c t IH]; intros b Ha; [reflexivity|].
  cbn [allOf] in Ha. apply andb_prop in Ha as [Hc Ht].
  cbn [replaceRuns]. rewrite Hc. f_equal. now apply IH.
Qed.

Lemma splitRuns_nonempty (sep : ascii -> bool) (b : bool) (s : string) :
  splitRuns sep b s <> [].
Proof.
  revert b. induction s as [|c t IH]; intro b; cbn [splitRuns];
    [discriminate|].
  destruct (sep c); [destruct b; [apply IH|discriminate]|].
  destruct (splitRuns sep false t); discriminate.
Qed.

Lemma splitRuns_piece (sep : ascii -> bool) (w x : string) :
  noneOf sep w = true ->
  splitRuns sep false (w ++ x)
  = match splitRuns sep false x with
    | h :: t => (w ++ h) :: t
    | [] => [w]
    end.
Proof.
  unfold noneOf. induction w as [|c t IH]; intro Ha.
  - cbn [append]. destruct (splitRuns sep false x) eqn:E; [|reflexivity].
    now apply splitRuns_nonempty in E.
  - cbn [allOf] in Ha. apply andb_prop in Ha as [Hc Ht].
    apply negb_true_iff in Hc.
    cbn [append splitRuns]. rewrite Hc, (IH Ht).
    destruct (splitRuns sep false x); reflexivity.
Qed.

Lemma lastKept_dropWhileEnd (p : ascii -> bool) (s : string) :
  lastKept p (dropWhileEnd p s) = true.
Proof.
  induction s as [|c t IH]; [reflexivity|].
  cbn [dropWhileEnd]. destruct (dropWhileEnd p t) as [|c' r'] eqn:E.
  - destruct (p c) eqn:Ec; [reflexivity|]. simpl. now rewrite Ec.
  - exact IH.
Qed.

Lemma dropWhileEnd_app_lastKept (p : ascii -> bool) (x b : string) :
  x <> "" -> lastKept p x = true ->
  dropWhileEnd p (x ++ b) = x ++ dropWhileEnd p b.
Proof.
  induction x as [|c t IH]; intros Hx Hl; [contradiction|].
  cbn [append dropWhileEnd]. destruct t as [|c' t'].
  - simpl in Hl. apply negb_true_iff in Hl. cbn [append].
    destruct (dropWhileEnd p b); [now rewrite Hl|reflexivity].
  - rewrite IH; [reflexivity|discriminate|exact Hl].
Qed.

Lemma replaceRuns_nonempty (keep : ascii -> bool) (r s : string) :
  r <> "" -> s <> "" -> replaceRuns keep r false s <> "".
Proof.
  intros Hr Hs. destruct s as [|c t]; [contradiction|].
  cbn [replaceRuns]. destruct (keep c); [discriminate|].
  destruct r; [contradiction|discriminate].
Qed.

Lemma replaceRuns_app (keep : ascii -> bool) (r : string) (b : bool)
    (a y : string) :
  exists b', replaceRuns keep r b (a ++ y)
             = replaceRuns keep r b a ++ replaceRuns keep r b' y.
Proof.
  revert b. induction a as [|c t IH]; intro b; [now exists b|].
  cbn [append replaceRuns]. destruct (keep c).
  - destruct (IH false) as [b' H]. exists b'. now rewrite H.
  - destruct b.
    + destruct (IH true) as [b' H]. now exists b'.
    + destruct (IH true) as [b' H]. exists b'.
      now rewrite H, append_assoc.
Qed.

Lemma replaceRuns_allOf (keep q : ascii -> bool) (r : string) (b : bool)
    (s : string) :
  (forall c, keep c = true -> q c = true) -> allOf q r = true ->
  allOf q (replaceRuns keep r b s) = true.
Proof.
  intros Hk Hr. revert b. induction s as [|c t IH]; intro b; [reflexivity|].
  cbn [replaceRuns]. destruct (keep c) eqn:E.
  - cbn [allOf]. now rewrite (Hk c E), IH.
  - destruct b; [apply IH|]. now rewrite allOf_app, Hr, IH.
Qed.

Lemma replaceRuns_headKept (keep p : ascii -> bool) (r s : string) :
  r <> "" -> headKept p r = true -> headKept p s = true ->
  headKept p (replaceRuns keep r false s) = true.
Proof.
  intros Hr Hp Hs. destruct s as [|c t]; [reflexivity|].
  cbn [replaceRuns]. destruct (keep c); [exact Hs|].
  destruct r; [contradiction|exact Hp].
Qed.

Lemma replaceRuns_lastKept (keep p : ascii -> bool) (r : string) (b : bool)
    (s : string) :
  r <> "" -> lastKept p r = true -> lastKept p s = true ->
  lastKept p (replaceRuns keep r b s) = true.
Proof.
  intros Hr Hp. revert b. induction s as [|c t IH]; intros b Hs;
    [reflexivity|].
  cbn [replaceRuns]. destruct t as [|c' t'].
  - cbn [replaceRuns]. destruct (keep c); [exact Hs|].
    destruct b; [reflexivity|now rewrite append_empty].
  - change (lastKept p (String c (String c' t')))
      with (lastKept p (String c' t')) in Hs.
    destruct (keep c).
    + pose proof (IH false Hs) as H.
      pose proof (replaceRuns_nonempty keep r (String c' t') Hr
                    ltac:(discriminate)) as Hne.
      destruct (replaceRuns keep r false (String c' t')) eqn:E;
        [contradiction|exact H].
    + destruct b; [now apply IH|].
      destruct (replaceRuns keep r true (String c' t')) eqn:E.
      * now rewrite append_empty.
      * rewrite lastKept_app by discriminate. rewrite <- E. now apply IH.
Qed.

(** Where the replacement takes the characters of [p] and no other. *)
Lemma replaceRuns_ends (keep p : ascii -> bool) (r : string) (b : bool)
    (s : string) :
  (forall c, keep c = negb (p c)) -> s <> "" -> lastKept p s = true ->
  replaceRuns keep r b s <> ""
  /\ lastKept p (replaceRuns keep r b s) = true
  /\ (headKept p s = true -> headKept p (replaceRuns keep r b s) = true).
Proof.
  intro Hk. revert b. induction s as [|c t IH]; intros b Hs Hl;
    [contradiction|].
  cbn [replaceRuns headKept]. rewrite Hk. destruct t as [|c' t'].
  - simpl in Hl. rewrite Hl. cbn [replaceRuns].
    repeat split; [discriminate|simpl; exact Hl|].
    intros _. simpl. exact Hl.
  - change (lastKept p (String c (String c' t')))
      with (lastKept p (String c' t')) in Hl.
    assert (Hne : String c' t' <> "") by discriminate.
    destruct (p c) eqn:Ec; cbn [negb].
    + destruct b.
      * destruct (IH true Hne Hl) as (I1 & I2 & _).
        repeat split; [exact I1|exact I2|discriminate].
      * destruct (IH true Hne Hl) as (I1 & I2 & _).
        repeat split; [|rewrite lastKept_app; assumption|discriminate].
        destruct r; [exact I1|discriminate].
    + destruct (IH false Hne Hl) as (I1 & I2 & _).
      repeat split; [discriminate| |intros _; simpl; now rewrite Ec].
      destruct (replaceRuns keep r false (String c' t')) eqn:E;
        [contradiction|exact I2].
Qed.

Lemma replaceRuns_flag (keep : ascii -> bool) (r s : string) :
  headKept (fun c => negb (keep c)) s = true ->
  replaceRuns keep r true s = replaceRuns keep r false s.
Proof.
  destruct s as [|c t]; [reflexivity|]. cbn [headKept replaceRuns].
  intro H. apply negb_true_iff in H. rewrite negb_false_iff in H.
  now rewrite H.
Qed.

Lemma allOf_smap (p : ascii -> bool) (f : ascii -> ascii) (s : string) :
  (forall c, p (f c) = p c) -> allOf p (smap f s) = allOf p s.
Proof.
  intro Hf. induction s as [|c t IH]; [reflexivity|].
  cbn [smap allOf]. now rewrite Hf, IH.
Qed.

Lemma allOf_dropWhile (q p : ascii -> bool) (s : string) :
  allOf q s = true -> allOf q (dropWhile p s) = true.
Proof.
  induction s as [|c t IH]; [reflexivity|]. intro H. cbn [dropWhile].
  destruct (p c); [|exact H].
  cbn [allOf] in H. apply andb_prop in H as [_ H]. now apply IH.
Qed.

Lemma allOf_dropWhileEnd (q p : ascii -> bool) (s : string) :
  allOf q s = true -> allOf q (dropWhileEnd p s) = true.
Proof.
  induction s as [|c t IH]; [reflexivity|]. intro H.
  cbn [allOf] in H. apply andb_prop in H as [Hc Ht].
  cbn [dropWhileEnd]. specialize (IH Ht).
  destruct (dropWhileEnd p t) as [|c' r'].
  - destruct (p c); [reflexivity|]. simpl. now rewrite Hc.
  - cbn [allOf] in *. now rewrite Hc, IH.
Qed.

(** *** [includes] and the text around a match *)

Lemma startsWith_split (s n : string) :
  startsWith s n = true -> exists b, s = n ++ b.
Proof.
  revert s. induction n as [|c n' IH]; intros s H; [now exists s|].
  destruct s as [|c' s']; [discriminate H|].
  cbn [startsWith] in H. apply andb_prop in H as [Hc Hs].
  apply Ascii.eqb_eq in Hc. subst c'.
  destruct (IH s' Hs) as [b ->]. now exists b.
Qed.

Lemma startsWith_prefix (n b : string) : startsWith (n ++ b) n = true.
Proof.
  induction n as [|c n' IH]; [reflexivity|].
  cbn [append startsWith]. now rewrite Ascii.eqb_refl, IH.
Qed.

Lemma includes_infix (a n b : string) : includes (a ++ n ++ b) n = true.
Proof.
  induction a as [|c t IH].
  - cbn [append]. pose proof (startsWith_prefix n b) as H.
    destruct (n ++ b); simpl; now rewrite H.
  - cbn [append includes]. rewrite IH. apply orb_true_r.
Qed.

Lemma includes_split (s n : string) :
  includes s n = true -> exists a b, s = a ++ n ++ b.
Proof.
  induction s as [|c t IH]; cbn [includes]; intro H.
  - rewrite orb_false_r in H. apply startsWith_split in H as [b H].
    exists "", b. exact H.
  - apply orb_prop in H as [H|H].
    + apply startsWith_split in H as [b H]. exists "", b. exact H.
    + destruct (IH H) as (a & b & ->). now exists (String c a), b.
Qed.

Lemma splitRuns_run_head (sep : ascii -> bool) (c : ascii) (t : string) :
  sep c = false ->
  splitRuns sep true (String c t) = splitRuns sep false (String c t).
Proof. intro H. cbn [splitRuns]. now rewrite H. Qed.

End JSFacts.

(* ================================================================= *)
(** ** main.js: the stock normaliser, the price parser, the row prices *)

Module MainFacts.
Import JS JSFacts Main.

Section Facts.
Variable numberToString : float -> string.

Abbreviation toString := (Main.toString numberToString).
Abbreviation parseMoney := (Main.parseMoney numberToString).
Abbreviation rowPricesOf := (Main.rowPricesOf numberToString).

(** C10.  The percentage is the rounded quotient exactly when both
    prices are finite numbers and the original is above zero, and then
    the divisor is not zero; it is [null] otherwise. *)
Theorem percentOffActual_guard (it : item) :
  match parseMoney (originalOf it),
        parseMoney (orElse (finalRawOf it) (originalOf it)) with
  | Some o, Some f =>
      if isFinite o && isFinite f && (0 <? o)%float
      then percentOffActual (rowPricesOf it)
             = Some (roundToCents (((o - f) / o) * 100)%float)
           /\ is_zero o = false
      else percentOffActual (rowPricesOf it) = None
  | _, _ => percentOffActual (rowPricesOf it) = None
  end.
Proof.
  unfold Main.rowPricesOf. simpl.
  destruct (parseMoney (originalOf it)) as [o|];
    destruct (parseMoney (orElse (finalRawOf it) (originalOf it))) as [f|];
    simpl; try reflexivity.
  - destruct (isFinite o); simpl; [|reflexivity].
    destruct (isFinite f); simpl; [|reflexivity].
    destruct (0 <? o)%float eqn:Hpos; [|reflexivity].
    split; [reflexivity|]. now apply positive_not_zero.
  - destruct (isFinite o); reflexivity.
Qed.

End Facts.

(* ----------------------------------------------------------------- *)
(** *** The stock value *)

Section Stock.
Variable numberToString : float -> string.
Variable trim : string -> string.
Variable toLowerCase : string -> string.
(** Lower-casing leaves no text but the empty one empty. *)
Hypothesis toLowerCase_nonempty : forall s, toLowerCase s = "" -> s = "".

Abbreviation toString := (Main.toString numberToString).
Abbreviation normaliseStockValue :=
  (Main.normaliseStockValue numberToString trim toLowerCase).

Lemma firstKeyword_value (kws : list (regex * string)) (lowered v : string) :
  firstKeyword kws lowered = Some v -> In v (map snd kws).
Proof.
  induction kws as [|[re value] rest IH]; simpl.
  - discriminate.
  - destruct (test true re lowered).
    + intro H. injection H as ->. now left.
    + intro H. right. now apply IH.
Qed.

Lemma keyword_never_unknown (lowered : string) :
  firstKeyword STOCK_KEYWORDS lowered <> Some "unknown".
Proof.
  intro H. apply firstKeyword_value in H. simpl in H.
  repeat (destruct H as [H|H]; [discriminate H|]). exact H.
Qed.

(** C3, as amended.  The text of a value that is neither null nor blank
    is trimmed, lowered and slugged.  A slug that is a key of the label
    table is the result.  Otherwise the first pattern that matches the
    lowered text gives it, the patterns tried in the order out of stock,
    back order, preorder, limited, discontinued, in stock; the slug is
    the result when none matches.  The result is [unknown] only for a
    null or blank value and for a text whose slug is [unknown]. *)
Theorem normaliseStockValue_cases (raw : jsval) :
  let str := trim (toString raw) in
  let lowered := toLowerCase str in
  let canonical := slug lowered in
  (nullish raw = false -> str <> "" ->
     normaliseStockValue raw =
       if hasLabel canonical then canonical
       else if test true keywordOutOfStock lowered then "out_of_stock"
       else if test true keywordBackOrder lowered then "back_order"
       else if test true keywordPreorder lowered then "preorder"
       else if test true keywordLimited lowered then "limited"
       else if test true keywordDiscontinued lowered then "discontinued"
       else if test true keywordInStock lowered then "in_stock"
       else canonical)
  /\ (normaliseStockValue raw = "unknown" <->
        nullish raw = true \/ str = "" \/ canonical = "unknown").
Proof.
  intros str lowered canonical.
  assert (Hslug : str <> "" -> canonical <> "").
  { intro Hstr. apply replaceRuns_fresh_nonempty.
    intro H. now apply Hstr, toLowerCase_nonempty. }
  assert (Heq : nullish raw = false -> str <> "" ->
    normaliseStockValue raw =
      (if hasLabel canonical then canonical
       else match firstKeyword STOCK_KEYWORDS lowered with
            | Some value => value
            | None => canonical
            end)).
  { intros Hnull Hstr. unfold Main.normaliseStockValue. rewrite Hnull.
    fold str. destruct (String.eqb_spec str "") as [E|_];
      [now contradiction Hstr|].
    fold lowered. fold canonical.
    destruct (hasLabel canonical); [reflexivity|].
    destruct (firstKeyword STOCK_KEYWORDS lowered); [reflexivity|].
    destruct (String.eqb_spec canonical "") as [E|_];
      [now contradiction (Hslug Hstr)|reflexivity]. }
  split.
  - intros Hnull Hstr. rewrite (Heq Hnull Hstr).
    unfold STOCK_KEYWORDS. cbn [firstKeyword].
    destruct (hasLabel canonical); [reflexivity|].
    repeat match goal with
           | |- context [test true ?re lowered] =>
               destruct (test true re lowered); [reflexivity|]
           end.
    reflexivity.
  - destruct (nullish raw) eqn:Hnull.
    { unfold Main.normaliseStockValue. rewrite Hnull.
      split; [now left|reflexivity]. }
    destruct (String.eqb_spec str "") as [E|Hstr].
    { unfold Main.normaliseStockValue. rewrite Hnull. fold str.
      rewrite E. split; [now right; left|reflexivity]. }
    rewrite (Heq eq_refl Hstr). split.
    + intro H. right. right. revert H.
      destruct (hasLabel canonical); [trivial|].
      destruct (firstKeyword STOCK_KEYWORDS lowered) as [v|] eqn:Hk;
        [|trivial].
      intros ->. now apply keyword_never_unknown in Hk.
    + intros [H|[H|H]]; [discriminate H|now contradiction Hstr|].
      rewrite H. reflexivity.
Qed.

End Stock.

(** C3 as the specification words it fails: a text that is itself a key
    of the label table keeps its own slug, whatever the keywords say. *)
Lemma keyword_first_fails_on_label_text :
  ~ (forall raw : jsval,
        nullish raw = false ->
        trim (Main.toString Host.numberToString raw) <> "" ->
        Main.normaliseStockValue Host.numberToString trim toLowerCase raw
          = keywordOrSlug Host.numberToString trim toLowerCase raw
        /\ Main.normaliseStockValue Host.numberToString trim toLowerCase raw
           <> "unknown").
Proof.
  intro H.
  destruct (H (JStr "Sold Out")) as [E _].
  - reflexivity.
  - discriminate.
  - vm_compute in E. discriminate E.
Qed.

Lemma normaliseStockValue_cases_witness :
  Main.normaliseStockValue Host.numberToString trim toLowerCase
    (JStr " Back-order (2 weeks) ") = "back_order"
  /\ Main.normaliseStockValue Host.numberToString trim toLowerCase
       (JStr "Sold Out") = "sold_out"
  /\ Main.normaliseStockValue Host.numberToString trim toLowerCase
       (JStr "No stock, pre-order now") = "out_of_stock"
  /\ Main.normaliseStockValue Host.numberToString trim toLowerCase
       (JStr "Pre order: only 3 left") = "preorder"
  /\ Main.normaliseStockValue Host.numberToString trim toLowerCase
       (JStr "Only 3 left, ships today") = "limited"
  /\ Main.normaliseStockValue Host.numberToString trim toLowerCase
       (JStr "Retired (was in stock)") = "discontinued"
  /\ Main.normaliseStockValue Host.numberToString trim toLowerCase
       (JStr "Yes") = "in_stock"
  /\ Main.normaliseStockValue Host.numberToString trim toLowerCase
       (JStr "Call for price") = "call_for_price"
  /\ Main.normaliseStockValue Host.numberToString trim toLowerCase
       (JStr "Unknown") = "unknown".
Proof.
  pose (cases := fun raw =>
    normaliseStockValue_cases Host.numberToString trim toLowerCase
      toLowerCase_nonempty (JStr raw)).
  refine (conj (proj1 (cases _) eq_refl _)
         (conj (proj1 (cases _) eq_refl _)
         (conj (proj1 (cases _) eq_refl _)
         (conj (proj1 (cases _) eq_refl _)
         (conj (proj1 (cases _) eq_refl _)
         (conj (proj1 (cases _) eq_refl _)
         (conj (proj1 (cases _) eq_refl _)
         (conj (proj1 (cases _) eq_refl _)
               (proj2 (proj2 (cases "Unknown")) _))))))))); try discriminate.
  right. right. reflexivity.
Defined.

(** C4.  A price with a thousands separator and no cents loses all but
    its leading group; with cents the same price is read whole. *)
Theorem parseMoney_thousands_without_cents :
  forall numberToString : float -> string,
    Main.parseMoney numberToString (JStr "$1,234") = Some 1%float
    /\ Main.parseMoney numberToString (JStr "$1,234.00") = Some 1234%float
    /\ Main.parseMoney numberToString (JStr "$1,234.56")
       = Some 0x1.34a3d70a3d70ap+10%float.
Proof.
  intro numberToString. repeat split; vm_compute; reflexivity.
Qed.

(* ----------------------------------------------------------------- *)
(** *** The price pattern *)

Lemma matchK_digit {R : Type} (ci : bool) (c : ascii) (t : string)
    (k : string -> option R) :
  matchK ci digit (String c t) k = if isDigit c then k t else None.
Proof. reflexivity. Qed.

Lemma digit_not_comma (c : ascii) : isDigit c = true -> isComma c = false.
Proof. destruct c as [[] [] [] [] [] [] [] []]; simpl; trivial; discriminate. Qed.

Lemma digit_not_space (c : ascii) : isDigit c = true -> isSpace c = false.
Proof. destruct c as [[] [] [] [] [] [] [] []]; simpl; trivial; discriminate. Qed.

Lemma sfilter_digits (s : string) :
  allOf isDigit s = true -> sfilter (fun c => negb (isComma c)) s = s.
Proof.
  induction s as [|c t IH]; simpl; [reflexivity|].
  intro H. apply andb_prop in H as [Hc Ht].
  now rewrite (digit_not_comma c Hc), (IH Ht).
Qed.

Lemma span_digits (ds rest : string) :
  allOf isDigit ds = true -> headKept isDigit rest = true ->
  span isDigit (ds ++ rest) = (ds, rest).
Proof.
  intros Hds Hrest. induction ds as [|c t IH]; simpl.
  - destruct rest as [|d r]; [reflexivity|]. simpl in Hrest.
    cbn [span]. destruct (isDigit d); [discriminate Hrest|reflexivity].
  - simpl in Hds. apply andb_prop in Hds as [Hc Ht].
    cbn [span append]. fold (append t rest). now rewrite Hc, (IH Ht).
Qed.

(** The pattern matches nowhere but at a digit. *)
Lemma moneyPattern_needs_digit (s : string) :
  headKept isDigit s = true -> matchHere false moneyPattern s = None.
Proof.
  destruct s as [|c t]; [reflexivity|]. simpl.
  intro H. unfold matchHere. cbn. now destruct (isDigit c).
Qed.

Lemma exec_no_digit (s : string) :
  allOf notDigit s = true -> exec false moneyPattern s = None.
Proof.
  induction s as [|c t IH]; [reflexivity|].
  intro H. simpl in H. apply andb_prop in H as [Hc Ht].
  cbn [exec]. rewrite moneyPattern_needs_digit; [now apply IH|exact Hc].
Qed.

Lemma exec_skip (pre s : string) :
  allOf notDigit pre = true ->
  exec false moneyPattern (pre ++ s) = exec false moneyPattern s.
Proof.
  induction pre as [|c t IH]; [reflexivity|].
  intro H. simpl in H. apply andb_prop in H as [Hc Ht].
  cbn [append exec]. rewrite moneyPattern_needs_digit; [now apply IH|exact Hc].
Qed.

(** X2.  A value with no digit in its text has no price: [null], not
    zero. *)
Lemma parseMoney_no_digit (numberToString : float -> string) (maybe : jsval) :
  allOf notDigit (Main.toString numberToString maybe) = true ->
  Main.parseMoney numberToString maybe = None.
Proof.
  intro H. unfold Main.parseMoney.
  destruct (negb (truthy maybe)); [reflexivity|].
  now rewrite exec_no_digit.
Qed.

Abbreviation group := (Cats (Lit ",") [digit; digit; digit]).
Abbreviation cents := (Cats (Lit ".") [digit; digit]).
Abbreviation leading := (Cat digit (Opt (Cat digit (Opt digit)))).

Lemma three_digits (g : string) :
  digitsOfLength 3 g ->
  exists a b c, g = String a (String b (String c ""))
                /\ isDigit a = true /\ isDigit b = true /\ isDigit c = true.
Proof.
  intros [Hd Hl].
  destruct g as [|a [|b [|c [|d r]]]]; try discriminate Hl.
  simpl in Hd. rewrite andb_true_r in Hd.
  apply andb_prop in Hd as [Ha Hd]. apply andb_prop in Hd as [Hb Hc].
  now exists a, b, c.
Qed.

Lemma two_digits (g : string) :
  digitsOfLength 2 g ->
  exists a b, g = String a (String b "")
              /\ isDigit a = true /\ isDigit b = true.
Proof.
  intros [Hd Hl].
  destruct g as [|a [|b [|c r]]]; try discriminate Hl.
  simpl in Hd. rewrite andb_true_r in Hd.
  apply andb_prop in Hd as [Ha Hb].
  now exists a, b.
Qed.

Lemma group_at_point {R : Type} (x : string) (k : string -> option R) :
  matchK false group (String "." x) k = None.
Proof. reflexivity. Qed.

Lemma star_groups {R : Type} (gs : list string) (x : string)
    (k : string -> option R) (r : R) :
  Forall (digitsOfLength 3) gs ->
  k (String "." x) = Some r ->
  forall fuel, (List.length gs <= fuel)%nat ->
  starLoop false group k fuel (groupsText gs ++ String "." x) = Some r.
Proof.
  intros Hgs Hk. induction Hgs as [|g t Hg Ht IH]; intros fuel Hfuel.
  - simpl. destruct fuel as [|fuel]; simpl; exact Hk.
  - destruct fuel as [|fuel]; [simpl in Hfuel; lia|].
    destruct (three_digits g Hg) as (a & b & c & -> & Ha & Hb & Hc).
    cbn. rewrite Ha, Hb, Hc.
    replace (String.length (groupsText t ++ String "." x)
             <=? S (S (S (String.length (groupsText t ++ String "." x)))))%nat
      with true by (symmetry; apply Nat.leb_le; lia).
    rewrite IH; [reflexivity|]. simpl in Hfuel. lia.
Qed.

Lemma groupsText_length (gs : list string) :
  (List.length gs <= String.length (groupsText gs))%nat.
Proof.
  induction gs as [|g t IH]; simpl; [lia|]. rewrite length_app. lia.
Qed.

(** The leading group, the groups of three and the cents are matched
    as a whole. *)
Lemma moneyPattern_grouped (g0 : string) (gs : list string)
    (cs post : string) :
  allOf isDigit g0 = true ->
  (1 <= String.length g0 <= 3)%nat ->
  Forall (digitsOfLength 3) gs ->
  digitsOfLength 2 cs ->
  matchHere false moneyPattern
    (g0 ++ groupsText gs ++ String "." (cs ++ post)) = Some post.
Proof.
  intros Hg0 Hlen Hgs Hcs.
  destruct (two_digits cs Hcs) as (c1 & c2 & -> & Hc1 & Hc2).
  assert (Hstar : forall s,
    (String.length (groupsText gs) <= String.length s)%nat ->
    starLoop false group
      (fun rest => matchK false cents rest (fun rest' => Some rest'))
      (String.length s)
      (groupsText gs ++ String "." (String c1 (String c2 "") ++ post))
    = Some post).
  { intros s Hs. apply star_groups; [exact Hgs| |].
    - cbn. now rewrite Hc1, Hc2.
    - pose proof (groupsText_length gs). lia. }
  assert (Hhead : headKept isDigit
            (groupsText gs ++ String "." (String c1 (String c2 "") ++ post))
          = true).
  { destruct gs; reflexivity. }
  set (tail := groupsText gs ++ String "." (String c1 (String c2 "") ++ post))
    in *.
  assert (Htail : matchK false (Star group) tail
            (fun rest => matchK false cents rest (fun rest' => Some rest'))
          = Some post).
  { rewrite matchK_Star. apply Hstar. unfold tail. rewrite length_app. lia. }
  assert (Hnext : forall {R : Type} (k : string -> option R),
            matchK false digit tail k = None).
  { intros R k. destruct tail as [|d rest]; [reflexivity|].
    simpl in Hhead. cbn. now destruct (isDigit d). }
  unfold matchHere, moneyPattern.
  rewrite matchK_Alt, matchK_Cats3, matchK_Cat.
  destruct g0 as [|a [|b [|c [|d r]]]]; simpl in Hlen; try lia;
    simpl in Hg0;
    repeat match type of Hg0 with
           | (_ && _) = true => apply andb_prop in Hg0 as [? Hg0]
           end.
  - change (String a "" ++ tail) with (String a tail).
    rewrite matchK_digit, H. cbv beta.
    rewrite matchK_Opt, matchK_Cat, Hnext.
    now rewrite Htail.
  - change (String a (String b "") ++ tail) with (String a (String b tail)).
    rewrite matchK_digit, H. cbv beta.
    rewrite matchK_Opt, matchK_Cat, matchK_digit, H0. cbv beta.
    rewrite matchK_Opt, Hnext.
    now rewrite Htail.
  - change (String a (String b (String c "")) ++ tail)
      with (String a (String b (String c tail))).
    rewrite matchK_digit, H. cbv beta.
    rewrite matchK_Opt, matchK_Cat, matchK_digit, H0. cbv beta.
    rewrite matchK_Opt, matchK_digit, H1.
    now rewrite Htail.
Qed.

Lemma sfilter_groups (gs : list string) :
  Forall (digitsOfLength 3) gs ->
  sfilter (fun c => negb (isComma c)) (groupsText gs) = joinAll gs.
Proof.
  induction 1 as [|g t [Hg _] _ IH]; [reflexivity|].
  cbn [groupsText joinAll]. change ("," ++ g ++ groupsText t)
    with (String "," (g ++ groupsText t)).
  cbn [sfilter]. change (negb (isComma ",")) with false. cbv iota.
  now rewrite sfilter_app, (sfilter_digits g Hg), IH.
Qed.

Lemma allOf_joinAll (gs : list string) :
  Forall (digitsOfLength 3) gs -> allOf isDigit (joinAll gs) = true.
Proof.
  induction 1 as [|g t [Hg _] _ IH]; [reflexivity|].
  cbn [joinAll]. now rewrite allOf_app, Hg, IH.
Qed.

Lemma signOf_digit (a : ascii) (t : string) :
  isDigit a = true -> signOf (String a t) = (false, String a t).
Proof.
  destruct a as [[] [] [] [] [] [] [] []]; simpl; trivial; discriminate.
Qed.

Lemma digit_not_Infinity (a : ascii) (t : string) :
  isDigit a = true -> startsWith (String a t) "Infinity" = false.
Proof.
  destruct a as [[] [] [] [] [] [] [] []]; simpl; trivial; discriminate.
Qed.

(** The number of a text of digits, a point and two digits. *)
Lemma parseFloat_two_decimals (a : ascii) (ds cs : string) :
  isDigit a = true -> allOf isDigit ds = true -> digitsOfLength 2 cs ->
  parseFloat (String a ds ++ String "." cs)
  = ofDecimal false (digitsValue 0 (String a ds ++ cs)) (-2).
Proof.
  intros Ha Hds [Hcs Hlen]. unfold parseFloat, trimStart.
  change (String a ds ++ String "." cs) with (String a (ds ++ String "." cs)).
  cbn [dropWhile]. rewrite (digit_not_space a Ha).
  rewrite (signOf_digit a _ Ha), (digit_not_Infinity a _ Ha).
  unfold scanDecimal.
  change (String a (ds ++ String "." cs)) with (String a ds ++ String "." cs).
  rewrite (span_digits (String a ds) (String "." cs));
    [|simpl; now rewrite Ha|reflexivity].
  rewrite <- (append_empty cs) at 1.
  rewrite (span_digits cs "" Hcs eq_refl).
  cbn [scanExponent]. rewrite Hlen. reflexivity.
Qed.

(** X1.  A price in the fashion of the example: any text without a digit, a
    leading group of one to three digits, groups of three digits behind
    commas, a point and two digits, then anything.  The parser gives the
    binary64 number of all the digits over a hundred. *)
Theorem parseMoney_two_decimals (numberToString : float -> string)
    (pre g0 : string) (gs : list string) (cs post : string) :
  allOf notDigit pre = true ->
  allOf isDigit g0 = true ->
  (1 <= String.length g0 <= 3)%nat ->
  Forall (digitsOfLength 3) gs ->
  digitsOfLength 2 cs ->
  Main.parseMoney numberToString
    (JStr (pre ++ g0 ++ groupsText gs ++ "." ++ cs ++ post))
  = Some (ofDecimal false (digitsValue 0 (g0 ++ joinAll gs ++ cs)) (-2)).
Proof.
  intros Hpre Hg0 Hlen Hgs Hcs. unfold Main.parseMoney.
  destruct g0 as [|a g0']; [simpl in Hlen; lia|].
  assert (Htruthy : truthy (JStr (pre ++ String a g0' ++ groupsText gs
                                  ++ "." ++ cs ++ post)) = true).
  { simpl. now destruct pre. }
  rewrite Htruthy. cbn [negb]. unfold Main.toString, toStringWith.
  rewrite (exec_skip pre _ Hpre).
  change ("." ++ cs ++ post) with (String "." (cs ++ post)).
  rewrite (exec_here _ _ _ post
             (moneyPattern_grouped (String a g0') gs cs post Hg0 Hlen Hgs Hcs)).
  replace (String a g0' ++ groupsText gs ++ String "." (cs ++ post))
    with ((String a g0' ++ groupsText gs ++ String "." cs) ++ post)
    by (rewrite !append_assoc; reflexivity).
  rewrite stake_app.
  rewrite !sfilter_app, (sfilter_digits _ Hg0), (sfilter_groups gs Hgs).
  change (String "." cs) with ("." ++ cs).
  rewrite sfilter_app, (sfilter_digits cs (proj1 Hcs)).
  change (sfilter (fun c => negb (isComma c)) ".") with ".".
  simpl in Hg0. apply andb_prop in Hg0 as [Ha Hg0'].
  replace (String a g0' ++ joinAll gs ++ "." ++ cs)
    with (String a (g0' ++ joinAll gs) ++ String "." cs)
    by (simpl; rewrite append_assoc; reflexivity).
  rewrite (parseFloat_two_decimals a (g0' ++ joinAll gs) cs Ha);
    [|now rewrite allOf_app, Hg0', (allOf_joinAll gs Hgs)|exact Hcs].
  do 2 f_equal. simpl. now rewrite append_assoc.
Qed.

Lemma parseMoney_two_decimals_witness :
  Main.parseMoney Host.numberToString (JStr "USD $12,345,678.90 each")
  = Some (ofDecimal false 1234567890 (-2)).
Proof.
  apply (parseMoney_two_decimals Host.numberToString "USD $" "12"
           ["345"; "678"] "90" " each").
  - reflexivity.
  - reflexivity.
  - simpl. lia.
  - repeat constructor.
  - split; reflexivity.
Defined.

Lemma parseMoney_no_digit_witness :
  Main.parseMoney Host.numberToString (JStr "Call for price") = None.
Proof.
  apply (parseMoney_no_digit Host.numberToString (JStr "Call for price")).
  reflexivity.
Defined.

(* ----------------------------------------------------------------- *)
(** *** [escapeHtml] *)

Section Escaping.
Variable numberToString : float -> string.

Abbreviation escapeHtml := (Main.escapeHtml numberToString).

(** The text [escapeHtml] works on. *)
Abbreviation textOf v :=
  (match v with JUndefined => "" | _ => Main.toString numberToString v end).

Lemma replaceChar_app (c : ascii) (r a b : string) :
  replaceChar c r (a ++ b) = replaceChar c r a ++ replaceChar c r b.
Proof.
  induction a as [|x t IH]; simpl; [reflexivity|].
  destruct (Ascii.eqb x c); simpl; rewrite IH;
    [now rewrite append_assoc|reflexivity].
Qed.

Lemma replacements_each (s : string) :
  replaceChar "'" "&#39;"
    (replaceChar dquoteChar "&quot;"
       (replaceChar ">" "&gt;"
          (replaceChar "<" "&lt;"
             (replaceChar "&" "&amp;" s))))
  = escapeEach s.
Proof.
  induction s as [|c t IH]; [reflexivity|].
  cbn [replaceChar escapeEach]. unfold entityOf.
  destruct (Ascii.eqb c "&") eqn:E1.
  { rewrite !replaceChar_app, IH. reflexivity. }
  cbn [replaceChar]. destruct (Ascii.eqb c "<") eqn:E2.
  { rewrite !replaceChar_app, IH. reflexivity. }
  cbn [replaceChar]. destruct (Ascii.eqb c ">") eqn:E3.
  { rewrite !replaceChar_app, IH. reflexivity. }
  cbn [replaceChar]. destruct (Ascii.eqb c dquoteChar) eqn:E4.
  { rewrite !replaceChar_app, IH. reflexivity. }
  cbn [replaceChar]. destruct (Ascii.eqb c "'") eqn:E5.
  { rewrite IH. reflexivity. }
  rewrite IH. reflexivity.
Qed.

Lemma escapeHtml_each (v : jsval) : escapeHtml v = escapeEach (textOf v).
Proof. unfold Main.escapeHtml. apply replacements_each. Qed.

Lemma entityOf_cases (c : ascii) :
  (isEscaped c = false /\ entityOf c = String c "")
  \/ (isEscaped c = true
      /\ exists x rest, entityOf c = String "&" (String x rest)
           /\ noneOf isMarkup rest = true /\ isMarkup x = false
           /\ forall c' rest',
                entityOf c' = String "&" (String x rest') -> c' = c).
Proof.
  assert (Hinj : forall c' x rest,
             entityOf c' = String "&" (String x rest) ->
             (x = "a" -> c' = "&")%char /\ (x = "l" -> c' = "<")%char
             /\ (x = "g" -> c' = ">")%char
             /\ (x = "q"%char -> c' = dquoteChar)
             /\ (x = "#" -> c' = "'")%char).
  { intros c' x rest. unfold entityOf.
    destruct (Ascii.eqb c' "&") eqn:E1;
      [apply Ascii.eqb_eq in E1; subst c'; intro H; injection H as <- _;
       repeat split; intro; (reflexivity || discriminate)|].
    destruct (Ascii.eqb c' "<") eqn:E2;
      [apply Ascii.eqb_eq in E2; subst c'; intro H; injection H as <- _;
       repeat split; intro; (reflexivity || discriminate)|].
    destruct (Ascii.eqb c' ">") eqn:E3;
      [apply Ascii.eqb_eq in E3; subst c'; intro H; injection H as <- _;
       repeat split; intro; (reflexivity || discriminate)|].
    destruct (Ascii.eqb c' dquoteChar) eqn:E4;
      [apply Ascii.eqb_eq in E4; subst c'; intro H; injection H as <- _;
       repeat split; intro; (reflexivity || discriminate)|].
    destruct (Ascii.eqb c' "'") eqn:E5;
      [apply Ascii.eqb_eq in E5; subst c'; intro H; injection H as <- _;
       repeat split; intro; (reflexivity || discriminate)|].
    intro H. discriminate H. }
  unfold isEscaped, isMarkup.
  destruct (Ascii.eqb c "&") eqn:E1.
  { right. apply Ascii.eqb_eq in E1. subst c. split; [reflexivity|].
    exists "a"%char, "mp;". repeat split; try reflexivity.
    intros c' rest' H. apply Hinj in H.
    destruct H as (H1 & H2 & H3 & H4 & H5). auto. }
  destruct (Ascii.eqb c "<") eqn:E2.
  { right. apply Ascii.eqb_eq in E2. subst c. split; [reflexivity|].
    exists "l"%char, "t;". repeat split; try reflexivity.
    intros c' rest' H. apply Hinj in H.
    destruct H as (H1 & H2 & H3 & H4 & H5). auto. }
  destruct (Ascii.eqb c ">") eqn:E3.
  { right. apply Ascii.eqb_eq in E3. subst c. split; [reflexivity|].
    exists "g"%char, "t;". repeat split; try reflexivity.
    intros c' rest' H. apply Hinj in H.
    destruct H as (H1 & H2 & H3 & H4 & H5). auto. }
  destruct (Ascii.eqb c dquoteChar) eqn:E4.
  { right. apply Ascii.eqb_eq in E4. subst c. split; [reflexivity|].
    exists "q"%char, "uot;". repeat split; try reflexivity.
    intros c' rest' H. apply Hinj in H.
    destruct H as (H1 & H2 & H3 & H4 & H5). auto. }
  destruct (Ascii.eqb c "'") eqn:E5.
  { right. apply Ascii.eqb_eq in E5. subst c. split; [reflexivity|].
    exists "#"%char, "39;". repeat split; try reflexivity.
    intros c' rest' H. apply Hinj in H.
    destruct H as (H1 & H2 & H3 & H4 & H5). auto. }
  left. split; [reflexivity|].
  unfold entityOf. now rewrite E1, E2, E3, E4, E5.
Qed.

Lemma escapeEach_no_markup (s : string) :
  noneOf isMarkup (escapeEach s) = true.
Proof.
  induction s as [|c t IH]; [reflexivity|].
  cbn [escapeEach]. unfold noneOf in *. rewrite allOf_app, IH, andb_true_r.
  destruct (entityOf_cases c)
    as [[He Hent]|[He (x & rest & Hent & Hrest & Hx & _)]]; rewrite Hent.
  - unfold isEscaped in He. apply orb_false_elim in He as [_ He].
    simpl. now rewrite He.
  - cbn [allOf]. unfold noneOf in Hrest. now rewrite Hx, Hrest.
Qed.

Lemma append_cancel (a x y : string) : a ++ x = a ++ y -> x = y.
Proof.
  induction a as [|c t IH]; simpl; intro H; [exact H|].
  injection H as H. now apply IH.
Qed.

Lemma escapeEach_injective (a b : string) :
  escapeEach a = escapeEach b -> a = b.
Proof.
  revert b. induction a as [|ca ta IH]; intros [|cb tb]; cbn [escapeEach].
  - reflexivity.
  - destruct (entityOf_cases cb) as [[_ H]|[_ (x & r & H & _)]];
      rewrite H; discriminate.
  - destruct (entityOf_cases ca) as [[_ H]|[_ (x & r & H & _)]];
      rewrite H; discriminate.
  - destruct (entityOf_cases ca)
      as [[Ha Hea]|[Ha (xa & ra & Hea & _ & _ & Hua)]];
    destruct (entityOf_cases cb)
      as [[Hb Heb]|[Hb (xb & rb & Heb & _ & _ & Hub)]];
    rewrite Hea, Heb; simpl; intro H.
    + injection H as -> H. now rewrite (IH _ H).
    + injection H as -> _. discriminate Ha.
    + injection H as <- _. discriminate Hb.
    + injection H as -> H.
      assert (cb = ca) as -> by (apply (Hua cb rb); exact Heb).
      rewrite Hea in Heb. injection Heb as <-.
      apply append_cancel in H. now rewrite (IH _ H).
Qed.

Lemma escapeEach_length (s : string) :
  (String.length s <= String.length (escapeEach s))%nat
  /\ (noneOf isEscaped s = false ->
      (String.length s < String.length (escapeEach s))%nat).
Proof.
  induction s as [|c t [IH1 IH2]]; [split; [reflexivity|discriminate]|].
  cbn [escapeEach]. rewrite length_app. unfold noneOf in *. cbn [allOf].
  destruct (entityOf_cases c) as [[He Hent]|[He (x & rest & Hent & _)]];
    rewrite Hent, He; simpl.
  - split; [lia|]. intro H. apply IH2 in H. lia.
  - split; [lia|]. intros _. lia.
Qed.

(** X8.  Whatever value [escapeHtml] is given, its result holds none of
    the characters [<], [>], the double quote and [']: the text can stand
    between tags and inside a quoted attribute value. *)
Theorem escapeHtml_no_markup (v : jsval) :
  noneOf isMarkup (escapeHtml v) = true.
Proof. rewrite escapeHtml_each. apply escapeEach_no_markup. Qed.

(** X9.  [escapeHtml] loses nothing: two texts with the same escaped form
    are the same text. *)
Theorem escapeHtml_injective (a b : string) :
  escapeHtml (JStr a) = escapeHtml (JStr b) -> a = b.
Proof. rewrite !escapeHtml_each. apply escapeEach_injective. Qed.

(** X10.  [escapeHtml] returns a text unchanged exactly when the text
    holds none of the five characters it replaces; a text with one of
    them grows, so escaping an escaped text escapes it again. *)
Theorem escapeHtml_unchanged_iff (s : string) :
  escapeHtml (JStr s) = s <-> noneOf isEscaped s = true.
Proof.
  rewrite escapeHtml_each. cbn [Main.toString toStringWith]. split.
  - intro H. destruct (noneOf isEscaped s) eqn:E; [reflexivity|].
    apply (proj2 (escapeEach_length s)) in E. rewrite H in E. lia.
  - induction s as [|c t IH]; [reflexivity|].
    unfold noneOf. cbn [allOf escapeEach]. intro H.
    apply andb_prop in H as [Hc Ht].
    destruct (entityOf_cases c) as [[_ Hent]|[He _]].
    + rewrite Hent. simpl. f_equal. now apply IH.
    + rewrite He in Hc. discriminate Hc.
Qed.

End Escaping.

Lemma escapeHtml_injective_witness :
  Main.escapeHtml Host.numberToString (JStr "Tom & Jerry")
  = "Tom &amp; Jerry"
  /\ "Tom & Jerry" = "Tom & Jerry".
Proof.
  split; [reflexivity|].
  apply (escapeHtml_injective Host.numberToString "Tom & Jerry"
           "Tom & Jerry").
  reflexivity.
Defined.

(* ----------------------------------------------------------------- *)
(** *** The duplicate filter and the pager of [render] *)

Lemma has_setAdd (seen : list jsval) (k k' : string) :
  has (setAdd seen (JStr k)) k' = String.eqb k' k || has seen k'.
Proof.
  unfold has, setAdd.
  destruct (existsb (sameValueZero (JStr k)) seen) eqn:E.
  - destruct (String.eqb k' k) eqn:Ek; [|reflexivity].
    apply String.eqb_eq in Ek. subst k'. now rewrite E.
  - rewrite existsb_app. simpl. rewrite orb_false_r. apply orb_comm.
Qed.

Lemma hideDuplicates_unseen (rows : list row) (seen : list jsval) (r : row) :
  In r (hideDuplicates seen rows) ->
  has seen (dupKey r) = false /\ In r rows.
Proof.
  revert seen. induction rows as [|x rest IH]; intros seen; [intros []|].
  cbn [hideDuplicates].
  destruct (has seen (dupKey x)) eqn:E.
  - intro H. apply IH in H as [H1 H2]. split; [exact H1|now right].
  - intros [<-|H]; [split; [exact E|now left]|].
    apply IH in H as [H1 H2]. rewrite has_setAdd in H1.
    apply orb_false_elim in H1 as [_ H1]. split; [exact H1|now right].
Qed.

Lemma hideDuplicates_NoDup (rows : list row) (seen : list jsval) :
  NoDup (map dupKey (hideDuplicates seen rows)).
Proof.
  revert seen. induction rows as [|x rest IH]; intros seen; [constructor|].
  cbn [hideDuplicates].
  destruct (has seen (dupKey x)) eqn:E; [apply IH|].
  cbn [map]. constructor; [|apply IH].
  intro H. apply in_map_iff in H as (r & Hk & Hr).
  apply hideDuplicates_unseen in Hr as [Hr _].
  rewrite has_setAdd, Hk, String.eqb_refl in Hr. discriminate Hr.
Qed.

Lemma hideDuplicates_covers (rows : list row) (seen : list jsval) (r : row) :
  In r rows ->
  has seen (dupKey r) = true
  \/ In (dupKey r) (map dupKey (hideDuplicates seen rows)).
Proof.
  revert seen. induction rows as [|x rest IH]; intros seen; [intros []|].
  cbn [hideDuplicates]. intros [->|H].
  - destruct (has seen (dupKey r)) eqn:E; [now left|right; now left].
  - destruct (has seen (dupKey x)) eqn:E; [now apply IH|].
    destruct (IH (setAdd seen (JStr (dupKey x))) H) as [H1|H1].
    + rewrite has_setAdd in H1. apply orb_prop in H1 as [H1|H1].
      * apply String.eqb_eq in H1. right. left. now symmetry.
      * now left.
    + right. now right.
Qed.

(** X11.  With duplicates hidden, no two rows that remain share a key
    (the model, or the lower-cased title of a row without one), every
    row that remains is a row of the table, and every key of the table
    is still there. *)
Theorem hideDuplicates_one_per_key (rows : list row) :
  NoDup (map dupKey (hideDuplicates [] rows))
  /\ incl (hideDuplicates [] rows) rows
  /\ incl (map dupKey rows) (map dupKey (hideDuplicates [] rows)).
Proof.
  split; [apply hideDuplicates_NoDup|split].
  - intros r H. now apply hideDuplicates_unseen in H.
  - intros k H. apply in_map_iff in H as (r & <- & Hr).
    destruct (hideDuplicates_covers rows [] r Hr) as [H|H];
      [discriminate H|exact H].
Qed.

Lemma firstn_add {A : Type} (a b : nat) (l : list A) :
  firstn (a + b) l = (firstn a l ++ firstn b (skipn a l))%list.
Proof.
  revert l. induction a as [|a IH]; intros [|x l]; simpl; try reflexivity.
  - now destruct b.
  - now rewrite IH.
Qed.

Lemma firstn_min {A : Type} (n : nat) (l : list A) :
  firstn (Nat.min n (List.length l)) l = firstn n l.
Proof.
  destruct (Nat.le_ge_cases n (List.length l)) as [H|H].
  - now rewrite Nat.min_l.
  - rewrite Nat.min_r by exact H. now rewrite firstn_all, firstn_all2.
Qed.

Lemma slice_window {A : Type} (a n : nat) (l : list A) :
  slice (Z.of_nat a) (Z.of_nat a + Z.of_nat n) l = firstn n (skipn a l).
Proof.
  unfold slice, sliceIndex.
  destruct (Z.ltb_spec (Z.of_nat a) 0) as [H|_]; [lia|].
  destruct (Z.ltb_spec (Z.of_nat a + Z.of_nat n) 0) as [H|_]; [lia|].
  destruct (Nat.le_gt_cases a (List.length l)) as [H|H].
  - rewrite (Z.min_l (Z.of_nat a)) by lia. rewrite Nat2Z.id.
    rewrite <- (firstn_min n). rewrite length_skipn. f_equal. lia.
  - rewrite (Z.min_r (Z.of_nat a)) by lia. rewrite Nat2Z.id.
    rewrite skipn_all, (skipn_all2 l) by lia. now rewrite !firstn_nil.
Qed.

Lemma pageRows_window {A : Type} (rows : list A) (pageSize : positive)
    (i : nat) :
  pageRows rows pageSize (Z.of_nat (S i))
  = firstn (Pos.to_nat pageSize) (skipn (i * Pos.to_nat pageSize) rows).
Proof.
  unfold pageRows. rewrite <- slice_window. f_equal; lia.
Qed.

Lemma pagesUpTo_concat {A : Type} (rows : list A) (pageSize : positive)
    (n : nat) :
  List.concat (pagesUpTo rows pageSize n) = firstn (n * Pos.to_nat pageSize) rows.
Proof.
  unfold pagesUpTo. induction n as [|n IH]; [reflexivity|].
  rewrite seq_S, map_app, concat_app, IH. cbn [map List.concat Nat.add].
  rewrite app_nil_r, pageRows_window.
  replace (S n * Pos.to_nat pageSize)%nat
    with (n * Pos.to_nat pageSize + Pos.to_nat pageSize)%nat by lia.
  now rewrite firstn_add.
Qed.

Lemma totalPages_bounds (len : nat) (pageSize : positive) :
  (1 <= totalPages len pageSize)%Z
  /\ (Z.of_nat len <= totalPages len pageSize * Zpos pageSize)%Z
  /\ ((0 < len)%nat ->
      ((totalPages len pageSize - 1) * Zpos pageSize < Z.of_nat len)%Z).
Proof.
  unfold totalPages.
  pose proof (Z.div_mod (- Z.of_nat len) (Zpos pageSize)) as Hd.
  pose proof (Z.mod_pos_bound (- Z.of_nat len) (Zpos pageSize)) as Hm.
  specialize (Hd ltac:(lia)). specialize (Hm ltac:(lia)).
  set (q := (- Z.of_nat len / Zpos pageSize)%Z) in *.
  set (r := (- Z.of_nat len mod Zpos pageSize)%Z) in *.
  repeat split; [lia|nia|intro Hl; nia].
Qed.

(** X12.  When the table has rows and the current page is at least one,
    [render] puts the page into range (one to the number of pages) and
    the page it shows is never empty and never longer than the page
    size. *)
Theorem shownRows_page_in_range {A : Type} (rows : list A)
    (pageSize : positive) (currentPage : Z) :
  rows <> [] -> (1 <= currentPage)%Z ->
  let page := clampPage (List.length rows) pageSize currentPage in
  (1 <= page <= totalPages (List.length rows) pageSize)%Z
  /\ shownRows rows pageSize currentPage <> []
  /\ (List.length (shownRows rows pageSize currentPage)
      <= Pos.to_nat pageSize)%nat.
Proof.
  intros Hrows Hcur page.
  assert (Hlen : (0 < List.length rows)%nat)
    by (destruct rows; [contradiction|simpl; lia]).
  destruct (totalPages_bounds (List.length rows) pageSize) as (H1 & H2 & H3).
  specialize (H3 Hlen).
  assert (Hpage : (1 <= page <= totalPages (List.length rows) pageSize)%Z).
  { unfold page, clampPage.
    destruct (Nat.eqb_spec (List.length rows) 0) as [E|_]; [lia|].
    destruct (Z.ltb_spec (totalPages (List.length rows) pageSize)
                currentPage); lia. }
  split; [exact Hpage|].
  unfold shownRows. fold page.
  replace page with (Z.of_nat (S (Z.to_nat (page - 1)))) by lia.
  rewrite pageRows_window.
  assert (Hs : (Z.to_nat (page - 1) * Pos.to_nat pageSize
                < List.length rows)%nat) by nia.
  split.
  - intro H. apply (f_equal (@List.length A)) in H.
    rewrite length_firstn, length_skipn in H. simpl in H. lia.
  - rewrite length_firstn. lia.
Qed.

(** X13.  The pages of the table, from the first to the last, laid end to
    end are the rows of the table: every row is on one page, in its
    place. *)
Theorem pages_cover_rows {A : Type} (rows : list A) (pageSize : positive) :
  List.concat (pagesUpTo rows pageSize
            (Z.to_nat (totalPages (List.length rows) pageSize)))
  = rows.
Proof.
  rewrite pagesUpTo_concat. apply firstn_all2.
  destruct (totalPages_bounds (List.length rows) pageSize) as (H1 & H2 & _).
  nia.
Qed.

Lemma shownRows_page_in_range_witness :
  (1 <= clampPage 5 2 7 <= totalPages 5 2)%Z
  /\ shownRows [1; 2; 3; 4; 5]%Z 2 7 <> []
  /\ (List.length (shownRows [1; 2; 3; 4; 5]%Z 2 7) <= 2)%nat.
Proof.
  apply (shownRows_page_in_range [1; 2; 3; 4; 5]%Z 2 7);
    [discriminate|lia].
Defined.

(* ----------------------------------------------------------------- *)
(** *** [getStockMeta] on a text of words *)

Lemma isLower_plain (c : ascii) :
  isLower c = true ->
  wordBreak c = false /\ isSpace c = false /\ lowerChar c = c.
Proof.
  destruct c as [[] [] [] [] [] [] [] []]; intro H;
    try discriminate H; repeat split.
Qed.

Lemma isWord_shape (w : string) :
  isWord w = true ->
  exists c t, w = String c t /\ isLower c = true /\ allOf isLower t = true.
Proof.
  unfold isWord. destruct w as [|c t]; [discriminate|].
  cbn [nonEmpty allOf]. intro H. apply andb_prop in H as [_ H].
  apply andb_prop in H as [Hc Ht]. now exists c, t.
Qed.

Lemma word_plain (w : string) :
  allOf isLower w = true ->
  noneOf wordBreak w = true /\ toLowerCase w = w.
Proof.
  unfold noneOf, toLowerCase. induction w as [|c t IH]; [now split|].
  cbn [allOf smap]. intro H. apply andb_prop in H as [Hc Ht].
  destruct (isLower_plain c Hc) as (H1 & _ & H3).
  destruct (IH Ht) as [I1 I2]. now rewrite H1, H3, I1, I2.
Qed.

Lemma join_words_head (sep : string) (w : string) (ws : list string) :
  isWord w = true ->
  exists c t, join sep (w :: ws) = String c t /\ isLower c = true.
Proof.
  intro H. apply isWord_shape in H as (c & t & -> & Hc & _).
  destruct ws as [|w' ws']; [now exists c, t|].
  exists c, (t ++ sep ++ join sep (w' :: ws')). now split.
Qed.

Lemma join_step (sep w w' : string) (ws : list string) :
  join sep (w :: w' :: ws) = w ++ sep ++ join sep (w' :: ws).
Proof. reflexivity. Qed.

Lemma words_text (w : string) (ws : list string) :
  forallb isWord (w :: ws) = true ->
  lastKept isSpace (join " " (w :: ws)) = true
  /\ toLowerCase (join " " (w :: ws)) = join " " (w :: ws)
  /\ (forall b, replaceRuns isLower "_" b (join " " (w :: ws))
                = join "_" (w :: ws))
  /\ splitRuns wordBreak false (join "_" (w :: ws)) = w :: ws.
Proof.
  revert w. induction ws as [|w' ws IH]; intros w H;
    cbn [forallb] in H; apply andb_prop in H as [Hw Hws].
  - cbn [join]. destruct (isWord_shape w Hw) as (c & t & -> & Hc & Ht).
    assert (Ha : allOf isLower (String c t) = true)
      by (cbn [allOf]; now rewrite Hc, Ht).
    destruct (word_plain _ Ha) as [Hn Hl].
    repeat split.
    + clear Ha Hn Hl Hw. revert c Hc. induction t as [|c' t' IHt]; intros c Hc.
      * simpl. now rewrite (proj1 (proj2 (isLower_plain c Hc))).
      * cbn [allOf] in Ht. apply andb_prop in Ht as [Hc' Ht'].
        change (lastKept isSpace (String c (String c' t')))
          with (lastKept isSpace (String c' t')). now apply IHt.
    + exact Hl.
    + intro b. now apply replaceRuns_fixed.
    + rewrite <- (append_empty (String c t)) at 1.
      rewrite (splitRuns_piece _ _ _ Hn). cbn [splitRuns].
      now rewrite append_empty.
  - destruct (IH w' Hws) as (I1 & I2 & I3 & I4).
    assert (Hw' : isWord w' = true)
      by (cbn [forallb] in Hws; now apply andb_prop in Hws as [? _]).
    destruct (isWord_shape w Hw) as (c & t & Ew & Hc & Ht).
    assert (Ha : allOf isLower w = true)
      by (subst w; cbn [allOf]; now rewrite Hc, Ht).
    destruct (word_plain _ Ha) as [Hn Hl].
    rewrite !join_step. repeat split.
    + rewrite lastKept_app; [|subst w; discriminate].
      rewrite lastKept_app; [exact I1|].
      destruct (join_words_head " " w' ws Hw') as (c' & t' & -> & _).
      discriminate.
    + unfold toLowerCase in *. rewrite !smap_app, Hl, I2. reflexivity.
    + intro b. rewrite replaceRuns_kept; [|subst w; discriminate|exact Ha].
      f_equal. cbn [append replaceRuns].
      change (isLower " ") with false. cbv iota. now rewrite I3.
    + rewrite (splitRuns_piece _ _ _ Hn).
      destruct (join_words_head "_" w' ws Hw') as (c' & t' & E & Hc').
      cbn [append splitRuns]. change (wordBreak "_") with true. cbv iota.
      rewrite E, splitRuns_run_head, <- E, I4;
        [|exact (proj1 (isLower_plain c' Hc'))].
      now rewrite append_empty.
Qed.

Lemma filter_words (ws : list string) :
  forallb isWord ws = true -> filter nonEmpty ws = ws.
Proof.
  induction ws as [|w ws IH]; [reflexivity|].
  cbn [forallb filter]. intro H. apply andb_prop in H as [Hw Hws].
  unfold isWord in Hw. apply andb_prop in Hw as [Hw _].
  now rewrite Hw, IH.
Qed.

Lemma find_existsb {A : Type} (p : A -> bool) (l : list A) :
  existsb p l = false -> find p l = None.
Proof.
  induction l as [|x t IH]; [reflexivity|].
  cbn [existsb find]. destruct (p x); [discriminate|exact IH].
Qed.

Section StockMeta.
Variable numberToString : float -> string.

(** X14.  A stock text of lower-case words, one space between them, that
    is no key of the label table once joined by underscores and that no
    keyword pattern matches, is kept as it stands: the value is the words
    joined by underscores, the label the words with a capital each, the
    tone [muted]. *)
Theorem getStockMeta_unlisted_words (w : string) (ws : list string) :
  forallb isWord (w :: ws) = true ->
  hasLabel (join "_" (w :: ws)) = false ->
  firstKeyword STOCK_KEYWORDS (join " " (w :: ws)) = None ->
  Main.getStockMeta numberToString trim toLowerCase
    (JStr (join " " (w :: ws)))
  = {| meta_value := join "_" (w :: ws);
       meta_label := join " " (map capitalise (w :: ws));
       meta_tone := "muted" |}.
Proof.
  intros Hws Hlabel Hkw.
  destruct (words_text w ws Hws) as (Hlast & Hlow & Hslug & Hsplit).
  assert (Hw : isWord w = true)
    by (cbn [forallb] in Hws; now apply andb_prop in Hws as [? _]).
  destruct (join_words_head " " w ws Hw) as (c & t & Etext & Hc).
  destruct (join_words_head "_" w ws Hw) as (c' & t' & Eslug & Hc').
  assert (Htrim : trim (join " " (w :: ws)) = join " " (w :: ws)).
  { apply trim_fixed.
    - rewrite Etext. cbn [headKept].
      now rewrite (proj1 (proj2 (isLower_plain c Hc))).
    - now apply dropWhileEnd_lastKept. }
  assert (Hvalue : Main.normaliseStockValue numberToString trim toLowerCase
                     (JStr (join " " (w :: ws))) = join "_" (w :: ws)).
  { unfold Main.normaliseStockValue.
    cbn [nullish Main.toString toStringWith]. rewrite Htrim.
    rewrite Etext at 1. cbn [String.eqb]. rewrite Hlow. unfold slug.
    rewrite Hslug, Hlabel, Hkw. rewrite Eslug at 1. reflexivity. }
  unfold Main.getStockMeta. rewrite Hvalue.
  assert (Hentry : labelEntry (join "_" (w :: ws)) = None).
  { unfold labelEntry. unfold hasLabel in Hlabel.
    apply orb_false_elim in Hlabel as [Hlabel _].
    now rewrite (find_existsb _ _ Hlabel). }
  rewrite Hentry. cbn [nonEmpty String.eqb negb].
  f_equal. rewrite Eslug at 1. cbn [nonEmpty String.eqb negb].
  unfold toTitleCase. now rewrite Hsplit, (filter_words _ Hws).
Qed.

End StockMeta.

Lemma getStockMeta_unlisted_words_witness :
  Main.getStockMeta Host.numberToString trim toLowerCase
    (JStr "call for price")
  = {| meta_value := "call_for_price";
       meta_label := "Call For Price";
       meta_tone := "muted" |}.
Proof.
  apply (getStockMeta_unlisted_words Host.numberToString "call"
           ["for"; "price"]); reflexivity.
Defined.

(* ----------------------------------------------------------------- *)
(** *** The comparison file *)

Section Comparison.
Variable numberToString : float -> string.
Variable trim : string -> string.
Variable toLowerCase : string -> string.
Variable norm : string -> string.
Variable modelKey : string -> string.
(** Lower-casing leaves no text but the empty one empty. *)
Hypothesis toLowerCase_nonempty : forall s, toLowerCase s = "" -> s = "".

Abbreviation titleText := (Main.titleText trim).
Abbreviation priceValueOf := (Main.priceValueOf numberToString).
Abbreviation loadRow :=
  (Main.loadRow numberToString trim toLowerCase norm modelKey).
Abbreviation loadRows :=
  (Main.loadRows numberToString trim toLowerCase norm modelKey).
Abbreviation loadComparison :=
  (Main.loadComparison numberToString trim toLowerCase norm modelKey).
Abbreviation lookupComparePrice :=
  (Main.lookupComparePrice numberToString trim toLowerCase norm modelKey).

Lemma lowered_nonEmpty (t : string) :
  t <> "" -> nonEmpty (toLowerCase t) = true.
Proof.
  intro H. unfold nonEmpty.
  destruct (String.eqb_spec (toLowerCase t) "") as [E|_]; [|reflexivity].
  now apply toLowerCase_nonempty in E.
Qed.

Lemma mapGet_addKeyIf (cond : bool) (key key' : string) (v : float)
    (m : priceMap) :
  mapGet key' (addKeyIf cond key v m)
  = if cond && nonEmpty key && String.eqb key key' then Some v
    else mapGet key' m.
Proof.
  unfold addKeyIf. destruct (cond && nonEmpty key); [|reflexivity].
  unfold mapGet, mapSet. cbn [find fst snd andb].
  now destruct (String.eqb key key').
Qed.

Lemma addKeyIf_pricesFrom (P : float -> Prop) (cond : bool) (key : string)
    (v : float) (m : priceMap) :
  P v -> pricesFrom P m -> pricesFrom P (addKeyIf cond key v m).
Proof.
  intros Hv Hm key' q. rewrite mapGet_addKeyIf.
  destruct (cond && nonEmpty key && String.eqb key key').
  - intro H. now injection H as <-.
  - apply Hm.
Qed.

Lemma addKeyIf_keeps (cond : bool) (key key' : string) (v : float)
    (m : priceMap) :
  mapGet key' m <> None -> mapGet key' (addKeyIf cond key v m) <> None.
Proof.
  intro H. rewrite mapGet_addKeyIf.
  now destruct (cond && nonEmpty key && String.eqb key key').
Qed.

Lemma loadRow_pricesFrom (P : float -> Prop) (m m' : priceMap)
    (row : compareRow) :
  (forall p, priceValueOf row = Some p -> P p) ->
  pricesFrom P m -> loadRow m row = Some m' -> pricesFrom P m'.
Proof.
  intros Hrow Hm. unfold Main.loadRow.
  destruct (titleText (cmp_title row)) as [title|]; [|discriminate].
  destruct (negb (nonEmpty title)); [now intros [= <-]|].
  destruct (priceValueOf row) as [p|]; [|now intros [= <-]].
  intros [= <-]. specialize (Hrow p eq_refl).
  now repeat apply addKeyIf_pricesFrom.
Qed.

Lemma loadRow_keeps (m m' : priceMap) (row : compareRow) (key : string) :
  mapGet key m <> None -> loadRow m row = Some m' -> mapGet key m' <> None.
Proof.
  intro Hm. unfold Main.loadRow.
  destruct (titleText (cmp_title row)) as [title|]; [|discriminate].
  destruct (negb (nonEmpty title)); [now intros [= <-]|].
  destruct (priceValueOf row) as [p|]; [|now intros [= <-]].
  intros [= <-]. now repeat apply addKeyIf_keeps.
Qed.

Lemma loadRow_title (m m' : priceMap) (row : compareRow) (t : string)
    (p : float) :
  titleText (cmp_title row) = Some t -> t <> "" ->
  priceValueOf row = Some p ->
  loadRow m row = Some m' ->
  mapGet ("title:" ++ toLowerCase t) m' <> None.
Proof.
  intros Ht Hne Hp. unfold Main.loadRow. rewrite Ht, Hp.
  assert (Hn : nonEmpty t = true) by (destruct t; [contradiction|reflexivity]).
  rewrite Hn. cbn [negb]. intros [= <-].
  do 3 apply addKeyIf_keeps. rewrite mapGet_addKeyIf.
  assert (Hl : nonEmpty (toLowerCase t) = true)
    by now apply lowered_nonEmpty.
  rewrite Hl, String.eqb_refl. discriminate.
Qed.

Lemma loadRows_pricesFrom (P : float -> Prop) (rows : list compareRow)
    (m m' : priceMap) :
  (forall row p, In row rows -> priceValueOf row = Some p -> P p) ->
  pricesFrom P m -> loadRows rows m = Some m' -> pricesFrom P m'.
Proof.
  revert m. induction rows as [|row rest IH]; intros m Hrows Hm;
    cbn [Main.loadRows].
  - now intros [= <-].
  - destruct (loadRow m row) as [m1|] eqn:E; [|discriminate].
    apply IH.
    + intros r p Hr. apply Hrows. now right.
    + apply (loadRow_pricesFrom P m m1 row); [|exact Hm|exact E].
      intros p. apply Hrows. now left.
Qed.

Lemma loadRows_keeps (rows : list compareRow) (m m' : priceMap)
    (key : string) :
  mapGet key m <> None -> loadRows rows m = Some m' ->
  mapGet key m' <> None.
Proof.
  revert m. induction rows as [|row rest IH]; intros m Hm;
    cbn [Main.loadRows].
  - now intros [= <-].
  - destruct (loadRow m row) as [m1|] eqn:E; [|discriminate].
    apply IH. now apply (loadRow_keeps m m1 row).
Qed.

Lemma loadRows_title (rows : list compareRow) (m m' : priceMap)
    (row : compareRow) (t : string) (p : float) :
  In row rows ->
  titleText (cmp_title row) = Some t -> t <> "" ->
  priceValueOf row = Some p ->
  loadRows rows m = Some m' ->
  mapGet ("title:" ++ toLowerCase t) m' <> None.
Proof.
  intros Hin Ht Hne Hp. revert m.
  induction rows as [|r rest IH]; intros m; [destruct Hin|].
  cbn [Main.loadRows]. destruct (loadRow m r) as [m1|] eqn:E; [|discriminate].
  destruct Hin as [->|Hin].
  - intro H. apply (loadRows_keeps rest m1 m'); [|exact H].
    now apply (loadRow_title m m1 row t p).
  - now apply IH.
Qed.

Lemma grab_pricesFrom (P : float -> Prop) (m : priceMap) (key : string)
    (q : float) :
  pricesFrom P m -> grab m key = Some q -> P q.
Proof.
  intro Hm. unfold grab. destruct (nonEmpty key); [apply Hm|discriminate].
Qed.

(** X22.  After a comparison file is loaded without a row that throws,
    every item whose title is, up to letter case and the blanks around
    it, the title of a row with a price gets a compare price from the
    lookup, and the price is that of a row of the file. *)
Theorem lookupComparePrice_finds_title (rows : list compareRow)
    (row : compareRow) (t : string) (p : float) (title : string)
    (site url : jsval) :
  loadRows rows [] <> None ->
  In row rows ->
  titleText (cmp_title row) = Some t -> t <> "" ->
  priceValueOf row = Some p ->
  toLowerCase (trim title) = toLowerCase t ->
  exists q row',
    lookupComparePrice (loadComparison rows) (JStr title) site url
    = Some (Some q)
    /\ In row' rows /\ priceValueOf row' = Some q.
Proof.
  intros Hload Hin Ht Hne Hp Htitle.
  unfold Main.loadComparison.
  destruct (loadRows rows []) as [m|] eqn:Em; [|contradiction].
  set (P := fun q => exists row', In row' rows /\ priceValueOf row' = Some q).
  assert (Hfrom : pricesFrom P m).
  { apply (loadRows_pricesFrom P rows [] m); [| |exact Em].
    - intros r q Hr Hq. now exists r.
    - intros key q H. discriminate H. }
  pose proof (loadRows_title rows [] m row t p Hin Ht Hne Hp Em) as Hkey.
  assert (Htext : titleText (JStr title) = Some (trim title)).
  { unfold Main.titleText, orElse. cbn [truthy].
    destruct (String.eqb title "") eqn:E; [|reflexivity].
    apply String.eqb_eq in E. now subst title. }
  unfold Main.lookupComparePrice. rewrite Htext, Htitle.
  assert (Hl : nonEmpty (toLowerCase t) = true)
    by now apply lowered_nonEmpty.
  set (g1 := grab m _). set (g2 := grab m _).
  assert (Hg3 : exists q, grab m (andText (toLowerCase t)
                                    ("title:" ++ toLowerCase t)) = Some q).
  { unfold andText, grab. rewrite Hl. cbn [append nonEmpty String.eqb negb].
    destruct (mapGet ("title:" ++ toLowerCase t) m) as [q|] eqn:E;
      [now exists q|contradiction]. }
  destruct Hg3 as [q3 Hg3].
  assert (Hfirst : exists q, orLookup (orLookup g1 g2)
                               (grab m (andText (toLowerCase t)
                                          ("title:" ++ toLowerCase t)))
                             = Some q /\ P q).
  { destruct g1 as [q1|] eqn:E1.
    - exists q1. split; [reflexivity|]. now apply (grab_pricesFrom P m _ q1 Hfrom E1).
    - destruct g2 as [q2|] eqn:E2.
      + exists q2. split; [reflexivity|].
        now apply (grab_pricesFrom P m _ q2 Hfrom E2).
      + exists q3. split; [exact Hg3|].
        now apply (grab_pricesFrom P m _ q3 Hfrom Hg3). }
  destruct Hfirst as (q & Hq & row' & Hr & Hpr).
  exists q, row'. rewrite Hq. cbn [orLookup]. now repeat split.
Qed.

End Comparison.

Lemma lookupComparePrice_finds_title_witness :
  exists q row',
    Main.lookupComparePrice Host.numberToString trim toLowerCase
      toLowerCase toLowerCase
      (Main.loadComparison Host.numberToString trim toLowerCase
         toLowerCase toLowerCase
         [ {| cmp_title := JStr " OLED Assembly ";
              cmp_price := JStr "$85.50";
              cmp_site := JUndefined;
              cmp_source := JStr "txparts";
              cmp_url := JNull |} ])
      (JStr "oled assembly") JUndefined (JStr "https://shop.example/oled")
    = Some (Some q)
    /\ In row'
         [ {| cmp_title := JStr " OLED Assembly ";
              cmp_price := JStr "$85.50";
              cmp_site := JUndefined;
              cmp_source := JStr "txparts";
              cmp_url := JNull |} ]
    /\ Main.priceValueOf Host.numberToString row' = Some q.
Proof.
  apply (lookupComparePrice_finds_title Host.numberToString trim
           toLowerCase toLowerCase toLowerCase toLowerCase_nonempty _
           {| cmp_title := JStr " OLED Assembly ";
              cmp_price := JStr "$85.50";
              cmp_site := JUndefined;
              cmp_source := JStr "txparts";
              cmp_url := JNull |}
           "OLED Assembly" (ofDecimal false 8550 (-2))).
  - discriminate.
  - now left.
  - reflexivity.
  - discriminate.
  - reflexivity.
  - reflexivity.
Defined.

(* ----------------------------------------------------------------- *)
(** *** The watchlist and the keyword chips *)

Lemma sameValueZero_JStr (k : string) (x : jsval) :
  sameValueZero (JStr k) x
  = match x with JStr y => String.eqb k y | _ => false end.
Proof. now destruct x. Qed.

Lemma has_setDelete (s : list jsval) (k k' : string) :
  has (setDelete s (JStr k)) k' = has s k' && negb (String.eqb k k').
Proof.
  unfold has, setDelete. induction s as [|x t IH]; [reflexivity|].
  cbn [filter existsb]. rewrite !sameValueZero_JStr.
  destruct x as [| |b|n|y]; cbn [negb existsb orb];
    rewrite ?sameValueZero_JStr; try exact IH.
  destruct (String.eqb_spec k y) as [->|Hky]; cbn [negb].
  - rewrite IH. destruct (String.eqb_spec k' y) as [->|Hk'].
    + rewrite String.eqb_refl. cbn [negb]. now rewrite andb_false_r.
    + reflexivity.
  - cbn [existsb]. rewrite sameValueZero_JStr, IH.
    destruct (String.eqb_spec k' y) as [->|Hk']; [|reflexivity].
    cbn [orb]. destruct (String.eqb_spec k y); [contradiction|reflexivity].
Qed.

Section Watchlist.
Variable numberToString : float -> string.
Abbreviation safeKeyOf u := (Main.escapeHtml numberToString (JStr u)).
Abbreviation isWatched := (Main.isWatched numberToString).
Abbreviation toggleWatch := (Main.toggleWatch numberToString).

(** X23.  A click on the star of a row flips the star: a row that was
    watched, under its address or under the escaped form of it, is
    watched no more, and a row that was not is watched; the star of a row
    whose two keys are other than the two of the clicked row stays as it
    was. *)
Theorem toggleWatch_flips (watch : list jsval) (u : string) :
  isWatched (toggleWatch watch u) u = negb (isWatched watch u)
  /\ (forall u',
        u' <> u -> u' <> safeKeyOf u ->
        safeKeyOf u' <> u -> safeKeyOf u' <> safeKeyOf u ->
        isWatched (toggleWatch watch u) u' = isWatched watch u').
Proof.
  unfold Main.isWatched, Main.toggleWatch. split.
  - destruct (has watch u || has watch (safeKeyOf u)) eqn:E; cbn [negb].
    + rewrite !has_setDelete, !String.eqb_refl. cbn [negb].
      now rewrite !andb_false_r.
    + now rewrite has_setAdd, String.eqb_refl.
  - intros u' H1 H2 H3 H4.
    assert (E1 : String.eqb u u' = false) by (apply String.eqb_neq; congruence).
    assert (E2 : String.eqb (safeKeyOf u) u' = false)
      by (apply String.eqb_neq; congruence).
    assert (E3 : String.eqb u (safeKeyOf u') = false)
      by (apply String.eqb_neq; congruence).
    assert (E4 : String.eqb (safeKeyOf u) (safeKeyOf u') = false)
      by (apply String.eqb_neq; congruence).
    assert (E5 : String.eqb u' u = false) by (now apply String.eqb_neq).
    assert (E6 : String.eqb (safeKeyOf u') u = false)
      by (now apply String.eqb_neq).
    destruct (has watch u || has watch (safeKeyOf u)).
    + rewrite !has_setDelete, E1, E2, E3, E4. cbn [negb].
      now rewrite !andb_true_r.
    + rewrite !has_setAdd, !has_setDelete, E2, E4, E5, E6. cbn [negb orb].
      now rewrite !andb_true_r.
Qed.

End Watchlist.

Lemma trim_idem (s : string) : trim (trim s) = trim s.
Proof.
  apply trim_fixed; [apply headKept_trim|].
  unfold trim, trimEnd. apply dropWhileEnd_idem.
Qed.

Lemma removeFirst_In (text x : string) (keywords : list string) :
  In x (removeFirst text keywords) -> In x keywords.
Proof.
  induction keywords as [|k rest IH]; [intros []|].
  cbn [removeFirst]. destruct (String.eqb k text); [now right|].
  intros [->|H]; [now left|right; now apply IH].
Qed.

Lemma removeFirst_NoDup (text : string) (keywords : list string) :
  NoDup keywords -> NoDup (removeFirst text keywords).
Proof.
  induction keywords as [|k rest IH]; [trivial|].
  intro H. apply NoDup_cons_iff in H as [Hk Hrest].
  cbn [removeFirst]. destruct (String.eqb k text); [exact Hrest|].
  constructor; [|now apply IH].
  intro Hin. apply Hk. now apply (removeFirst_In text).
Qed.

(** What holds of the keywords at every moment. *)
Lemma chipStep_keeps (keywords : list string) (ev : chipEvent) :
  NoDup keywords /\ Forall (fun k => k <> "" /\ trim k = k) keywords ->
  NoDup (chipStep keywords ev)
  /\ Forall (fun k => k <> "" /\ trim k = k) (chipStep keywords ev).
Proof.
  intros [Hn Hf]. destruct ev as [inputValue|text]; cbn [chipStep].
  - unfold addKeyword.
    destruct (nonEmpty (trim inputValue)) eqn:En; [|now split].
    destruct (existsb (String.eqb (trim inputValue)) keywords) eqn:Ee;
      [now split|].
    cbn [negb andb]. split.
    + apply (Permutation_NoDup (Permutation_cons_append _ _)).
      constructor; [|exact Hn].
      intro Hin. assert (Hex : existsb (String.eqb (trim inputValue))
                                 keywords = true).
      { apply existsb_exists. exists (trim inputValue).
        split; [exact Hin|apply String.eqb_refl]. }
      congruence.
    + apply Forall_app. split; [exact Hf|]. constructor; [|constructor].
      split; [|apply trim_idem].
      intro E. rewrite E in En. discriminate En.
  - split; [now apply removeFirst_NoDup|].
    rewrite Forall_forall in *. intros x Hx.
    apply Hf. now apply (removeFirst_In text).
Qed.

(** X24.  Whatever is typed into the keyword input and whichever chips
    are removed, the keywords never hold the same text twice, and each of
    them is a text that is not empty and has no blank at either end. *)
Theorem keywordsAfter_distinct (events : list chipEvent) :
  NoDup (keywordsAfter events)
  /\ Forall (fun k => k <> "" /\ trim k = k) (keywordsAfter events).
Proof.
  unfold keywordsAfter.
  assert (H : NoDup (@nil string)
              /\ Forall (fun k => k <> "" /\ trim k = k) (@nil string))
    by (split; constructor).
  revert H. generalize (@nil string) as keywords.
  induction events as [|ev rest IH]; intros keywords H; [exact H|].
  cbn [fold_left]. apply IH. now apply chipStep_keeps.
Qed.

(* ----------------------------------------------------------------- *)
(** *** The CSV text *)

Abbreviation doubled s := (replaceChar dquoteChar (dquote ++ dquote) s).

(** The lines of a table and the text of one line, on the texts of the
    cells. *)
Abbreviation lineOf cells := (join "," (map quoteText cells)).
Abbreviation textOfTable rows :=
  (join newline (map (fun cells => lineOf cells) rows)).

Lemma doubled_closed (a b r1 r2 : string) :
  doubled a ++ String dquoteChar r1 = doubled b ++ String dquoteChar r2 ->
  headKept isQuote r1 = true -> headKept isQuote r2 = true ->
  a = b /\ r1 = r2.
Proof.
  revert b. induction a as [|c a' IH]; intros [|c' b'];
    cbn [replaceChar append]; intros H H1 H2.
  - injection H as H. now split.
  - exfalso. destruct (Ascii.eqb_spec c' dquoteChar) as [->|Hc].
    + cbn [dquote append] in H. injection H as H. rewrite H in H1.
      discriminate H1.
    + cbn [append] in H. injection H as H _. now apply Hc.
  - exfalso. destruct (Ascii.eqb_spec c dquoteChar) as [->|Hc].
    + cbn [dquote append] in H. injection H as H. rewrite <- H in H2.
      discriminate H2.
    + cbn [append] in H. injection H as H _. now apply Hc.
  - destruct (Ascii.eqb_spec c dquoteChar) as [->|Hc];
      destruct (Ascii.eqb_spec c' dquoteChar) as [->|Hc'];
      cbn [dquote append] in H.
    + injection H as H. destruct (IH b' H H1 H2) as [-> ->]. now split.
    + exfalso. injection H as H _. now apply Hc'.
    + exfalso. injection H as H _. now apply Hc.
    + injection H as -> H. destruct (IH b' H H1 H2) as [-> ->]. now split.
Qed.

Lemma quoteText_closed (a b r1 r2 : string) :
  quoteText a ++ r1 = quoteText b ++ r2 ->
  headKept isQuote r1 = true -> headKept isQuote r2 = true ->
  a = b /\ r1 = r2.
Proof.
  unfold quoteText. rewrite !append_assoc. cbn [dquote append].
  intros H. injection H as H. now apply doubled_closed.
Qed.

Lemma afterLine_head (r : string) : afterLine r -> headKept isQuote r = true.
Proof. intros [->|[t ->]]; reflexivity. Qed.

Lemma lineOf_closed (cs1 cs2 : list string) (r1 r2 : string) :
  cs1 <> [] -> cs2 <> [] -> afterLine r1 -> afterLine r2 ->
  lineOf cs1 ++ r1 = lineOf cs2 ++ r2 -> cs1 = cs2 /\ r1 = r2.
Proof.
  revert cs2. induction cs1 as [|a t1 IH]; intros [|b t2] N1 N2 A1 A2;
    try contradiction.
  cbn [map]. destruct t1 as [|a' t1']; destruct t2 as [|b' t2'].
  - cbn [map join]. intro H.
    apply quoteText_closed in H as [-> ->];
      [now split|now apply afterLine_head..].
  - cbn [map]. rewrite join_step. cbn [join]. rewrite !append_assoc.
    intro H. apply quoteText_closed in H as [_ H];
      [|now apply afterLine_head|reflexivity].
    exfalso. destruct A1 as [->|[x ->]]; discriminate H.
  - cbn [map]. rewrite join_step. cbn [join]. rewrite !append_assoc.
    intro H. apply quoteText_closed in H as [_ H];
      [|reflexivity|now apply afterLine_head].
    exfalso. destruct A2 as [->|[x ->]]; discriminate H.
  - cbn [map]. rewrite !join_step, !append_assoc. intro H.
    apply quoteText_closed in H as [-> H]; [|reflexivity..].
    cbn [append] in H. injection H as H.
    destruct (IH (b' :: t2') ltac:(discriminate) ltac:(discriminate) A1 A2 H)
      as [E ->].
    split; [now rewrite E|reflexivity].
Qed.

Lemma textOfTable_head (cells : list string) (rows : list (list string)) :
  cells <> [] ->
  exists x, textOfTable (cells :: rows) = String dquoteChar x.
Proof.
  intro H. destruct cells as [|c cs]; [contradiction|].
  assert (Hl : exists x, lineOf (c :: cs) = String dquoteChar x).
  { cbn [map]. destruct cs as [|c' cs'].
    - cbn [join]. unfold quoteText. cbn [dquote append]. now eexists.
    - cbn [map]. rewrite join_step. unfold quoteText at 1.
      cbn [dquote append]. now eexists. }
  destruct Hl as [x Hx]. destruct rows as [|r rs].
  - exists x. exact Hx.
  - change (textOfTable ((c :: cs) :: r :: rs))
      with (lineOf (c :: cs) ++ newline ++ textOfTable (r :: rs)).
    rewrite Hx. cbn [append]. now eexists.
Qed.

Lemma textOfTable_injective (rows1 rows2 : list (list string)) :
  Forall (fun cells => cells <> []) rows1 ->
  Forall (fun cells => cells <> []) rows2 ->
  textOfTable rows1 = textOfTable rows2 -> rows1 = rows2.
Proof.
  intros F1. revert rows2.
  induction rows1 as [|l1 t1 IH]; intros [|l2 t2] F2.
  - reflexivity.
  - apply Forall_inv in F2.
    destruct (textOfTable_head l2 t2 F2) as [x ->]. discriminate.
  - apply Forall_inv in F1.
    destruct (textOfTable_head l1 t1 F1) as [x ->]. discriminate.
  - pose proof (Forall_inv F1) as N1. pose proof (Forall_inv F2) as N2.
    apply Forall_inv_tail in F1. apply Forall_inv_tail in F2.
    cbn [map]. destruct t1 as [|l1' t1']; destruct t2 as [|l2' t2'].
    + cbn [map join]. intro H.
      rewrite <- (append_empty (lineOf l1)),
        <- (append_empty (lineOf l2)) in H.
      apply lineOf_closed in H as [-> _]; try assumption;
        [reflexivity|now left..].
    + cbn [map]. rewrite join_step. cbn [join]. intro H.
      rewrite <- (append_empty (lineOf l1)) in H.
      apply lineOf_closed in H as [_ H]; try assumption;
        [discriminate H|now left|right; eexists; reflexivity].
    + cbn [map]. rewrite join_step. cbn [join]. intro H.
      rewrite <- (append_empty (lineOf l2)) in H.
      apply lineOf_closed in H as [_ H]; try assumption;
        [discriminate H|right; eexists; reflexivity|now left].
    + cbn [map]. rewrite !join_step. intro H.
      apply lineOf_closed in H as [-> H]; try assumption;
        [|right; eexists; reflexivity..].
      cbn [newline append] in H. injection H as H.
      now rewrite (IH F1 (l2' :: t2') F2 H).
Qed.

Section Csv.
Variable numberToString : float -> string.
Abbreviation cellText := (Main.cellText numberToString).
Abbreviation toCSV := (Main.toCSV numberToString).

Lemma toCSV_texts (table : list (list jsval)) :
  toCSV table = textOfTable (map (map cellText) table).
Proof.
  unfold Main.toCSV. f_equal. rewrite map_map.
  apply map_ext. intro cols. now rewrite map_map.
Qed.

(** X25.  The CSV text tells the tables apart: two tables whose rows have
    at least one column each and whose CSV texts are the same have the
    same rows of the same cell texts, whatever commas, quotes and line
    breaks the cells hold. *)
Theorem toCSV_injective (table1 table2 : list (list jsval)) :
  Forall (fun cols => cols <> []) table1 ->
  Forall (fun cols => cols <> []) table2 ->
  toCSV table1 = toCSV table2 ->
  map (map cellText) table1 = map (map cellText) table2.
Proof.
  intros F1 F2. rewrite !toCSV_texts.
  apply textOfTable_injective.
  - rewrite Forall_map. eapply Forall_impl; [|exact F1].
    intros cols H. now destruct cols.
  - rewrite Forall_map. eapply Forall_impl; [|exact F2].
    intros cols H. now destruct cols.
Qed.

End Csv.

Lemma toCSV_injective_witness :
  map (map (Main.cellText Host.numberToString))
    [[JStr "Screen, 6.1 in"; JNum 85.5; JNull]]
  = map (map (Main.cellText Host.numberToString))
      [[JStr "Screen, 6.1 in"; JStr "85.5"; JStr ""]].
Proof.
  apply (toCSV_injective Host.numberToString
           [[JStr "Screen, 6.1 in"; JNum 85.5; JNull]]
           [[JStr "Screen, 6.1 in"; JStr "85.5"; JStr ""]]).
  - repeat constructor; discriminate.
  - repeat constructor; discriminate.
  - reflexivity.
Defined.

End MainFacts.
(* ================================================================= *)
(** ** The collation of the host is a total preorder *)

Module HostFacts.
Import JS Host.

Lemma localeCompare_total (a b : string) :
  (0 < localeCompare a b)%Z -> (localeCompare b a <= 0)%Z.
Proof.
  revert b. induction a as [|x a IH]; intros [|y b]; simpl; try lia.
  destruct (N.ltb_spec (code (lowerChar x)) (code (lowerChar y)));
    destruct (N.ltb_spec (code (lowerChar y)) (code (lowerChar x)));
    try lia.
  apply IH.
Qed.

Lemma localeCompare_trans (a b c : string) :
  (localeCompare a b <= 0)%Z -> (localeCompare b c <= 0)%Z ->
  (localeCompare a c <= 0)%Z.
Proof.
  revert b c. induction a as [|x a IH]; intros [|y b] [|z c]; simpl; try lia.
  destruct (N.ltb_spec (code (lowerChar x)) (code (lowerChar y)));
    destruct (N.ltb_spec (code (lowerChar y)) (code (lowerChar x)));
    destruct (N.ltb_spec (code (lowerChar y)) (code (lowerChar z)));
    destruct (N.ltb_spec (code (lowerChar z)) (code (lowerChar y)));
    destruct (N.ltb_spec (code (lowerChar x)) (code (lowerChar z)));
    destruct (N.ltb_spec (code (lowerChar z)) (code (lowerChar x)));
    try lia.
  apply IH.
Qed.

End HostFacts.

(* ================================================================= *)
(** ** results.js: category addresses, the title order, deltas, badges *)

Module ResultsFacts.
Import JS JSFacts Results.

Lemma isSlash_lowerChar (c : ascii) : isSlash (lowerChar c) = isSlash c.
Proof. destruct c as [[] [] [] [] [] [] [] []]; reflexivity. Qed.

Lemma trimEnd_slashes (n : nat) :
  trimEnd (repeatChar "/" n) = repeatChar "/" n.
Proof.
  unfold trimEnd. induction n as [|n IH]; simpl; [reflexivity|].
  rewrite IH. now destruct n.
Qed.

Lemma toLowerCase_strip (s : string) :
  dropWhileEnd isSlash (toLowerCase s)
  = toLowerCase (dropWhileEnd isSlash s).
Proof.
  unfold toLowerCase. symmetry.
  apply (smap_dropWhileEnd _ _ isSlash_lowerChar).
Qed.

Lemma trim_toLowerCase (s : string) :
  trim (toLowerCase s) = toLowerCase (trim s).
Proof. symmetry. apply toLowerCase_trim. Qed.

(** On a text that does not end in white space, trimming leaves slashes
    put after it in place. *)
Lemma trim_keeps_slashes (s : string) (n : nat) :
  trimEnd s = s ->
  trim (s ++ repeatChar "/" n) = trim s ++ repeatChar "/" n.
Proof.
  intro Hs.
  assert (Hts : trim s = trimStart s).
  { unfold trim, trimEnd, trimStart.
    destruct (dropWhile_suffix isSpace s) as [a Ha].
    apply (dropWhileEnd_suffix_fixed isSpace a).
    rewrite <- Ha. exact Hs. }
  destruct n as [|n].
  - simpl. now rewrite !append_empty.
  - rewrite Hts. unfold trim. unfold trimStart at 1.
    rewrite dropWhile_app_headKept by reflexivity.
    fold (trimStart s). unfold trimEnd.
    apply dropWhileEnd_app_fixed; [apply trimEnd_slashes|discriminate].
Qed.

Section Addresses.
Variable trim : string -> string.
Variable toLowerCase : string -> string.
(** What the host's [trim] and [toLowerCase] do to the empty text, that
    lower-casing a second time changes nothing, and that lower-casing
    moves no white space and no slash. *)
Hypothesis trim_nothing : trim "" = "".
Hypothesis lower_nothing : toLowerCase "" = "".
Hypothesis lower_twice :
  forall s, toLowerCase (toLowerCase s) = toLowerCase s.
Hypothesis lower_trim :
  forall s, trim (toLowerCase s) = toLowerCase (trim s).
Hypothesis lower_strip :
  forall s, dropWhileEnd isSlash (toLowerCase s)
            = toLowerCase (dropWhileEnd isSlash s).

Abbreviation normalizeCategoryUrl :=
  (Results.normalizeCategoryUrl trim toLowerCase).

(** The key of a text, the empty one too. *)
Lemma normalizeCategoryUrl_text (s : string) :
  normalizeCategoryUrl (JStr s) = toLowerCase (dropWhileEnd isSlash (trim s)).
Proof.
  unfold Results.normalizeCategoryUrl.
  destruct (String.eqb_spec s "") as [->|_]; [|reflexivity].
  rewrite trim_nothing. cbn [dropWhileEnd]. now rewrite lower_nothing.
Qed.

(** The key is the slash-stripped, trimmed lower-case text. *)
Lemma normalizeCategoryUrl_lowered (s : string) :
  normalizeCategoryUrl (JStr s) = dropWhileEnd isSlash (trim (toLowerCase s)).
Proof. now rewrite normalizeCategoryUrl_text, lower_trim, lower_strip. Qed.

(** C8, as amended.  The key of an address is a fixed point when it
    neither starts nor ends with white space, that is when [trim]
    leaves it as it is; addresses that differ in letter case alone share
    their key; and so do an address and the same address with slashes
    put after it, when trimming leaves those slashes in place, as it
    does after an address that does not end in white space. *)
Theorem normalizeCategoryUrl_canonical :
  (forall url : jsval,
      trim (normalizeCategoryUrl url) = normalizeCategoryUrl url ->
      normalizeCategoryUrl (JStr (normalizeCategoryUrl url))
      = normalizeCategoryUrl url)
  /\ (forall s t : string,
        toLowerCase t = toLowerCase s ->
        normalizeCategoryUrl (JStr t) = normalizeCategoryUrl (JStr s))
  /\ (forall s slashes : string,
        allOf isSlash slashes = true ->
        trim (s ++ slashes) = trim s ++ slashes ->
        normalizeCategoryUrl (JStr (s ++ slashes))
        = normalizeCategoryUrl (JStr s)).
Proof.
  repeat split.
  - intros url Hfixed.
    assert (Hkey : exists s, normalizeCategoryUrl url
                             = toLowerCase (dropWhileEnd isSlash (trim s))).
    { destruct url as [| | | |s];
        try (exists ""; rewrite trim_nothing; cbn;
             now rewrite lower_nothing).
      exists s. apply normalizeCategoryUrl_text. }
    destruct Hkey as [s Hkey].
    rewrite normalizeCategoryUrl_text, Hfixed, Hkey.
    now rewrite lower_strip, (dropWhileEnd_idem isSlash), lower_twice.
  - intros s t H. now rewrite !normalizeCategoryUrl_lowered, H.
  - intros s slashes Hall Hkeep.
    rewrite !normalizeCategoryUrl_text, Hkeep.
    now rewrite (dropWhileEnd_app_allOf isSlash _ _ Hall).
Qed.

End Addresses.

(** C8 as the specification words it fails: white space before the
    trailing slashes survives the first pass and falls to the second. *)
Lemma normalizeCategoryUrl_not_idempotent :
  ~ (forall url : jsval,
        Results.normalizeCategoryUrl trim toLowerCase
          (JStr (Results.normalizeCategoryUrl trim toLowerCase url))
        = Results.normalizeCategoryUrl trim toLowerCase url).
Proof.
  intro H. specialize (H (JStr "https://shop.example/cat/ /")).
  vm_compute in H. discriminate H.
Qed.

Lemma normalizeCategoryUrl_canonical_witness :
  Results.normalizeCategoryUrl trim toLowerCase
      (JStr (Results.normalizeCategoryUrl trim toLowerCase
               (JStr " HTTPS://Shop.Example/Cat// ")))
    = "https://shop.example/cat"
  /\ Results.normalizeCategoryUrl trim toLowerCase
       (JStr "https://shop.example/cat")
     = Results.normalizeCategoryUrl trim toLowerCase
         (JStr "HTTPS://Shop.Example/Cat")
  /\ Results.normalizeCategoryUrl trim toLowerCase
       (JStr ("HTTPS://Shop.Example/Cat" ++ "//"))
     = Results.normalizeCategoryUrl trim toLowerCase
         (JStr "HTTPS://Shop.Example/Cat").
Proof.
  destruct (normalizeCategoryUrl_canonical trim toLowerCase eq_refl eq_refl
              toLowerCase_idem trim_toLowerCase toLowerCase_strip)
    as [H1 [H2 H3]].
  split; [|split].
  - exact (H1 (JStr " HTTPS://Shop.Example/Cat// ") eq_refl).
  - exact (H2 "HTTPS://Shop.Example/Cat" "https://shop.example/cat" eq_refl).
  - exact (H3 "HTTPS://Shop.Example/Cat" "//" eq_refl
             (trim_keeps_slashes "HTTPS://Shop.Example/Cat" 2 eq_refl)).
Defined.

Section Deltas.
Variable numberToString : float -> string.
Variable currencyFormat : float -> string.
Variable trim : string -> string.
Variable toLowerCase : string -> string.
Abbreviation stringToNumber := (JS.stringToNumber trim).
Abbreviation toNumber := (JS.toNumber trim).
Abbreviation typeOf := (Results.typeOf numberToString toLowerCase).
Abbreviation firstNumeric := (Results.firstNumeric trim).
Abbreviation resolveChangeValue :=
  (Results.resolveChangeValue numberToString currencyFormat trim toLowerCase).
Abbreviation deltaNumber :=
  (Results.deltaNumber numberToString currencyFormat trim toLowerCase).
Abbreviation formatDelta :=
  (Results.formatDelta numberToString currencyFormat trim toLowerCase).
Abbreviation formatCurrency := (Results.formatCurrency currencyFormat).
Abbreviation priceBadge :=
  (Results.priceBadge numberToString currencyFormat trim toLowerCase).
Abbreviation stockBadge := (Results.stockBadge numberToString toLowerCase).
Abbreviation buildDifferenceBadge :=
  (Results.buildDifferenceBadge numberToString currencyFormat trim
     toLowerCase).
Abbreviation describeDifference :=
  (Results.describeDifference numberToString currencyFormat trim toLowerCase).
Abbreviation getBaselineLabel :=
  (Results.getBaselineLabel numberToString toLowerCase).
Abbreviation getBaselineDescription :=
  (Results.getBaselineDescription numberToString toLowerCase).

(** A number [resolveChangeValue] found is finite. *)
Lemma firstNumeric_finite (candidates : list string) (x : float) :
  firstNumeric candidates = Some x -> isFinite x = true.
Proof.
  induction candidates as [|c rest IH]; simpl; [discriminate|].
  destruct (String.eqb (sfilter numericChar c) ""); [exact IH|].
  destruct (isFinite (stringToNumber (sfilter numericChar c))) eqn:E;
    [|exact IH].
  intro H. injection H as <-. exact E.
Qed.

Lemma resolveChangeValue_finite (c : change) (sd : side) (x : float) :
  numeric (resolveChangeValue (Some c) sd) = Some x -> isFinite x = true.
Proof.
  unfold Results.resolveChangeValue. simpl.
  destruct (nullish (structuredFieldOf c sd)).
  - destruct (String.eqb (typeOf c) "price"); [|discriminate].
    apply firstNumeric_finite.
  - destruct (Nat.ltb 0 _).
    + destruct (isFinite (toNumber (structuredFieldOf c sd))) eqn:E.
      * intro H. injection H as <-. exact E.
      * destruct (String.eqb (typeOf c) "price"); [|discriminate].
        apply firstNumeric_finite.
    + destruct (String.eqb (typeOf c) "price"); [|discriminate].
      apply firstNumeric_finite.
Qed.

(** The stored difference is the delta whenever its conversion to a
    number is finite. *)
Lemma deltaNumber_stored (c : change) :
  isFinite (toNumber (difference c)) = true ->
  deltaNumber c = toNumber (difference c).
Proof. unfold Results.deltaNumber. now intros ->. Qed.

(** X5.  Otherwise the delta is the new number less the old one. *)
Lemma deltaNumber_computed (c : change) (n o : float) :
  isFinite (toNumber (difference c)) = false ->
  numeric (resolveChangeValue (Some c) New) = Some n ->
  numeric (resolveChangeValue (Some c) Old) = Some o ->
  deltaNumber c = (n - o)%float.
Proof.
  intros Hd Hn Ho. unfold Results.deltaNumber, finiteNumeric, numericOrZero.
  rewrite Hd, Hn, Ho. simpl.
  now rewrite (resolveChangeValue_finite _ _ _ Hn),
    (resolveChangeValue_finite _ _ _ Ho).
Qed.


(** A record that is not a baseline never gets the baseline mark, nor
    the baseline wording. *)
Lemma plain_badge_unmarked (c : change) (asText : bool) (b : badge) :
  truthy (is_baseline c) = false ->
  buildDifferenceBadge (Some c) asText = Some b ->
  dataset_baseline b = None /\ textContent b <> "First snapshot".
Proof.
  intros Hbase. unfold Results.buildDifferenceBadge. rewrite Hbase.
  destruct (truthy (change_type c)); simpl; [|discriminate].
  destruct (String.eqb _ "price").
  { unfold Results.priceBadge.
    destruct (negb (isFinite (toNumber (difference c)))).
    - destruct (numeric (resolveChangeValue (Some c) New)) as [n|];
        [|discriminate].
      destruct (numeric (resolveChangeValue (Some c) Old)) as [o|];
        [|discriminate].
      destruct (negb (isFinite (n - o)) || (n - o =? 0)%float);
        [discriminate|].
      intro H. injection H as <-. simpl.
      split; [reflexivity|]. destruct (0 <? n - o)%float; discriminate.
    - destruct (negb (isFinite (toNumber (difference c)))
                || (toNumber (difference c) =? 0)%float); [discriminate|].
      intro H. injection H as <-. simpl.
      split; [reflexivity|].
      destruct (0 <? toNumber (difference c))%float; discriminate. }
  destruct (String.eqb _ "stock").
  { unfold Results.stockBadge.
    destruct (String.eqb _ "" && String.eqb _ ""); [discriminate|].
    repeat match goal with
           | |- context [if ?x then _ else _] => destruct x
           end;
      intro H; injection H as <-; simpl; split;
      try reflexivity; discriminate. }
  destruct (String.eqb _ "description"); [|discriminate].
  intro H. injection H as <-. simpl. split; [reflexivity|discriminate].
Qed.

(** [buildDifferenceBadge] and [describeDifference], which nothing on
    the page calls: a record marked as baseline, of whatever type,
    difference and values, gets the baseline badge with the baseline
    label and the wording of a first snapshot; a record not so marked
    gets neither the mark nor the wording. *)
Lemma baseline_badge_before_delta (c : change) (asText : bool) :
  truthy (is_baseline c) = true ->
  truthy (change_type c) = true ->
  buildDifferenceBadge (Some c) asText
    = Some {| className := deltaClass asText "new";
              textContent := getBaselineLabel c;
              badge_title := getBaselineDescription c;
              dataset_baseline := Some "true";
              dataset_direction := None |}
  /\ describeDifference (Some c) = Some "First snapshot"
  /\ (forall (c' : change) (asText' : bool) (b : badge),
        truthy (is_baseline c') = false ->
        describeDifference (Some c') <> Some "First snapshot"
        /\ (buildDifferenceBadge (Some c') asText' = Some b ->
            dataset_baseline b = None)).
Proof.
  intros Hbase Htype. repeat split.
  - unfold Results.buildDifferenceBadge. now rewrite Htype, Hbase.
  - unfold Results.describeDifference. now rewrite Hbase.
  - unfold Results.describeDifference. rewrite H.
    destruct (buildDifferenceBadge (Some c') true) as [b'|] eqn:E;
      [|discriminate].
    destruct (plain_badge_unmarked c' true b' H E) as [_ Hword].
    destruct (String.eqb (textContent b') ""); [discriminate|].
    intro Heq. injection Heq as Heq. now apply Hword.
  - intro E. now destruct (plain_badge_unmarked c' asText' b H E).
Qed.

End Deltas.

Section Facts.
Variable numberToString : float -> string.
Variable currencyFormat : float -> string.
Variable localeCompare : string -> string -> Z.
Variable toLowerCase : string -> string.

Abbreviation titleOf := (Results.titleOf numberToString).
Abbreviation titleKey := (Results.titleKey numberToString toLowerCase).
Abbreviation titleCompare :=
  (Results.titleCompare numberToString localeCompare toLowerCase).
Abbreviation sortChanges :=
  (Results.sortChanges numberToString localeCompare toLowerCase).

Section TitleOrder.
Hypothesis localeCompare_total :
  forall a b, (0 < localeCompare a b)%Z -> (localeCompare b a <= 0)%Z.
Hypothesis localeCompare_trans :
  forall a b c, (localeCompare a b <= 0)%Z -> (localeCompare b c <= 0)%Z ->
                (localeCompare a c <= 0)%Z.

Lemma titleCompare_total (a b : change) :
  (0 < titleCompare a b)%Z -> (titleCompare b a <= 0)%Z.
Proof.
  unfold Results.titleCompare.
  destruct (String.eqb (titleKey a) ""), (String.eqb (titleKey b) "");
    simpl; try lia.
  apply localeCompare_total.
Qed.

Lemma titleCompare_trans (a b c : change) :
  (titleCompare a b <= 0)%Z -> (titleCompare b c <= 0)%Z ->
  (titleCompare a c <= 0)%Z.
Proof.
  unfold Results.titleCompare.
  destruct (String.eqb (titleKey a) ""), (String.eqb (titleKey b) ""),
    (String.eqb (titleKey c) ""); simpl; try lia.
  apply localeCompare_trans.
Qed.

(** Records whose titles differ in letter case alone are equals of the
    comparator. *)
Lemma titleCompare_same_key (a b : change) :
  titleKey a = titleKey b ->
  (titleCompare a b <= 0)%Z /\ (titleCompare b a <= 0)%Z.
Proof.
  intro H. unfold Results.titleCompare. rewrite H.
  destruct (String.eqb (titleKey b) ""); simpl; [lia|].
  destruct (Z_le_gt_dec (localeCompare (titleKey b) (titleKey b)) 0) as [Hle|Hgt].
  - now split.
  - assert (localeCompare (titleKey b) (titleKey b) <= 0)%Z
      by (apply localeCompare_total; lia).
    lia.
Qed.

(** C7.  With a collation that is a total preorder, the title mode
    gives a rearrangement of the list in which every record stands
    before the records the comparator puts after it.  The comparator is
    the collation of the titles put in lower case: records whose titles
    are the same text once in lower case are equals of it, whatever
    their letter case, and in the sorted list no record whose title is
    empty stands before one that has a title.  Any other mode gives the
    list back. *)
Theorem sortChanges_title_order (items : list change) :
  Permutation items (sortChanges "title" (Some items))
  /\ StronglySorted (ordered titleCompare) (sortChanges "title" (Some items))
  /\ (forall a b,
        toLowerCase (titleOf a) <> "" -> toLowerCase (titleOf b) <> "" ->
        titleCompare a b
        = localeCompare (toLowerCase (titleOf a)) (toLowerCase (titleOf b)))
  /\ (forall a b,
        toLowerCase (titleOf a) = toLowerCase (titleOf b) ->
        ordered titleCompare a b /\ ordered titleCompare b a)
  /\ (forall before a between b rest,
        sortChanges "title" (Some items)
          = (before ++ a :: between ++ b :: rest)%list ->
        toLowerCase (titleOf a) = "" -> toLowerCase (titleOf b) = "")
  /\ (forall sortMode,
        sortMode <> "title" -> sortChanges sortMode (Some items) = items).
Proof.
  assert (Hperm : Permutation items (sortChanges "title" (Some items))).
  { destruct items as [|x t]; [reflexivity|]. apply arraySort_Permutation. }
  assert (Hsorted :
    StronglySorted (ordered titleCompare) (sortChanges "title" (Some items))).
  { destruct items as [|x t]; [constructor|].
    apply arraySort_StronglySorted.
    - exact titleCompare_total.
    - exact titleCompare_trans. }
  split; [exact Hperm|]. split; [exact Hsorted|].
  split; [|split; [|split]].
  - intros a b Ha Hb. unfold Results.titleCompare, Results.titleKey.
    destruct (String.eqb_spec (toLowerCase (titleOf a)) "");
      [now contradiction Ha|].
    destruct (String.eqb_spec (toLowerCase (titleOf b)) "");
      [now contradiction Hb|].
    reflexivity.
  - intros a b H. now apply titleCompare_same_key.
  - intros before a between b rest Heq Ha.
    rewrite Heq in Hsorted. apply StronglySorted_later in Hsorted.
    unfold ordered, Results.titleCompare, Results.titleKey in Hsorted.
    rewrite Ha in Hsorted. simpl in Hsorted.
    destruct (String.eqb_spec (toLowerCase (titleOf b)) "") as [E|_];
      [exact E|].
    simpl in Hsorted. lia.
  - intros sortMode Hmode. unfold Results.sortChanges.
    destruct items as [|x t]; [reflexivity|].
    destruct (String.eqb_spec sortMode "title") as [E|_];
      [now contradiction Hmode|reflexivity].
Qed.

End TitleOrder.

End Facts.

Lemma sortChanges_title_order_witness :
  Permutation
    [titled (JStr "iPhone 12 LCD"); titled JNull; titled (JStr "Galaxy S21");
     titled (JStr "IPHONE 12 lcd")]
    (Results.sortChanges Host.numberToString Host.localeCompare toLowerCase
       "title"
       (Some [titled (JStr "iPhone 12 LCD"); titled JNull;
              titled (JStr "Galaxy S21"); titled (JStr "IPHONE 12 lcd")]))
  /\ Results.sortChanges Host.numberToString Host.localeCompare toLowerCase
       "title"
       (Some [titled (JStr "iPhone 12 LCD"); titled JNull;
              titled (JStr "Galaxy S21"); titled (JStr "IPHONE 12 lcd")])
     = [titled (JStr "Galaxy S21"); titled (JStr "iPhone 12 LCD");
        titled (JStr "IPHONE 12 lcd"); titled JNull]
  /\ ordered (Results.titleCompare Host.numberToString Host.localeCompare
                toLowerCase)
       (titled (JStr "IPHONE 12 lcd")) (titled (JStr "iPhone 12 LCD")).
Proof.
  pose proof (sortChanges_title_order Host.numberToString
                Host.localeCompare toLowerCase HostFacts.localeCompare_total
                HostFacts.localeCompare_trans
                [titled (JStr "iPhone 12 LCD"); titled JNull;
                 titled (JStr "Galaxy S21"); titled (JStr "IPHONE 12 lcd")])
    as (Hperm & _ & _ & Hcase & _ & _).
  split; [exact Hperm|]. split; [reflexivity|].
  exact (proj1 (Hcase (titled (JStr "IPHONE 12 lcd"))
                  (titled (JStr "iPhone 12 LCD")) eq_refl)).
Defined.

Lemma deltaNumber_computed_witness :
  Results.deltaNumber Host.numberToString Host.currencyFormat trim
    toLowerCase (priceDrop JUndefined) = (-14.5)%float.
Proof.
  exact (deltaNumber_computed Host.numberToString Host.currencyFormat trim
           toLowerCase (priceDrop JUndefined) 85.5 100 eq_refl eq_refl
           eq_refl).
Defined.

(** C1.  A stored difference of [null] converts to zero, which is
    finite: the delta of new less old, -14.5 here, is never computed and
    nothing is reported; with the field absent the same record reports
    the fall. *)
Theorem formatDelta_null_difference :
  forall numberToString currencyFormat : float -> string,
    numeric (Results.resolveChangeValue numberToString currencyFormat
               trim toLowerCase (Some (priceDrop JNull)) New)
    = Some 85.5%float
    /\ numeric (Results.resolveChangeValue numberToString currencyFormat
                  trim toLowerCase (Some (priceDrop JNull)) Old)
       = Some 100%float
    /\ Results.deltaNumber numberToString currencyFormat trim toLowerCase
         (priceDrop JNull)
       = 0%float
    /\ Results.formatDelta numberToString currencyFormat trim toLowerCase
         (Some (priceDrop JNull)) = None
    /\ Results.formatDelta numberToString currencyFormat trim toLowerCase
         (Some (priceDrop JUndefined))
       = Some {| delta_text := "-" ++ currencyFormat 14.5%float;
                 delta_direction := "down";
                 delta_title :=
                   "Price decreased by " ++ currencyFormat 14.5%float |}.
Proof.
  intros numberToString currencyFormat.
  repeat split; vm_compute; reflexivity.
Qed.

(* ----------------------------------------------------------------- *)
(** *** What the page shows of a change *)

Section Rendering.
Variable numberToString : float -> string.
Variable currencyFormat : float -> string.
Variable trim : string -> string.
Variable toLowerCase : string -> string.
Abbreviation typeOf := (Results.typeOf numberToString toLowerCase).
Abbreviation deltaNumber :=
  (Results.deltaNumber numberToString currencyFormat trim toLowerCase).
Abbreviation formatDelta :=
  (Results.formatDelta numberToString currencyFormat trim toLowerCase).
Abbreviation getChangeLabel :=
  (Results.getChangeLabel numberToString currencyFormat trim toLowerCase).
Abbreviation buildDeltaCell :=
  (Results.buildDeltaCell numberToString currencyFormat trim toLowerCase).
Abbreviation buildChangesRow :=
  (Results.buildChangesRow numberToString currencyFormat trim toLowerCase).
Abbreviation buildChangeCard :=
  (Results.buildChangeCard numberToString currencyFormat trim toLowerCase).



End Rendering.



(** [buildDifferenceBadge], which nothing on the page calls, compares
    with zero: of a stored difference of 2^-54, far below the threshold,
    it makes a badge of a rise. *)
Lemma tiny_difference_badge :
  forall numberToString currencyFormat : float -> string,
    (abs 0x1p-54 <? epsilon)%float = true
    /\ Results.buildDifferenceBadge numberToString currencyFormat trim
         toLowerCase (Some (priceDrop (JNum 0x1p-54))) false
       = Some {| className := "change-card__delta change-card__delta--up";
                 textContent := "+" ++ currencyFormat 0x1p-54%float;
                 badge_title :=
                   "Price increased by " ++ currencyFormat 0x1p-54%float;
                 dataset_baseline := None;
                 dataset_direction := Some "up" |}.
Proof.
  intros numberToString currencyFormat.
  repeat split; vm_compute; reflexivity.
Qed.

(** C5.  Neither the card nor the row of the table reads [is_baseline]:
    a record and the same record with the mark set, or taken off, are
    shown alike.  The first price of a product, marked as baseline, is
    shown as a change of price, its label [Price changed], and with a
    stored difference it carries the delta badge of a rise; the baseline
    badge [New Price] and the wording [First price captured] are those
    of [buildDifferenceBadge] and [describeChange], which nothing on
    the page calls.  The banner of a first run shows only when every
    record of the page is a baseline. *)
Theorem baseline_card_unmarked :
  (forall (numberToString currencyFormat : float -> string)
          (trim toLowerCase : string -> string)
          (change_label fallbackStock flag : jsval) (c : change),
      Results.buildChangeCard numberToString currencyFormat trim
        toLowerCase change_label (withBaseline flag c)
      = Results.buildChangeCard numberToString currencyFormat trim
          toLowerCase change_label c
      /\ Results.buildChangesRow numberToString currencyFormat trim
           toLowerCase change_label fallbackStock (withBaseline flag c)
         = Results.buildChangesRow numberToString currencyFormat trim
             toLowerCase change_label fallbackStock c)
  /\ Results.buildChangeCard Host.numberToString Host.currencyFormat trim
       toLowerCase JUndefined (firstPrice JNull)
     = {| card_type := "price";
          card_badge := TypeText "Price";
          card_delta := None;
          card_label := JStr "Price changed";
          card_old := "Old: —";
          card_new := "New: $19.50";
          card_delta_item := None |}
  /\ Results.buildChangeCard Host.numberToString Host.currencyFormat trim
       toLowerCase JUndefined (firstPrice (JNum 19.5))
     = {| card_type := "price";
          card_badge := TypeText "Price";
          card_delta :=
            Some {| mark_text := "+$19.50";
                    mark_direction := Some "up";
                    mark_title := Some "Price increased by $19.50" |};
          card_label := JStr "Price increased";
          card_old := "Old: —";
          card_new := "New: $19.50";
          card_delta_item := Some "+$19.50" |}
  /\ Results.buildDifferenceBadge Host.numberToString Host.currencyFormat
       trim toLowerCase (Some (firstPrice JNull)) false
     = Some {| className := "change-card__delta change-card__delta--new";
               textContent := "New Price";
               badge_title :=
                 "First price snapshot captured for this product.";
               dataset_baseline := Some "true";
               dataset_direction := None |}
  /\ Results.describeChange Host.numberToString Host.currencyFormat trim
       toLowerCase (Some (firstPrice JNull)) = "First price captured"
  /\ isBaselineOnly (Some [firstPrice JNull; priceDrop (JNum (-14.5))])
     = false
  /\ isBaselineOnly (Some [firstPrice JNull; firstPrice (JNum 19.5)])
     = true.
Proof.
  split; [|repeat split; vm_compute; reflexivity].
  intros numberToString currencyFormat trim toLowerCase change_label
    fallbackStock flag c.
  split; reflexivity.
Qed.

(* ----------------------------------------------------------------- *)
(** *** The wording of a price change *)

Lemma zero_below_epsilon (x : float) :
  (x =? 0)%float = true -> (abs x <? epsilon)%float = true.
Proof.
  rewrite FloatAxioms.eqb_spec, FloatAxioms.ltb_spec, FloatAxioms.abs_spec.
  change (Prim2SF 0) with (S754_zero false).
  destruct (Prim2SF x) as [s|s| |s m e]; simpl; intro H;
    try discriminate H; try (destruct s; discriminate H); reflexivity.
Qed.

(** A number that is neither zero nor above zero is below it. *)
Lemma negative_when_not_positive (x : float) :
  is_nan x = false -> (x =? 0)%float = false -> (0 <? x)%float = false ->
  (x <? 0)%float = true.
Proof.
  unfold is_nan.
  rewrite !FloatAxioms.eqb_spec, !FloatAxioms.ltb_spec.
  change (Prim2SF 0) with (S754_zero false).
  destruct (Prim2SF x) as [s|s| |s m e]; try destruct s; simpl;
    intros Hnan Hzero Hpos;
    try discriminate Hzero; try discriminate Hpos; try discriminate Hnan;
    reflexivity.
Qed.

Section Wording.
Variable numberToString : float -> string.
Variable currencyFormat : float -> string.
Variable trim : string -> string.
Variable toLowerCase : string -> string.
Abbreviation toNumber := (JS.toNumber trim).
Abbreviation typeOf := (Results.typeOf numberToString toLowerCase).
Abbreviation resolveChangeValue :=
  (Results.resolveChangeValue numberToString currencyFormat trim toLowerCase).
Abbreviation deltaNumber :=
  (Results.deltaNumber numberToString currencyFormat trim toLowerCase).
Abbreviation formatDelta :=
  (Results.formatDelta numberToString currencyFormat trim toLowerCase).
Abbreviation formatCurrency := (Results.formatCurrency currencyFormat).
Abbreviation describedDifference :=
  (Results.describedDifference numberToString currencyFormat trim
     toLowerCase).
Abbreviation describeChange :=
  (Results.describeChange numberToString currencyFormat trim toLowerCase).
Abbreviation getChangeLabel :=
  (Results.getChangeLabel numberToString currencyFormat trim toLowerCase).

Lemma describedDifference_delta (c : change) :
  isFinite (deltaNumber c) = true -> describedDifference c = deltaNumber c.
Proof.
  unfold Results.describedDifference, Results.deltaNumber, finiteNumeric,
    numericOrZero.
  destruct (isFinite (toNumber (difference c))); [reflexivity|].
  cbn [negb].
  destruct (numeric (resolveChangeValue (Some c) New)) as [n|] eqn:En;
    [|intro H; discriminate H].
  destruct (numeric (resolveChangeValue (Some c) Old)) as [o|] eqn:Eo.
  - now rewrite (resolveChangeValue_finite _ _ _ _ _ _ _ En),
      (resolveChangeValue_finite _ _ _ _ _ _ _ Eo).
  - rewrite andb_false_r. intro H. discriminate H.
Qed.

(** What [formatDelta] returns when it returns a delta. *)
Lemma formatDelta_some (c : change) (d : deltaInfo) :
  formatDelta (Some c) = Some d ->
  typeOf c = "price" /\ isFinite (deltaNumber c) = true
  /\ (deltaNumber c =? 0)%float = false
  /\ delta_direction d = (if (0 <? deltaNumber c)%float then "up" else "down")
  /\ delta_title d
     = "Price "
       ++ (if (0 <? deltaNumber c)%float then "increased" else "decreased")
       ++ " by " ++ formatCurrency (abs (deltaNumber c)).
Proof.
  unfold Results.formatDelta.
  destruct (String.eqb (typeOf c) "price") eqn:Et; [|discriminate].
  cbn [negb].
  destruct (isFinite (deltaNumber c)) eqn:Ef; [|discriminate].
  cbn [negb orb].
  destruct (abs (deltaNumber c) <? epsilon)%float eqn:Ee; [discriminate|].
  intro H. injection H as <-. apply String.eqb_eq in Et.
  repeat split; try reflexivity; try assumption.
  destruct (deltaNumber c =? 0)%float eqn:E0; [|reflexivity].
  apply zero_below_epsilon in E0. congruence.
Qed.

(** X3.  A delta that [formatDelta] reports is the delta of a price
    record, finite and not below the threshold in absolute value, and
    its direction is the sign of that number: [up], with a text that
    starts with [+], of a number above zero, and [down], with a text
    that starts with [-], of a number below zero. *)
Theorem formatDelta_direction_by_sign (c : change) (d : deltaInfo) :
  formatDelta (Some c) = Some d ->
  typeOf c = "price"
  /\ isFinite (deltaNumber c) = true
  /\ (abs (deltaNumber c) <? epsilon)%float = false
  /\ (((0 <? deltaNumber c)%float = true
       /\ delta_direction d = "up"
       /\ delta_text d = "+" ++ formatCurrency (abs (deltaNumber c)))
      \/ ((deltaNumber c <? 0)%float = true
          /\ delta_direction d = "down"
          /\ delta_text d = "-" ++ formatCurrency (abs (deltaNumber c)))).
Proof.
  intro Hd.
  destruct (formatDelta_some c d Hd) as (Ht & Hf & H0 & Hdir & _).
  split; [exact Ht|]. split; [exact Hf|].
  unfold Results.formatDelta in Hd. rewrite Ht, Hf in Hd.
  cbn [String.eqb Ascii.eqb Bool.eqb negb orb] in Hd.
  destruct (abs (deltaNumber c) <? epsilon)%float; [discriminate Hd|].
  split; [reflexivity|].
  injection Hd as <-. cbn [delta_direction delta_text].
  destruct (0 <? deltaNumber c)%float eqn:Hpos.
  - left. repeat split; reflexivity.
  - right. split; [|split; reflexivity].
    apply negative_when_not_positive; [|exact H0|exact Hpos].
    unfold isFinite in Hf. apply andb_prop in Hf as [Hn _].
    now destruct (is_nan (deltaNumber c)).
Qed.

(** X15.  When [formatDelta] shows a delta for a change that is no
    baseline, [describeChange] names the same direction: the title of
    the delta is the description followed by the amount. *)
Theorem describeChange_follows_delta (c : change) (d : deltaInfo) :
  truthy (is_baseline c) = false ->
  formatDelta (Some c) = Some d ->
  delta_title d
  = describeChange (Some c) ++ " by " ++ formatCurrency (abs (deltaNumber c))
  /\ ((delta_direction d = "up"
       /\ describeChange (Some c) = "Price increased")
      \/ (delta_direction d = "down"
          /\ describeChange (Some c) = "Price decreased")).
Proof.
  intros Hbase Hd.
  destruct (formatDelta_some c d Hd) as (Ht & Hf & H0 & Hdir & Htitle).
  assert (Hdesc : describeChange (Some c)
                  = "Price " ++ (if (0 <? deltaNumber c)%float
                                 then "increased" else "decreased")).
  { unfold Results.describeChange. rewrite Hbase, Ht. cbn [String.eqb].
    rewrite (describedDifference_delta c Hf), Hf, H0. reflexivity. }
  rewrite Hdesc, Htitle, Hdir. split.
  - now rewrite append_assoc.
  - destruct (0 <? deltaNumber c)%float; [left|right]; now split.
Qed.

(** X16.  For a change without a label of its own that is no baseline,
    whenever [formatDelta] shows a delta the label of [getChangeLabel] is
    the text of [describeChange]. *)
Theorem getChangeLabel_is_description (label : jsval) (c : change)
    (d : deltaInfo) :
  truthy label = false ->
  truthy (is_baseline c) = false ->
  formatDelta (Some c) = Some d ->
  getChangeLabel label (Some c) = JStr (describeChange (Some c)).
Proof.
  intros Hlabel Hbase Hd.
  destruct (formatDelta_some c d Hd) as (Ht & Hf & H0 & Hdir & Htitle).
  unfold Results.getChangeLabel, Results.priceLabel.
  rewrite Hlabel, Hd, Hdir, Ht. cbn [existsb String.eqb orb].
  unfold Results.describeChange. rewrite Hbase, Ht. cbn [String.eqb].
  rewrite (describedDifference_delta c Hf), Hf, H0.
  destruct (0 <? deltaNumber c)%float; reflexivity.
Qed.

End Wording.

Lemma formatDelta_direction_by_sign_witness :
  (Results.deltaNumber Host.numberToString Host.currencyFormat trim
     toLowerCase (priceDrop JUndefined) <? 0)%float = true
  /\ Results.formatDelta Host.numberToString Host.currencyFormat trim
       toLowerCase (Some (priceDrop JUndefined))
     = Some {| delta_text := "-$14.50";
               delta_direction := "down";
               delta_title := "Price decreased by $14.50" |}.
Proof.
  destruct (formatDelta_direction_by_sign Host.numberToString
              Host.currencyFormat trim toLowerCase (priceDrop JUndefined)
              {| delta_text := "-$14.50";
                 delta_direction := "down";
                 delta_title := "Price decreased by $14.50" |} eq_refl)
    as (_ & _ & _ & [(_ & H & _)|(H & _ & _)]).
  - discriminate H.
  - split; [exact H|reflexivity].
Defined.

Lemma describeChange_follows_delta_witness :
  Results.describeChange Host.numberToString Host.currencyFormat trim
    toLowerCase (Some (priceDrop JUndefined)) = "Price decreased".
Proof.
  destruct (describeChange_follows_delta Host.numberToString
              Host.currencyFormat trim toLowerCase (priceDrop JUndefined)
              {| delta_text := "-$14.50";
                 delta_direction := "down";
                 delta_title := "Price decreased by $14.50" |}
              eq_refl eq_refl) as [_ [[H _]|[_ H]]].
  - discriminate H.
  - exact H.
Defined.

Lemma getChangeLabel_is_description_witness :
  Results.getChangeLabel Host.numberToString Host.currencyFormat trim
    toLowerCase JUndefined (Some (priceDrop JUndefined))
  = JStr (Results.describeChange Host.numberToString Host.currencyFormat
            trim toLowerCase (Some (priceDrop JUndefined))).
Proof.
  apply (getChangeLabel_is_description Host.numberToString
           Host.currencyFormat trim toLowerCase JUndefined
           (priceDrop JUndefined)
           {| delta_text := "-$14.50";
              delta_direction := "down";
              delta_title := "Price decreased by $14.50" |});
    reflexivity.
Defined.

(* ----------------------------------------------------------------- *)
(** *** Stock states, SKUs and class names *)

Lemma upperChar_facts (c : ascii) :
  isSpace (upperChar c) = isSpace c
  /\ isUnderscore (upperChar c) = isUnderscore c
  /\ Ascii.eqb (upperChar c) " " = Ascii.eqb c " "
  /\ upperChar (upperChar c) = upperChar c
  /\ isLower (upperChar c) = false.
Proof. destruct c as [[] [] [] [] [] [] [] []]; repeat split. Qed.

Lemma toUpperCase_idem (s : string) :
  toUpperCase (toUpperCase s) = toUpperCase s.
Proof.
  unfold toUpperCase. induction s as [|c t IH]; [reflexivity|].
  cbn [smap]. rewrite IH.
  now rewrite (proj1 (proj2 (proj2 (proj2 (upperChar_facts c))))).
Qed.

Lemma singleSpaced_fixed (s : string) :
  singleSpaced s = true ->
  replaceRuns (fun c => negb (isSpace c)) " " false s = s.
Proof.
  induction s as [|c t IH]; [reflexivity|].
  cbn [singleSpaced replaceRuns]. intro H. apply andb_prop in H as [Hc Ht].
  destruct (isSpace c) eqn:Es; cbn [negb] in *.
  - cbn [orb] in Hc. apply andb_prop in Hc as [Hc Hh].
    apply Ascii.eqb_eq in Hc. subst c. cbn [append]. f_equal.
    rewrite replaceRuns_flag; [now apply IH|].
    destruct t as [|c' t']; [reflexivity|].
    cbn [headKept] in *. now rewrite negb_involutive.
  - f_equal. now apply IH.
Qed.

Lemma singleSpaced_replaceRuns (b : bool) (s : string) :
  singleSpaced (replaceRuns (fun c => negb (isSpace c)) " " b s) = true
  /\ (b = true ->
      headKept isSpace (replaceRuns (fun c => negb (isSpace c)) " " b s)
      = true).
Proof.
  revert b. induction s as [|c t IH]; intro b; [now split|].
  cbn [replaceRuns]. destruct (isSpace c) eqn:Es; cbn [negb].
  - destruct b; [apply IH|].
    destruct (IH true) as [I1 I2]. split; [|discriminate].
    cbn [append singleSpaced]. now rewrite I1, (I2 eq_refl).
  - destruct (IH false) as [I1 _]. cbn [singleSpaced headKept].
    now rewrite Es, I1.
Qed.

Lemma singleSpaced_dashes (b : bool) (s : string) :
  singleSpaced s = true ->
  singleSpaced (replaceRuns (fun c => negb (isUnderscore c)) "-" b s) = true.
Proof.
  revert b. induction s as [|c t IH]; intros b H; [reflexivity|].
  cbn [singleSpaced] in H. apply andb_prop in H as [Hc Ht].
  cbn [replaceRuns]. destruct (isUnderscore c) eqn:Eu; cbn [negb].
  - destruct b; [now apply IH|].
    cbn [append singleSpaced]. now rewrite (IH true Ht).
  - cbn [singleSpaced]. rewrite (IH false Ht), andb_true_r.
    destruct (isSpace c); [|reflexivity]. cbn [negb orb] in *.
    apply andb_prop in Hc as [Hc Hh]. rewrite Hc. cbn [andb].
    now apply replaceRuns_headKept.
Qed.

Lemma singleSpaced_upper (s : string) :
  singleSpaced (toUpperCase s) = singleSpaced s.
Proof.
  unfold toUpperCase. induction s as [|c t IH]; [reflexivity|].
  cbn [smap singleSpaced]. rewrite IH.
  destruct (upperChar_facts c) as (H1 & _ & H3 & _).
  rewrite H1, H3. f_equal. f_equal. f_equal.
  apply headKept_smap. intro x. apply upperChar_facts.
Qed.

Section Shapes.
Variable numberToString : float -> string.
Abbreviation toString := (Results.toString numberToString).
Abbreviation normalizeStockState :=
  (Results.normalizeStockState numberToString trim toLowerCase).
Abbreviation formatSku := (Results.formatSku numberToString trim).
Abbreviation getChangeTypeClass :=
  (Results.getChangeTypeClass numberToString toLowerCase).

(** X17.  Every value whose lower-cased text holds [available] is classed
    as [in_stock]; the text [unavailable] holds it, so the out-of-stock
    marker of that name never decides. *)
Theorem normalizeStockState_available (value : jsval) :
  nullish value = false ->
  includes (toLowerCase (toString value)) "available" = true ->
  normalizeStockState value = "in_stock".
Proof.
  intros Hnull Hinc. unfold Results.normalizeStockState. rewrite Hnull.
  rewrite toLowerCase_trim.
  apply includes_split in Hinc as (a & b & ->).
  unfold trim, trimStart, trimEnd.
  rewrite dropWhile_app_headKept by reflexivity.
  set (a' := dropWhile isSpace a).
  rewrite <- append_assoc.
  rewrite dropWhileEnd_app_lastKept;
    [|destruct a'; discriminate
     |rewrite lastKept_app; [reflexivity|discriminate]].
  set (b' := dropWhileEnd isSpace b). rewrite append_assoc.
  assert (Hne : String.eqb (a' ++ "available" ++ b') "" = false)
    by (destruct a'; reflexivity).
  rewrite Hne.
  destruct (replaceRuns_app alnum " " false a' ("available" ++ b'))
    as [flag ->].
  rewrite (replaceRuns_kept alnum " " flag "available" b')
    by (reflexivity || discriminate).
  unfold containsAny. cbn [existsb].
  rewrite (includes_infix _ "available" _).
  now rewrite !orb_true_r.
Qed.

(** The text [formatSku] cleans. *)
Abbreviation skuText sku := (trim (toString (orElse sku (JStr "")))).

Lemma formatSku_shape (sku : jsval) :
  formatSku sku <> ""
  /\ headKept isSpace (formatSku sku) = true
  /\ lastKept isSpace (formatSku sku) = true
  /\ singleSpaced (formatSku sku) = true
  /\ noneOf isUnderscore (formatSku sku) = true
  /\ noneOf isLower (formatSku sku) = true.
Proof.
  unfold Results.formatSku.
  destruct (String.eqb (skuText sku) "") eqn:E;
    [repeat split; discriminate|].
  apply String.eqb_neq in E.
  set (cleaned := skuText sku) in *.
  set (spaced := replaceRuns (fun c => negb (isSpace c)) " " false cleaned).
  set (dashed := replaceRuns (fun c => negb (isUnderscore c)) "-" false
                   spaced).
  assert (Hs : spaced <> "")
    by (apply replaceRuns_nonempty; [discriminate|exact E]).
  assert (Hd : dashed <> "")
    by (apply replaceRuns_nonempty; [discriminate|exact Hs]).
  assert (Hup : forall c, isSpace (upperChar c) = isSpace c)
    by (intro c; apply upperChar_facts).
  assert (Hends : lastKept isSpace spaced = true
                  /\ (headKept isSpace cleaned = true ->
                      headKept isSpace spaced = true)).
  { apply (replaceRuns_ends (fun c => negb (isSpace c)) isSpace " " false
             cleaned); [reflexivity|exact E|].
    apply lastKept_dropWhileEnd. }
  destruct Hends as [Hlast Hhead].
  repeat split.
  - unfold toUpperCase. destruct dashed; [contradiction|discriminate].
  - unfold toUpperCase. rewrite (headKept_smap _ _ Hup).
    apply replaceRuns_headKept; [discriminate|reflexivity|].
    apply Hhead, headKept_trim.
  - unfold toUpperCase. rewrite (lastKept_smap _ _ _ Hup).
    apply replaceRuns_lastKept; [discriminate|reflexivity|].
    exact Hlast.
  - rewrite singleSpaced_upper. apply singleSpaced_dashes.
    apply singleSpaced_replaceRuns.
  - unfold noneOf, toUpperCase. rewrite allOf_smap.
    + now apply replaceRuns_allOf.
    + intro c. now rewrite (proj1 (proj2 (upperChar_facts c))).
  - unfold noneOf, toUpperCase. clear. induction dashed as [|c t IH];
      [reflexivity|].
    cbn [smap allOf]. rewrite IH.
    now rewrite (proj2 (proj2 (proj2 (proj2 (upperChar_facts c))))).
Qed.

(** X18.  A formatted SKU is a fixed point of [formatSku]: formatting it
    again changes nothing. *)
Theorem formatSku_idempotent (sku : jsval) :
  formatSku (JStr (formatSku sku)) = formatSku sku.
Proof.
  destruct (formatSku_shape sku) as (Hne & Hh & Hl & Hs & Hu & _).
  set (out := formatSku sku) in *.
  assert (Hout : out = toUpperCase out).
  { unfold out, Results.formatSku.
    destruct (String.eqb (skuText sku) ""); [reflexivity|].
    now rewrite toUpperCase_idem. }
  unfold Results.formatSku at 1.
  assert (Htext : skuText (JStr out) = out).
  { unfold orElse. cbn [truthy].
    destruct (String.eqb out "") eqn:E;
      [apply String.eqb_eq in E; contradiction|].
    cbn [negb Results.toString toStringWith].
    apply trim_fixed; [exact Hh|now apply dropWhileEnd_lastKept]. }
  rewrite Htext.
  destruct (String.eqb out "") eqn:E;
    [apply String.eqb_eq in E; contradiction|].
  rewrite (singleSpaced_fixed _ Hs), (replaceRuns_fixed _ _ _ _ Hu).
  now symmetry.
Qed.

(** X19.  Whatever the SKU, the text [formatSku] returns is not empty,
    neither starts nor ends with a blank of ASCII, holds no underscore
    and none of the letters [a] to [z], and has no blank of ASCII but
    single spaces. *)
Theorem formatSku_clean (sku : jsval) :
  formatSku sku <> ""
  /\ trim (formatSku sku) = formatSku sku
  /\ singleSpaced (formatSku sku) = true
  /\ noneOf isUnderscore (formatSku sku) = true
  /\ noneOf isLower (formatSku sku) = true.
Proof.
  destruct (formatSku_shape sku) as (Hne & Hh & Hl & Hs & Hu & Hlow).
  repeat split; try assumption.
  apply trim_fixed; [exact Hh|now apply dropWhileEnd_lastKept].
Qed.

(** The characters of a class name [getChangeTypeClass] lets through. *)
Abbreviation classChar := (fun c => alnum c || isDash c).

(** X20.  Whatever the change type, [getChangeTypeClass] returns a class
    name that is not empty, is made of [a-z], [0-9] and [-] alone, and
    neither starts nor ends with a dash. *)
Theorem getChangeTypeClass_token (type : jsval) :
  getChangeTypeClass type <> ""
  /\ allOf classChar (getChangeTypeClass type) = true
  /\ headKept isDash (getChangeTypeClass type) = true
  /\ lastKept isDash (getChangeTypeClass type) = true.
Proof.
  unfold Results.getChangeTypeClass.
  set (safeValue := toLowerCase _).
  set (sanitized := dropWhileEnd isDash _).
  destruct (String.eqb sanitized "") eqn:E;
    [repeat split; discriminate|].
  apply String.eqb_neq in E. repeat split.
  - exact E.
  - apply allOf_dropWhileEnd, allOf_dropWhile, replaceRuns_allOf;
      [|reflexivity].
    intros c Hc. now rewrite Hc.
  - apply headKept_dropWhileEnd, headKept_dropWhile.
  - apply lastKept_dropWhileEnd.
Qed.

End Shapes.

Lemma normalizeStockState_available_witness :
  Results.normalizeStockState Host.numberToString trim toLowerCase
    (JStr "Currently Unavailable") = "in_stock".
Proof.
  apply (normalizeStockState_available Host.numberToString
           (JStr "Currently Unavailable")); reflexivity.
Defined.

End ResultsFacts.

(* ================================================================= *)
(** ** The history page: the filters and the search index *)

Module HistoryFacts.
Import JS JSFacts History.

Lemma truthy_number_not_nan (x : float) :
  truthy (JNum x) = true -> is_nan x = false.
Proof. simpl. destruct (is_nan x); [discriminate|reflexivity]. Qed.

(** On numbers, [a < b] fails exactly when [b <= a] holds. *)
Lemma ltb_negb_leb (a b : float) :
  is_nan a = false -> is_nan b = false ->
  (a <? b)%float = negb (b <=? a)%float.
Proof.
  unfold is_nan.
  rewrite !FloatAxioms.eqb_spec, FloatAxioms.ltb_spec, FloatAxioms.leb_spec.
  unfold SFeqb, SFltb, SFleb.
  destruct (Prim2SF a) as [sa|sa| |sa ma ea];
    destruct (Prim2SF b) as [sb|sb| |sb mb eb]; simpl;
    try discriminate; intros _ _;
    try (destruct sa; reflexivity);
    try (destruct sb; reflexivity);
    try (destruct sa, sb; reflexivity).
  destruct sa, sb; try reflexivity;
    rewrite (Z.compare_antisym ea eb);
    destruct (ea ?= eb)%Z; simpl; try reflexivity;
    change (Pos.compare_cont Eq mb ma) with (Pos.compare mb ma);
    change (Pos.compare_cont Eq ma mb) with (Pos.compare ma mb);
    rewrite (Pos.compare_antisym ma mb);
    destruct (ma ?= mb)%positive; reflexivity.
Qed.

Lemma countOf_not_nan (e : entry) : is_nan (countOf e) = false.
Proof.
  unfold countOf.
  destruct (truthy (JNum (entry_items_count e))) eqn:E.
  - now apply truthy_number_not_nan.
  - reflexivity.
Qed.

Section Filtering.
Variable trim : string -> string.

Abbreviation keepEntry := (History.keepEntry trim).
Abbreviation applyFilters := (History.applyFilters trim).
Abbreviation searchHolds := (History.searchHolds trim).
Abbreviation allFiltersHold := (History.allFiltersHold trim).
Abbreviation noFilterSet := (History.noFilterSet trim).

(** The early returns of the callback are the conjunction of the five
    filters. *)
Lemma keepEntry_allFiltersHold (st : filterState) (e : entry) :
  keepEntry st e = allFiltersHold st e.
Proof.
  unfold History.keepEntry, History.allFiltersHold, History.searchHolds,
    startHolds, endHolds, minItemsHolds, siteHolds.
  fold (countOf e).
  assert (Hm : truthy (JNum (minItems st))
               && (countOf e <? minItems st)%float
               = negb (negb (truthy (JNum (minItems st)))
                       || (minItems st <=? countOf e)%float)).
  { destruct (truthy (JNum (minItems st))) eqn:Hmin; cbn [andb orb negb];
      [|reflexivity].
    rewrite (ltb_negb_leb (countOf e) (minItems st) (countOf_not_nan e)
               (truthy_number_not_nan _ Hmin)).
    reflexivity. }
  rewrite Hm.
  generalize (negb (truthy (JNum (minItems st)))
              || (minItems st <=? countOf e)%float).
  intro m.
  destruct (startDate st) as [t0|], (endDate st) as [t1|],
    (timestamp_obj e) as [t|];
    repeat match goal with
           | |- context [(?x <=? ?y)%Z] => rewrite (Z.leb_antisym y x)
           end;
    repeat match goal with
           | |- context [(?x <? ?y)%Z] => destruct (x <? y)%Z
           end;
    destruct (String.eqb (trim (search st)) ""),
      (includes (search_index e) (trim (search st))),
      (String.eqb (site st) ""),
      (existsb (sameValueZero (JStr (site st))) (host_list e)), m;
    reflexivity.
Qed.

Lemma allFiltersHold_iff (st : filterState) (e : entry) :
  allFiltersHold st e = true
  <-> searchHolds st e = true /\ startHolds st e = true
      /\ endHolds st e = true /\ minItemsHolds st e = true
      /\ siteHolds st e = true.
Proof. unfold History.allFiltersHold. rewrite !andb_true_iff. tauto. Qed.

Lemma allFiltersHold_unset (st : filterState) (e : entry) :
  noFilterSet st -> allFiltersHold st e = true.
Proof.
  intros (Hs & Hd & He & Hm & Hh).
  unfold History.allFiltersHold, History.searchHolds, startHolds, endHolds,
    minItemsHolds, siteHolds.
  now rewrite Hs, Hd, He, Hm, Hh.
Qed.

Lemma filter_all {A : Type} (f : A -> bool) (l : list A) :
  (forall x, f x = true) -> filter f l = l.
Proof.
  intro Hf. induction l as [|x t IH]; simpl; [reflexivity|].
  now rewrite Hf, IH.
Qed.

Lemma applyFilters_filter (st : filterState) (historyData : list entry) :
  applyFilters st historyData = filter (allFiltersHold st) historyData.
Proof.
  unfold History.applyFilters. apply filter_ext, keepEntry_allFiltersHold.
Qed.

Lemma filter_both {A : Type} (f g : A -> bool) (l : list A) :
  filter (fun x => f x && g x) l = filter g (filter f l).
Proof.
  induction l as [|x t IH]; simpl; [reflexivity|].
  destruct (f x); simpl; [destruct (g x)|]; now rewrite IH.
Qed.

End Filtering.

Section Listing.
(** The filters at [JS.trim]. *)
Abbreviation applyFilters := (History.applyFilters trim).
Abbreviation searchHolds := (History.searchHolds trim).
Abbreviation noFilterSet := (History.noFilterSet trim).

(** C6.  An entry is listed exactly when it is in the history and every
    filter holds of it; the listing keeps the order of the history and
    is what the five filters leave when applied one after the other; and
    with no filter set it is the whole history. *)
Theorem applyFilters_conjunction (st : filterState) (historyData : list entry) :
  (forall e, In e (applyFilters st historyData)
             <-> In e historyData
                 /\ searchHolds st e = true /\ startHolds st e = true
                 /\ endHolds st e = true /\ minItemsHolds st e = true
                 /\ siteHolds st e = true)
  /\ applyFilters st historyData
     = filter (siteHolds st)
         (filter (minItemsHolds st)
            (filter (endHolds st)
               (filter (startHolds st)
                  (filter (searchHolds st) historyData))))
  /\ (noFilterSet st -> applyFilters st historyData = historyData)
  /\ applyFilters defaultFilterState historyData = historyData.
Proof.
  split; [|split; [|split]].
  - intro e. rewrite applyFilters_filter, filter_In, allFiltersHold_iff.
    reflexivity.
  - rewrite applyFilters_filter. unfold History.allFiltersHold.
    now rewrite !filter_both.
  - intro Hno. rewrite applyFilters_filter. apply filter_all.
    intro e. now apply allFiltersHold_unset.
  - rewrite applyFilters_filter. apply filter_all.
    intro e. apply allFiltersHold_unset. now repeat split.
Qed.

End Listing.

Section Index.
Variable numberToString : float -> string.
Variable hostnameOf : string -> option string.
Variable dateTime : jsval -> option Z.

Variable trim : string -> string.
Variable toLowerCase : string -> string.

Abbreviation normalizeHistoryEntry :=
  (History.normalizeHistoryEntry numberToString hostnameOf dateTime trim
     toLowerCase).
Abbreviation indexText := (History.indexText numberToString toLowerCase).
Abbreviation headerParts :=
  (History.headerParts numberToString hostnameOf trim).
Abbreviation applyFilters := (History.applyFilters trim).

Lemma pushItem_itemTexts (l : list (option rawItem)) (acc : list jsval) :
  fold_left pushItem l acc = (acc ++ flat_map itemTexts l)%list.
Proof.
  revert acc. induction l as [|it t IH]; intro acc; simpl.
  - now rewrite app_nil_r.
  - rewrite IH. destruct it as [item|]; simpl; [|reflexivity].
    destruct (truthy (item_title item)), (truthy (item_site item)); simpl;
      now rewrite <- ?app_assoc.
Qed.

(** The index of a session is the text of its header parts and of the
    titles and sites of its first twenty-five items. *)
Lemma search_index_parts (e : rawEntry) :
  search_index (normalizeHistoryEntry e)
  = indexText (headerParts e ++ flat_map itemTexts (firstn 25 (itemsOf e))).
Proof.
  unfold History.normalizeHistoryEntry. simpl.
  now rewrite pushItem_itemTexts.
Qed.


End Index.

(* ----------------------------------------------------------------- *)
(** *** A query against the parts of the index *)

Lemma startsWith_app (a b q : string) :
  startsWith (a ++ b) q = true ->
  startsWith a q = true
  \/ exists q2, q = a ++ q2 /\ q2 <> "" /\ startsWith b q2 = true.
Proof.
  revert q. induction a as [|c t IH]; intros q H.
  - destruct q as [|d q']; [now left|].
    right. exists (String d q'). repeat split; [discriminate|exact H].
  - destruct q as [|d q']; [now left|].
    simpl in H. apply andb_prop in H as [Hc Ht].
    apply Ascii.eqb_eq in Hc. subst d.
    destruct (IH q' Ht) as [Hin|(q2 & -> & Hne & Hb)].
    + left. simpl. now rewrite Ascii.eqb_refl.
    + right. now exists q2.
Qed.

Lemma includes_nonempty (s q : string) :
  q <> "" -> includes s q = true ->
  exists c t, includes (String c t) q = true /\ s = String c t.
Proof.
  intros Hq H. destruct s as [|c t].
  - destruct q; [now contradiction Hq|discriminate H].
  - now exists c, t.
Qed.

(** An occurrence in [a ++ b] lies in [a], lies in [b], or runs from a
    non-empty end of [a] into a non-empty start of [b]. *)
Lemma includes_app (a b q : string) :
  includes (a ++ b) q = true ->
  includes a q = true \/ includes b q = true
  \/ exists q1 q2, q = q1 ++ q2 /\ q1 <> "" /\ q2 <> ""
                   /\ startsWith b q2 = true.
Proof.
  induction a as [|c t IH]; intro H.
  - right. now left.
  - change (String c t ++ b) with (String c (t ++ b)) in H.
    cbn [includes] in H. apply orb_prop in H as [H|H].
    + change (String c (t ++ b)) with (String c t ++ b) in H.
      destruct (startsWith_app _ _ _ H) as [Hin|(q2 & -> & Hne & Hb)].
      * left. cbn [includes]. now rewrite Hin.
      * right. right. exists (String c t), q2.
        repeat split; [discriminate|exact Hne|exact Hb].
    + destruct (IH H) as [Hin|[Hin|Hst]].
      * left. cbn [includes]. rewrite Hin. apply orb_true_r.
      * right. now left.
      * right. now right.
Qed.

Lemma includes_tail (q1 q2 x : string) :
  includes q2 x = true -> includes (q1 ++ q2) x = true.
Proof.
  intro H. induction q1 as [|c t IH]; [exact H|].
  change (String c t ++ q2) with (String c (t ++ q2)).
  cbn [includes]. rewrite IH. apply orb_true_r.
Qed.

Lemma dropWhileEnd_length (p : ascii -> bool) (s : string) :
  (String.length (dropWhileEnd p s) <= String.length s)%nat.
Proof.
  induction s as [|c t IH]; simpl; [lia|].
  destruct (dropWhileEnd p t); [destruct (p c)|]; simpl in *; lia.
Qed.

Lemma trimEnd_no_final_space (q1 : string) :
  trimEnd (q1 ++ " ") <> q1 ++ " ".
Proof.
  unfold trimEnd. rewrite dropWhileEnd_app_allOf by reflexivity.
  intro H. pose proof (dropWhileEnd_length isSpace q1) as Hl.
  rewrite H in Hl. rewrite length_app in Hl. simpl in Hl. lia.
Qed.

(** The separator starts no part of a query that holds no bar and ends
    in no space. *)
Lemma separator_starts_no_query (q1 q2 rest : string) :
  q2 <> "" -> startsWith (" | " ++ rest) q2 = true ->
  includes (q1 ++ q2) "|" = false -> trimEnd (q1 ++ q2) = q1 ++ q2 ->
  False.
Proof.
  intros Hne Hst Hbar Hend.
  destruct q2 as [|c [|d q2']]; [now contradiction Hne| |].
  - simpl in Hst. rewrite andb_true_r in Hst.
    apply Ascii.eqb_eq in Hst. subst c.
    now apply (trimEnd_no_final_space q1).
  - simpl in Hst. apply andb_prop in Hst as [_ Hst].
    apply andb_prop in Hst as [Hd _]. apply Ascii.eqb_eq in Hd. subst d.
    rewrite (includes_tail q1 (String c (String "|" q2')) "|") in Hbar;
      [discriminate Hbar|].
    cbn [includes]. replace (includes (String "|" q2') "|") with true
      by reflexivity.
    apply orb_true_r.
Qed.

Lemma includes_join (parts : list string) (q : string) :
  q <> "" -> includes q "|" = false ->
  headKept isSpace q = true -> trimEnd q = q ->
  (forall part, In part parts -> includes part q = false) ->
  includes (join " | " parts) q = false.
Proof.
  intros Hq Hbar Hhead Hend Hparts.
  destruct q as [|c0 q0]; [now contradiction Hq|].
  induction parts as [|x [|y t] IH].
  - reflexivity.
  - apply Hparts. now left.
  - change (join " | " (x :: y :: t)) with (x ++ " | " ++ join " | " (y :: t)).
    destruct (includes (x ++ " | " ++ join " | " (y :: t)) (String c0 q0))
      eqn:E; [|reflexivity].
    exfalso.
    apply includes_app in E as [E|[E|(q1 & q2 & Heq & Hq1 & Hq2 & Hst)]].
    + rewrite (Hparts x) in E; [discriminate E|now left].
    + change (" | " ++ join " | " (y :: t))
        with (String " " (String "|" (String " " (join " | " (y :: t))))) in E.
      cbn [includes] in E.
      rewrite (IH (fun part H => Hparts part (or_intror H))) in E.
      rewrite orb_false_r in E.
      simpl in Hhead, Hbar.
      apply orb_prop in E as [E|E].
      * simpl in E. apply andb_prop in E as [E _].
        apply Ascii.eqb_eq in E. subst c0. discriminate Hhead.
      * apply orb_prop in E as [E|E].
        -- simpl in E. apply andb_prop in E as [E _].
           apply Ascii.eqb_eq in E. subst c0.
           simpl in Hbar. discriminate Hbar.
        -- simpl in E. apply andb_prop in E as [E _].
           apply Ascii.eqb_eq in E. subst c0. discriminate Hhead.
    + rewrite Heq in Hbar, Hend.
      exact (separator_starts_no_query q1 q2 _ Hq2 Hst Hbar Hend).
Qed.

Section Parts.
Variable numberToString : float -> string.
Variable hostnameOf : string -> option string.
Variable dateTime : jsval -> option Z.
Variable trim : string -> string.
Variable toLowerCase : string -> string.

(** X7.  A query that, once trimmed, holds no bar and neither starts nor
    ends with a blank, and that occurs in none of the lower-cased parts
    of the index (the id, the count, the addresses, the hosts, the two
    rules, the titles and sites of the first twenty-five items) leaves
    the session out. *)
Theorem search_misses_unindexed (e : rawEntry) (st : filterState)
    (historyData : list entry) :
  trim (search st) <> "" ->
  includes (trim (search st)) "|" = false ->
  headKept isSpace (trim (search st)) = true ->
  lastKept isSpace (trim (search st)) = true ->
  (forall part,
     In part (History.headerParts numberToString hostnameOf trim e
              ++ flat_map itemTexts (firstn 25 (itemsOf e))) ->
     includes (toLowerCase (History.toString numberToString part))
              (trim (search st)) = false) ->
  ~ In (History.normalizeHistoryEntry numberToString hostnameOf dateTime
          trim toLowerCase e)
       (History.applyFilters trim st historyData).
Proof.
  intros Hq Hbar Hhead Hlast Hparts Hin.
  unfold History.applyFilters in Hin. apply filter_In in Hin as [_ Hkeep].
  unfold History.keepEntry in Hkeep.
  rewrite search_index_parts in Hkeep. unfold History.indexText in Hkeep.
  rewrite includes_join in Hkeep.
  - destruct (String.eqb_spec (trim (search st)) "") as [E|_];
      [now apply Hq|discriminate Hkeep].
  - exact Hq.
  - exact Hbar.
  - exact Hhead.
  - now apply dropWhileEnd_lastKept.
  - intros part Hpart. apply in_map_iff in Hpart as (v & <- & Hv).
    now apply Hparts.
Qed.

End Parts.

Lemma search_misses_unindexed_witness :
  ~ In (History.normalizeHistoryEntry Host.numberToString Host.hostnameOf
          Host.dateTime trim toLowerCase
          (longSession {| item_title := JStr "Zebra Charger";
                          item_site := JStr "xcellparts" |}))
       (History.applyFilters trim
          {| search := " xcell "; startDate := None; endDate := None;
             minItems := 0%float; site := "" |}
          [History.normalizeHistoryEntry Host.numberToString
             Host.hostnameOf Host.dateTime trim toLowerCase
             (longSession {| item_title := JStr "Zebra Charger";
                             item_site := JStr "xcellparts" |})]).
Proof.
  apply (search_misses_unindexed Host.numberToString Host.hostnameOf
           Host.dateTime trim toLowerCase).
  - discriminate.
  - reflexivity.
  - reflexivity.
  - reflexivity.
  - intros part Hpart. vm_compute in Hpart.
    repeat (destruct Hpart as [<-|Hpart]; [vm_compute; reflexivity|]).
    contradiction.
Defined.


(* ----------------------------------------------------------------- *)
(** *** The order of the cards *)

Lemma atTime_insertSorted (ms : Z) (x : entry) (l : list entry) :
  atTime ms (insertSorted newestFirst x l) = atTime ms (x :: l).
Proof.
  unfold atTime. induction l as [|y t IH]; [reflexivity|].
  cbn [insertSorted]. destruct (Z.leb_spec (newestFirst x y) 0) as [H|H];
    [reflexivity|].
  cbn [filter] in *. rewrite IH. unfold newestFirst in H.
  destruct (Z.eqb_spec (timestamp_ms x) ms) as [Ex|Ex];
    destruct (Z.eqb_spec (timestamp_ms y) ms) as [Ey|Ey];
    try reflexivity. lia.
Qed.

Lemma atTime_arraySort (ms : Z) (l : list entry) :
  atTime ms (arraySort newestFirst l) = atTime ms l.
Proof.
  induction l as [|x t IH]; [reflexivity|].
  cbn [arraySort fold_right]. rewrite atTime_insertSorted.
  unfold atTime in *. cbn [filter]. fold (arraySort newestFirst t).
  now rewrite IH.
Qed.

Lemma StronglySorted_weaken {A : Type} (R R' : A -> A -> Prop)
    (l : list A) :
  StronglySorted R l -> (forall a b, R a b -> R' a b) ->
  StronglySorted R' l.
Proof.
  intros Hs Himp. induction Hs as [|a t Ht IH Ha]; constructor;
    [exact IH|].
  eapply Forall_impl; [|exact Ha]. intros b Hb. now apply Himp.
Qed.

Section Cards.
Variable trim : string -> string.
Abbreviation applyFilters := (History.applyFilters trim).
Abbreviation keepEntry := (History.keepEntry trim).

(** X21.  The cards of the history page are the sessions that pass the
    filters, each once, the newest first; sessions of the same time keep
    the order they have in the history. *)
Theorem renderHistory_newest_first (st : filterState)
    (historyData : list entry) :
  let shown := renderHistory (Some (applyFilters st historyData))
                 historyData in
  Permutation (applyFilters st historyData) shown
  /\ (forall e, In e shown <-> In e historyData /\ keepEntry st e = true)
  /\ StronglySorted (fun a b => (timestamp_ms b <= timestamp_ms a)%Z) shown
  /\ (forall ms, atTime ms shown = atTime ms (applyFilters st historyData)).
Proof.
  intro shown. unfold shown, renderHistory.
  set (l := applyFilters st historyData).
  assert (Hperm : Permutation l (arraySort newestFirst l))
    by apply arraySort_Permutation.
  split; [exact Hperm|]. split; [|split].
  - intro e. split.
    + intro H. apply (Permutation_in _ (Permutation_sym Hperm)) in H.
      unfold l, History.applyFilters in H. now apply filter_In in H.
    + intro H. apply (Permutation_in _ Hperm).
      unfold l, History.applyFilters. now apply filter_In.
  - assert (Hs : StronglySorted (ordered newestFirst)
                   (arraySort newestFirst l)).
    { apply arraySort_StronglySorted; unfold newestFirst; intros; lia. }
    apply (StronglySorted_weaken _ _ _ Hs).
    intros a b Hab. unfold ordered, newestFirst in Hab. lia.
  - intro ms. apply atTime_arraySort.
Qed.

End Cards.

End HistoryFacts.
